(** * Payment gateway proxy and subscription billing simulator

    A shallow embedding of the TypeScript services
    [FraudDetectionService], [LLMService], [PaymentService] and
    [SubscriptionService], and the properties of the design document
    checked against them.

    Modelling conventions.
    - A JavaScript [number] is an exact rational ([Q]).  The code only adds
      a handful of small constants, compares, clamps and formats, so every
      comparison below is the comparison of the mathematical values; [NaN]
      and the infinities are outside the model.  The program computes in
      floating point, where a sum can be off by a rounding; the properties
      that compare a computed sum with a bound are written with the margin
      this takes.
    - Millisecond time values ([Date], [Date.now()]) are integers ([Z]);
      the time zone of the process is an argument ([Date.Zone]).  Only the
      property of back-to-back sweeps is stated at a fixed offset.
    - Strings are [string]; case mapping and trimming act on the ASCII
      range, which covers every literal of the program.  Lengths and
      positions are counted in characters of one byte, as the program
      counts them for a text of ASCII characters.
    - An object used as a table ([{}] indexed by strings) is a finite map.
      A key that names a member every object inherits
      ([JS.Object_prototype]) is outside this model, and the properties of
      such a table are stated for the other keys.
    - Every source of non-determinism is an explicit argument: the value of
      [Math.random()], each clock reading, each generated identifier and the
      outcome of the call to the external explanation generator. *)

From Stdlib Require Import ZArith QArith Qround.
From Stdlib Require Import String Ascii List Lia Lqa DecimalString.
From Stdlib Require Import Permutation.
From Stdlib Require Import Sorted.
From stdpp Require Import gmap strings list.

Open Scope Z_scope.
Open Scope Q_scope.
Open Scope string_scope.

(** ** JavaScript primitives used by the services *)

Module JS.

(** Comparisons of numbers. *)
Definition lt (a b : Q) : bool := negb (Qle_bool b a).
Definition le (a b : Q) : bool := Qle_bool a b.
Definition gt (a b : Q) : bool := lt b a.
Definition ge (a b : Q) : bool := le b a.

(** [Math.max], [Math.min] and [Math.round] (round half up). *)
Definition Math_max (a b : Q) : Q := if le a b then b else a.
Definition Math_min (a b : Q) : Q := if le a b then a else b.
Definition Math_round (x : Q) : Q := inject_Z (Qfloor (x + (1 # 2))).

(** [String.prototype.toLowerCase] / [toUpperCase] on ASCII letters. *)
Definition lower_ascii (c : ascii) : ascii :=
  let n := nat_of_ascii c in
  if (Nat.leb 65 n && Nat.leb n 90)%bool then ascii_of_nat (n + 32)%nat else c.

Definition upper_ascii (c : ascii) : ascii :=
  let n := nat_of_ascii c in
  if (Nat.leb 97 n && Nat.leb n 122)%bool then ascii_of_nat (n - 32)%nat else c.

Fixpoint map_string (f : ascii -> ascii) (s : string) : string :=
  match s with
  | EmptyString => EmptyString
  | String c r => String (f c) (map_string f r)
  end.

Definition toLowerCase : string -> string := map_string lower_ascii.
Definition toUpperCase : string -> string := map_string upper_ascii.

(** [hay.includes(needle)]. *)
Fixpoint includes (hay needle : string) : bool :=
  if String.prefix needle hay then true
  else match hay with
       | EmptyString => false
       | String _ rest => includes rest needle
       end.

(** [xs.includes(x)] on an array of strings. *)
Definition array_includes (xs : list string) (x : string) : bool :=
  existsb (String.eqb x) xs.

(** [xs.push(x)]. *)
Definition push {A : Type} (xs : list A) (x : A) : list A := (xs ++ [x])%list.

(** [xs.join(sep)]. *)
Fixpoint join (sep : string) (xs : list string) : string :=
  match xs with
  | [] => ""
  | [x] => x
  | x :: rest => x ++ sep ++ join sep rest
  end.

(** [String.prototype.trim] on ASCII white space: of the characters that
    [trim] strips, the space and the controls 9 to 13; the no-break space
    and the other separators beyond the ASCII range are not treated. *)
Definition is_space (c : ascii) : bool :=
  let n := nat_of_ascii c in
  (Nat.eqb n 32 || (Nat.leb 9 n && Nat.leb n 13))%bool.

Fixpoint trim_start (s : string) : string :=
  match s with
  | EmptyString => EmptyString
  | String c r => if is_space c then trim_start r else s
  end.

Fixpoint trim_end (s : string) : string :=
  match s with
  | EmptyString => EmptyString
  | String c r =>
      match trim_end r with
      | EmptyString => if is_space c then EmptyString else String c EmptyString
      | r' => String c r'
      end
  end.

Definition trim (s : string) : string := trim_end (trim_start s).

(** Truthiness of a string: only the empty string is falsy. *)
Definition truthy (s : string) : bool :=
  match s with EmptyString => false | _ => true end.

(** Decimal digits of a natural number. *)
Definition digits (n : N) : string := NilZero.string_of_uint (N.to_uint n).

Fixpoint zeros (k : nat) : string :=
  match k with O => "" | S k' => String "0"%char (zeros k') end.

(** [Number.prototype.toFixed(f)]: the integer [n] nearest to
    [x * 10^f] (the larger one on a tie), written with [f] digits after
    the point; a negative receiver is formatted from its absolute value
    behind a minus sign.  (Receivers of magnitude 1e21 and above, which
    JavaScript prints in exponent form, do not occur for the values
    formatted here.) *)
Definition toFixed (x : Q) (f : nat) : string :=
  let neg := lt x 0 in
  let ax := if neg then Qopp x else x in
  let n := Z.to_N (Qfloor (ax * inject_Z (10 ^ Z.of_nat f)%Z + (1 # 2))) in
  let m := digits n in
  let m := if Nat.leb (String.length m) f
           then zeros (f + 1 - String.length m)%nat ++ m else m in
  let k := String.length m in
  let body :=
    match f with
    | O => m
    | _ => substring 0 (k - f)%nat m ++ "." ++ substring (k - f)%nat f m
    end in
  (if neg then "-" else "") ++ body.

(** [xs.sort(cmp)]: the sort is stable; [cmp a b <= 0] keeps [a] before
    [b].  Insertion from the right end gives exactly that order. *)
Section Sort.
Context {A : Type} (cmp : A -> A -> Z).

Fixpoint insert_sorted (x : A) (l : list A) : list A :=
  match l with
  | [] => [x]
  | y :: l' => if (cmp x y <=? 0)%Z then x :: y :: l'
               else y :: insert_sorted x l'
  end.

Fixpoint sort (l : list A) : list A :=
  match l with
  | [] => []
  | x :: l' => insert_sorted x (sort l')
  end.
End Sort.

(** Is the string made of ASCII characters only?  For such a string
    [String.length] and [substring] are [length] and [substring] of the
    program, which count UTF-16 code units. *)
Fixpoint ascii_only (s : string) : bool :=
  match s with
  | EmptyString => true
  | String c r => (Nat.ltb (nat_of_ascii c) 128 && ascii_only r)%bool
  end.

(** The names that an object literal inherits from [Object.prototype]:
    reading one of them from [{}] gives a function or an object, not
    [undefined]. *)
Definition Object_prototype : list string :=
  ["constructor"; "__defineGetter__"; "__defineSetter__"; "hasOwnProperty";
   "__lookupGetter__"; "__lookupSetter__"; "isPrototypeOf";
   "propertyIsEnumerable"; "toString"; "valueOf"; "__proto__";
   "toLocaleString"].

Definition inherited (key : string) : bool :=
  array_includes Object_prototype key.

End JS.

(** ** The [Date] operations used by the scheduler

    Time values are milliseconds since the epoch.  The calendar functions
    follow the definitions of the language standard ([Day], [DayFromYear],
    [YearFromTime], [MonthFromTime], [DateFromTime], [MakeDay],
    [MakeDate]); local time is UTC shifted by the offset of the time zone
    of the process, which may change from one instant to another, and time
    values are not clipped to the range a [Date] can hold. *)

Module Date.
Local Open Scope Z_scope.

Definition msPerDay : Z := 86400000.

Definition Day (t : Z) : Z := t / msPerDay.
Definition TimeWithinDay (t : Z) : Z := t mod msPerDay.

Definition DaysInYear (y : Z) : Z :=
  if negb (y mod 4 =? 0) then 365
  else if negb (y mod 100 =? 0) then 366
  else if negb (y mod 400 =? 0) then 365
  else 366.

Definition DayFromYear (y : Z) : Z :=
  365 * (y - 1970) + (y - 1969) / 4 - (y - 1901) / 100 + (y - 1601) / 400.

(** The largest year whose first day is not after day [d]: an estimate
    from the mean year length, corrected by one where needed. *)
Definition YearFromDay (d : Z) : Z :=
  let g := 1970 + (400 * d) / 146097 in
  if DayFromYear (g + 1) <=? d then g + 1
  else if d <? DayFromYear g then g - 1
  else g.

Definition YearFromTime (t : Z) : Z := YearFromDay (Day t).

Definition leap (y : Z) : Z := if DaysInYear y =? 366 then 1 else 0.
Definition InLeapYear (t : Z) : Z := leap (YearFromTime t).

Definition DayWithinYear (t : Z) : Z := Day t - DayFromYear (YearFromTime t).

(** Day number, within a year, of the first day of month [m] (0-11). *)
Definition monthStart (m l : Z) : Z :=
  match m with
  | 0 => 0
  | 1 => 31
  | 2 => 59 + l
  | 3 => 90 + l
  | 4 => 120 + l
  | 5 => 151 + l
  | 6 => 181 + l
  | 7 => 212 + l
  | 8 => 243 + l
  | 9 => 273 + l
  | 10 => 304 + l
  | _ => 334 + l
  end.

Definition monthOfDay (d l : Z) : Z :=
  if d <? 31 then 0
  else if d <? 59 + l then 1
  else if d <? 90 + l then 2
  else if d <? 120 + l then 3
  else if d <? 151 + l then 4
  else if d <? 181 + l then 5
  else if d <? 212 + l then 6
  else if d <? 243 + l then 7
  else if d <? 273 + l then 8
  else if d <? 304 + l then 9
  else if d <? 334 + l then 10
  else 11.

Definition MonthFromTime (t : Z) : Z :=
  monthOfDay (DayWithinYear t) (InLeapYear t).

Definition DateFromTime (t : Z) : Z :=
  DayWithinYear t - monthStart (MonthFromTime t) (InLeapYear t) + 1.

Definition MakeDay (year month date : Z) : Z :=
  let ym := year + month / 12 in
  let mn := month mod 12 in
  DayFromYear ym + monthStart mn (leap ym) + date - 1.

Definition MakeDate (day time : Z) : Z := day * msPerDay + time.

(** The time zone of the process, as the host provides it: the offset of
    local time from UTC, in milliseconds, that is in force at a UTC time
    value ([offsetAt], the standard's [LocalTZA(t, true)]) and the offset
    by which a local time value is read back ([offsetOfLocal], the
    standard's [LocalTZA(t, false)]).  The two differ around a change of
    offset, such as the start or the end of daylight saving time. *)
Record Zone := {
  offsetAt : Z -> Z;
  offsetOfLocal : Z -> Z
}.

(** The zone whose offset is [tza] at all times. *)
Definition fixed (tza : Z) : Zone :=
  {| offsetAt := fun _ => tza; offsetOfLocal := fun _ => tza |}.

Section LocalTime.
Variable zone : Zone.

Definition LocalTime (t : Z) : Z := t + offsetAt zone t.
Definition UTC (t : Z) : Z := t - offsetOfLocal zone t.

Definition getDate (t : Z) : Z := DateFromTime (LocalTime t).
Definition getMonth (t : Z) : Z := MonthFromTime (LocalTime t).
Definition getFullYear (t : Z) : Z := YearFromTime (LocalTime t).

Definition setDate (t dt : Z) : Z :=
  let t := LocalTime t in
  UTC (MakeDate (MakeDay (YearFromTime t) (MonthFromTime t) dt)
                (TimeWithinDay t)).

Definition setMonth (t m : Z) : Z :=
  let t := LocalTime t in
  UTC (MakeDate (MakeDay (YearFromTime t) m (DateFromTime t))
                (TimeWithinDay t)).

Definition setFullYear (t y : Z) : Z :=
  let t := LocalTime t in
  UTC (MakeDate (MakeDay y (MonthFromTime t) (DateFromTime t))
                (TimeWithinDay t)).
End LocalTime.

End Date.

(** A number of milliseconds standing where a zone is expected is the
    zone fixed at that offset. *)
Coercion Date.fixed : Z >-> Date.Zone.

(** ** Shared record types ([types/index.ts]) *)

Module Provider.
Inductive t := stripe | paypal | blocked.
(** The string literal behind each member of the union type. *)
Definition to_string (p : t) : string :=
  match p with
  | stripe => "stripe"
  | paypal => "paypal"
  | blocked => "blocked"
  end.
End Provider.

Module Status.
Inductive t := success | failed | blocked.
Definition to_string (s : t) : string :=
  match s with
  | success => "success"
  | failed => "failed"
  | blocked => "blocked"
  end.
End Status.

Module ChargeRequest.
Record t := {
  amount : Q;
  currency : string;
  source : string;
  email : string
}.
End ChargeRequest.

Module ChargeResponse.
Record t := {
  transactionId : string;
  provider : Provider.t;
  status : Status.t;
  riskScore : Q;
  explanation : string
}.
End ChargeResponse.

Module Metadata.
Record t := {
  riskFactors : list string;
  userAgent : string;
  ipAddress : string
}.
End Metadata.

Module Transaction.
Record t := {
  id : string;
  amount : Q;
  currency : string;
  source : string;
  email : string;
  provider : Provider.t;
  status : Status.t;
  riskScore : Q;
  explanation : string;
  timestamp : Z;
  metadata : Metadata.t
}.
End Transaction.

Module FraudRules.
Record t := {
  suspiciousDomains : list string;
  highRiskAmountThreshold : Q;
  blockingThreshold : Q;
  stripeThreshold : Q
}.
End FraudRules.

(** One slot of the [LLMCache] object. *)
Module CacheEntry.
Record t := {
  response : string;
  timestamp : Z;
  ttl : Z
}.
End CacheEntry.

(** ** FraudDetectionService *)

Module FraudDetectionService.
Import FraudRules.

(** Modelled from the spec: the contents of [config/fraudRules.json], which
    is not among the sources; the values are the defaults the project
    documentation lists for that file. *)
Definition fraudRules : FraudRules.t := {|
  suspiciousDomains := [".ru"; ".tk"; "test.com"];
  highRiskAmountThreshold := 50000;
  blockingThreshold := 0.5;
  stripeThreshold := 0.3
|}.

Section WithRules.
(** [this.rules] *)
Variable rules : FraudRules.t.

Definition calculateAmountRisk (amount : Q) : Q :=
  if JS.gt amount (highRiskAmountThreshold rules) then 0.4
  else if JS.gt amount 10000 then 0.2
  else if JS.gt amount 1000 then 0.1
  else 0.05.

Definition hasSuspiciousDomain (email : string) : bool :=
  existsb (fun domain =>
             JS.includes (JS.toLowerCase email) (JS.toLowerCase domain))
          (suspiciousDomains rules).

Definition calculateDomainRisk (email : string) : Q :=
  if hasSuspiciousDomain email then 0.3 else 0.

Definition calculateCurrencyRisk (currency : string) : Q :=
  let riskyCurrencies := ["RUB"; "CNY"; "KRW"] in
  if JS.array_includes riskyCurrencies (JS.toUpperCase currency) then 0.15
  else if negb (String.eqb (JS.toUpperCase currency) "USD") then 0.05
  else 0.

Definition calculateSourceRisk (source : string) : Q :=
  if (JS.includes source "test" || JS.includes source "tok_test")%bool
  then 0.1 else 0.

(** [random] is the value returned by [Math.random()]. *)
Definition calculateRiskScore (random : Q) (request : ChargeRequest.t) : Q :=
  let score := 0 in
  let score := score + random * 0.1 in
  let amountRisk := calculateAmountRisk (ChargeRequest.amount request) in
  let score := score + amountRisk in
  let domainRisk := calculateDomainRisk (ChargeRequest.email request) in
  let score := score + domainRisk in
  let currencyRisk := calculateCurrencyRisk (ChargeRequest.currency request) in
  let score := score + currencyRisk in
  let sourceRisk := calculateSourceRisk (ChargeRequest.source request) in
  let score := score + sourceRisk in
  JS.Math_min (JS.Math_max score 0) 1.

Definition determineProvider (riskScore : Q) : Provider.t :=
  if JS.ge riskScore (blockingThreshold rules) then Provider.blocked
  else if JS.le riskScore (stripeThreshold rules) then Provider.stripe
  else Provider.paypal.

Definition getRiskFactors (request : ChargeRequest.t) : list string :=
  let factors : list string := [] in
  let factors :=
    if JS.gt (ChargeRequest.amount request) (highRiskAmountThreshold rules)
    then JS.push factors "large amount" else factors in
  let factors :=
    if hasSuspiciousDomain (ChargeRequest.email request)
    then JS.push factors "suspicious email domain" else factors in
  let factors :=
    if negb (String.eqb (ChargeRequest.currency request) "USD")
    then JS.push factors "non-USD currency" else factors in
  let factors :=
    if JS.includes (ChargeRequest.source request) "test"
    then JS.push factors "test payment source" else factors in
  factors.

End WithRules.

End FraudDetectionService.

(** ** LLMService *)

(** What the awaited [openai.chat.completions.create] call does: it throws
    (network error, timeout, malformed reply), or it resolves and
    [choices[0]?.message?.content] is a string or is missing. *)
Inductive Completion :=
| Throws
| Responds (content : option string).

Module LLMService.
Import CacheEntry.

Record t := {
  openai : bool;                      (* is a client object configured? *)
  cache : gmap string CacheEntry.t;
  cacheTTL : Z;
  enableLLM : bool
}.

Definition with_cache (svc : t) (c : gmap string CacheEntry.t) : t :=
  {| openai := openai svc; cache := c;
     cacheTTL := cacheTTL svc; enableLLM := enableLLM svc |}.

Definition createPaymentPrompt (request : ChargeRequest.t) (riskScore : Q)
    (provider : string) (riskFactors : list string) : string :=
  let amount := JS.toFixed (ChargeRequest.amount request / 100) 2 in
  let factorsText :=
    match riskFactors with
    | [] => "standard transaction profile"
    | _ => JS.join ", " riskFactors
    end in
  "Explain why a payment of $" ++ amount ++ " "
    ++ ChargeRequest.currency request ++ " was "
    ++ (if String.eqb provider "blocked" then "blocked"
        else "routed to " ++ JS.toUpperCase provider)
    ++ ". Risk score: " ++ JS.toFixed riskScore 2
    ++ ". Risk factors: " ++ factorsText
    ++ ". Keep explanation under 50 words.".

Definition generateFallbackExplanation (riskScore : Q) (provider : string)
    (riskFactors : list string) : string :=
  let riskLevel :=
    if JS.lt riskScore 0.3 then "low"
    else if JS.lt riskScore 0.5 then "moderate" else "high" in
  let factorsText :=
    match riskFactors with
    | [] => ""
    | _ => " due to " ++ JS.join " and " riskFactors
    end in
  if String.eqb provider "blocked" then
    "Transaction blocked due to " ++ riskLevel ++ " risk score ("
      ++ JS.toFixed riskScore 2 ++ ")" ++ factorsText ++ "."
  else
    "Payment routed to " ++ JS.toUpperCase provider ++ " based on "
      ++ riskLevel ++ " risk score (" ++ JS.toFixed riskScore 2 ++ ")"
      ++ factorsText ++ ".".

(** The test [now - cached.timestamp > cached.ttl]. *)
Definition expired (now : Z) (cached : CacheEntry.t) : bool :=
  (now - timestamp cached >? ttl cached)%Z.

(** [now] is the value of [Date.now()]. *)
Definition getFromCache (svc : t) (now : Z) (key : string)
  : option string * t :=
  match cache svc !! key with
  | None => (None, svc)
  | Some cached =>
      if expired now cached
      then (None, with_cache svc (delete key (cache svc)))
      else (Some (response cached), svc)
  end.

Definition setCache (svc : t) (now : Z) (key response : string) : t :=
  with_cache svc
    (<[key := {| response := response; timestamp := now;
                 ttl := cacheTTL svc |}]> (cache svc)).

Definition clearExpiredCache (svc : t) (now : Z) : t :=
  with_cache svc
    (filter (fun kv : string * CacheEntry.t => expired now kv.2 = false)
            (cache svc)).

Section WithStringify.
(** [JSON.stringify] of the object [{riskScore, provider, riskFactors}]
    from which the cache key is built. *)
Variable stringify : Q -> string -> list string -> string.

Definition createCacheKey (type : string) (riskScore : Q)
    (provider : string) (riskFactors : list string) : string :=
  type ++ "_" ++ stringify riskScore provider riskFactors.

(** [generatePaymentExplanation]: [now] is the clock when the cache is
    read, [llm] answers the request sent to the external generator
    and [now'] is the clock when the answer is stored.  The result is
    the explanation, the service afterwards and the prompts that were
    sent out, in order. *)
Definition generatePaymentExplanation (svc : t) (now : Z)
    (llm : string -> Completion) (now' : Z)
    (request : ChargeRequest.t) (riskScore : Q) (provider : string)
    (riskFactors : list string) : string * t * list string :=
  if (negb (enableLLM svc) || negb (openai svc))%bool then
    (generateFallbackExplanation riskScore provider riskFactors, svc, [])
  else
    let cacheKey := createCacheKey "payment" riskScore provider riskFactors in
    let (cached, svc) := getFromCache svc now cacheKey in
    (* [if (cached) return cached]: null and the empty string are falsy *)
    match (match cached with
           | Some text => if JS.truthy text then Some text else None
           | None => None
           end) with
    | Some text => (text, svc, [])
    | None =>
        let prompt :=
          createPaymentPrompt request riskScore provider riskFactors in
        match llm prompt with
        | Responds content =>
            let trimmed := match content with
                           | Some c => JS.trim c
                           | None => ""
                           end in
            let explanation :=
              if JS.truthy trimmed then trimmed
              else generateFallbackExplanation riskScore provider riskFactors in
            (explanation, setCache svc now' cacheKey explanation, [prompt])
        | Throws =>
            (generateFallbackExplanation riskScore provider riskFactors,
             svc, [prompt])
        end
    end.
End WithStringify.

End LLMService.

(** ** PaymentService *)

(** The object that [getTransactionStats] returns; [providerBreakdown] is
    an object used as a map from provider name to count. *)
Module TransactionStats.
Record t := {
  total : nat;
  successful : nat;
  blocked : nat;
  totalAmount : Q;
  averageRiskScore : Q;
  providerBreakdown : gmap string nat
}.
End TransactionStats.

Module PaymentService.

Record t := {
  transactions : list Transaction.t;
  fraudDetection : FraudRules.t;      (* the rules of the detection service *)
  llmService : LLMService.t
}.

(** Everything one call of [processCharge] takes from outside the
    service. *)
Record Env := {
  random : Q;                         (* [Math.random()] *)
  uuid : string;                      (* [uuidv4()] *)
  cacheReadAt : Z;                    (* [Date.now()] in [getFromCache] *)
  llm : string -> Completion;         (* the external generator *)
  cacheWriteAt : Z;                   (* [Date.now()] in [setCache] *)
  recordedAt : Z                      (* [new Date()] of the record *)
}.

Record Filters := {
  f_provider : option string;
  f_status : option string;
  minAmount : option Q;
  maxAmount : option Q;
  startDate : option Z;
  endDate : option Z
}.

Definition generateTransactionId (uuid : string) : string :=
  "txn_" ++ substring 0 8 uuid.

Definition newest_first (a b : Transaction.t) : Z :=
  (Transaction.timestamp b - Transaction.timestamp a)%Z.

Section WithStringify.
Variable stringify : Q -> string -> list string -> string.

Definition processCharge (svc : t) (env : Env) (request : ChargeRequest.t)
  : ChargeResponse.t * t :=
  let rules := fraudDetection svc in
  let riskScore :=
    FraudDetectionService.calculateRiskScore rules (random env) request in
  let provider := FraudDetectionService.determineProvider rules riskScore in
  let riskFactors := FraudDetectionService.getRiskFactors rules request in
  let transactionId := generateTransactionId (uuid env) in
  let status :=
    match provider with
    | Provider.blocked => Status.blocked
    | _ => Status.success
    end in
  let '(explanation, llm', _) :=
    LLMService.generatePaymentExplanation stringify (llmService svc)
      (cacheReadAt env) (llm env) (cacheWriteAt env)
      request riskScore (Provider.to_string provider) riskFactors in
  let transaction := {|
    Transaction.id := transactionId;
    Transaction.amount := ChargeRequest.amount request;
    Transaction.currency := ChargeRequest.currency request;
    Transaction.source := ChargeRequest.source request;
    Transaction.email := ChargeRequest.email request;
    Transaction.provider := provider;
    Transaction.status := status;
    Transaction.riskScore := riskScore;
    Transaction.explanation := explanation;
    Transaction.timestamp := recordedAt env;
    Transaction.metadata := {|
      Metadata.riskFactors := riskFactors;
      Metadata.userAgent := "PaymentGatewayProxy/1.0";
      Metadata.ipAddress := "127.0.0.1"
    |}
  |} in
  ({| ChargeResponse.transactionId := transactionId;
      ChargeResponse.provider := provider;
      ChargeResponse.status := status;
      ChargeResponse.riskScore := JS.Math_round (riskScore * 100) / 100;
      ChargeResponse.explanation := explanation |},
   {| transactions := JS.push (transactions svc) transaction;
      fraudDetection := fraudDetection svc;
      llmService := llm' |}).
End WithStringify.

Definition with_transactions (svc : t) (txs : list Transaction.t) : t :=
  {| transactions := txs;
     fraudDetection := fraudDetection svc;
     llmService := llmService svc |}.

Definition getAllTransactions (svc : t) : list Transaction.t :=
  JS.sort newest_first (transactions svc).

Definition getTransactionById (svc : t) (id : string) : option Transaction.t :=
  List.find (fun tx => String.eqb (Transaction.id tx) id) (transactions svc).

(** [getFilteredTransactions]: [filtered] starts as the ledger array
    itself and is replaced by a fresh array by each filter that applies;
    the closing [sort] works in place, so with no filter applied it
    reorders the ledger. *)
Definition getFilteredTransactions (svc : t) (filters : Filters)
  : list Transaction.t * t :=
  let filtered := (transactions svc, false) in
  let filtered :=
    match f_provider filters with
    | Some p =>
        if JS.truthy p
        then (List.filter (fun tx => String.eqb
                (Provider.to_string (Transaction.provider tx)) p)
                (fst filtered), true)
        else filtered
    | None => filtered
    end in
  let filtered :=
    match f_status filters with
    | Some s =>
        if JS.truthy s
        then (List.filter (fun tx => String.eqb
                (Status.to_string (Transaction.status tx)) s)
                (fst filtered), true)
        else filtered
    | None => filtered
    end in
  let filtered :=
    match minAmount filters with
    | Some m => (List.filter (fun tx => JS.ge (Transaction.amount tx) m)
                   (fst filtered), true)
    | None => filtered
    end in
  let filtered :=
    match maxAmount filters with
    | Some m => (List.filter (fun tx => JS.le (Transaction.amount tx) m)
                   (fst filtered), true)
    | None => filtered
    end in
  let filtered :=
    match startDate filters with
    | Some d => (List.filter (fun tx => (d <=? Transaction.timestamp tx)%Z)
                   (fst filtered), true)
    | None => filtered
    end in
  let filtered :=
    match endDate filters with
    | Some d => (List.filter (fun tx => (Transaction.timestamp tx <=? d)%Z)
                   (fst filtered), true)
    | None => filtered
    end in
  let sorted := JS.sort newest_first (fst filtered) in
  (sorted, if snd filtered then svc else with_transactions svc sorted).

Definition clearTransactions (svc : t) : t := with_transactions svc [].

(** The service as its constructor leaves it. *)
Definition create (llm0 : LLMService.t) : t :=
  {| transactions := [];
     fraudDetection := FraudDetectionService.fraudRules;
     llmService := llm0 |}.

(** [counts[k] = (counts[k] || 0) + 1] on an object used as a map. *)
Definition increment (counts : gmap string nat) (k : string)
  : gmap string nat :=
  <[k := (default 0 (counts !! k) + 1)%nat]> counts.

Definition getTransactionStats (svc : t) : TransactionStats.t :=
  let total := length (transactions svc) in
  let successful :=
    length (List.filter
              (fun t => String.eqb (Status.to_string (Transaction.status t))
                                   "success")
              (transactions svc)) in
  let blocked :=
    length (List.filter
              (fun t => String.eqb (Status.to_string (Transaction.status t))
                                   "blocked")
              (transactions svc)) in
  let totalAmount :=
    fold_left (fun sum t => sum + Transaction.amount t) (transactions svc) 0 in
  let averageRiskScore :=
    if (0 <? total)%nat
    then fold_left (fun sum t => sum + Transaction.riskScore t)
                   (transactions svc) 0
         / inject_Z (Z.of_nat total)
    else 0 in
  let providerBreakdown :=
    fold_left (fun counts t =>
                 increment counts (Provider.to_string (Transaction.provider t)))
              (transactions svc) ∅ in
  {| TransactionStats.total := total;
     TransactionStats.successful := successful;
     TransactionStats.blocked := blocked;
     TransactionStats.totalAmount := totalAmount;
     TransactionStats.averageRiskScore :=
       JS.Math_round (averageRiskScore * 100) / 100;
     TransactionStats.providerBreakdown := providerBreakdown |}.

End PaymentService.

(** ** SubscriptionService *)

Module Interval.
Inductive t := daily | weekly | monthly | yearly.
(** The string literal behind each member of the union type. *)
Definition to_string (i : t) : string :=
  match i with
  | daily => "daily"
  | weekly => "weekly"
  | monthly => "monthly"
  | yearly => "yearly"
  end.
End Interval.

Module SubscriptionRequest.
Record t := {
  donorId : string;
  amount : Q;
  currency : string;
  interval : Interval.t;
  campaignDescription : string
}.
End SubscriptionRequest.

Module CampaignAnalysis.
Record t := {
  tags : list string;
  summary : string
}.
End CampaignAnalysis.

Module Subscription.
Record t := {
  id : string;
  donorId : string;
  amount : Q;
  currency : string;
  interval : Interval.t;
  campaignDescription : string;
  tags : list string;
  summary : string;
  createdAt : Z;
  lastChargedAt : option Z;
  nextChargeAt : Z;
  isActive : bool
}.
End Subscription.

Module ChargeStatus.
Inductive t := success | failed.
End ChargeStatus.

Module SubscriptionTransaction.
Record t := {
  id : string;
  subscriptionId : string;
  donorId : string;
  amount : Q;
  currency : string;
  status : ChargeStatus.t;
  timestamp : Z
  (* [type] is the constant 'recurring' *)
}.
End SubscriptionTransaction.

(** The object that [getSubscriptionStats] returns. *)
Module SubscriptionStats.
Record t := {
  totalActive : nat;
  totalCancelled : nat;
  monthlyRecurringRevenue : Q;
  campaignsByTag : gmap string nat;
  intervalBreakdown : gmap string nat
}.
End SubscriptionStats.

(** The campaign half of [LLMService]: [analyzeCampaign] and what it
    calls. *)
Module LLMServiceCampaign.
Import LLMService.

Definition dquote : string := String "034"%char EmptyString.

Definition createCampaignPrompt (campaignDescription : string) : string :=
  "Analyze this charitable campaign: " ++ dquote ++ campaignDescription
    ++ dquote
    ++ ". Extract 3-5 relevant tags and create a one-sentence summary.".

Definition generateFallbackCampaignAnalysis (campaignDescription : string)
  : CampaignAnalysis.t :=
  let tags : list string := [] in
  let description := JS.toLowerCase campaignDescription in
  let tags :=
    if (JS.includes description "disaster"
        || JS.includes description "emergency"
        || JS.includes description "earthquake")%bool
    then JS.push tags "disaster relief" else tags in
  let tags :=
    if (JS.includes description "water"
        || JS.includes description "clean water")%bool
    then JS.push tags "clean water" else tags in
  let tags :=
    if (JS.includes description "food"
        || JS.includes description "hunger")%bool
    then JS.push tags "food aid" else tags in
  let tags :=
    if (JS.includes description "children"
        || JS.includes description "kids")%bool
    then JS.push tags "children" else tags in
  let tags :=
    if (JS.includes description "education"
        || JS.includes description "school")%bool
    then JS.push tags "education" else tags in
  let tags :=
    if (JS.includes description "health"
        || JS.includes description "medical")%bool
    then JS.push tags "healthcare" else tags in
  let locations :=
    ["nepal"; "haiti"; "syria"; "ukraine"; "somalia"; "yemen"] in
  let tags :=
    fold_left (fun tags location =>
                 if JS.includes description location
                 then JS.push tags location else tags)
              locations tags in
  let tags :=
    match tags with
    | [] => JS.push tags "charitable cause"
    | _ => tags
    end in
  let summary :=
    if (100 <? String.length campaignDescription)%nat
    then substring 0 97 campaignDescription ++ "..."
    else campaignDescription in
  {| CampaignAnalysis.tags := tags; CampaignAnalysis.summary := summary |}.

Section WithJSON.
(** The values of JavaScript that [JSON.parse] can return.  The service
    casts the parsed reply to [CampaignAnalysis] without looking at it, so
    what it returns is such a value; [of_analysis] is the object
    [{tags, summary}] as a value. *)
Variable Json : Type.
Variable of_analysis : CampaignAnalysis.t -> Json.
(** [JSON.parse]: [None] when it throws a [SyntaxError]. *)
Variable JSON_parse : string -> option Json.
Variable JSON_stringify : Json -> string.
(** [JSON.stringify] of the object [{description}] behind the cache key. *)
Variable stringify : string -> string.

Definition createCacheKey (type : string) (campaignDescription : string)
  : string :=
  type ++ "_" ++ stringify campaignDescription.

(** [analyzeCampaign]: the arguments are as for
    [generatePaymentExplanation].  The first component of the result is
    [None] when the returned promise is rejected. *)
Definition analyzeCampaign (svc : t) (now : Z)
    (llm : string -> Completion) (now' : Z) (campaignDescription : string)
  : option Json * t * list string :=
  let fallback :=
    Some (of_analysis (generateFallbackCampaignAnalysis campaignDescription)) in
  if (negb (enableLLM svc) || negb (openai svc))%bool then
    (fallback, svc, [])
  else
    let cacheKey := createCacheKey "campaign" campaignDescription in
    let (cached, svc) := getFromCache svc now cacheKey in
    match (match cached with
           | Some text => if JS.truthy text then Some text else None
           | None => None
           end) with
    | Some text =>
        (* [return JSON.parse(cached)] stands before the [try] *)
        (JSON_parse text, svc, [])
    | None =>
        let prompt := createCampaignPrompt campaignDescription in
        match llm prompt with
        | Responds content =>
            let content := match content with
                           | Some c => JS.trim c
                           | None => ""
                           end in
            if negb (JS.truthy content) then (fallback, svc, [prompt])
            else
              match JSON_parse content with
              | Some analysis =>
                  (Some analysis,
                   setCache svc now' cacheKey (JSON_stringify analysis),
                   [prompt])
              | None => (fallback, svc, [prompt])
              end
        | Throws => (fallback, svc, [prompt])
        end
    end.
End WithJSON.

End LLMServiceCampaign.

Module SubscriptionService.
Import Subscription.

(** The [Map] from donor to subscription object, in insertion order, and
    the array of recorded charge attempts.  An object is reached through its
    key, so a write to the object is a write to the entry of that key.  (The
    explanation service and the timer handle of the class are left out: the
    analysis of a campaign reaches [createSubscription] as an input, and a
    timer tick is a call of [processRecurringCharges].) *)
Record t := {
  subscriptions : list (string * Subscription.t);
  transactions : list SubscriptionTransaction.t
}.

(** [Map.prototype.get] and [Map.prototype.set]. *)
Fixpoint map_get (k : string) (m : list (string * Subscription.t))
  : option Subscription.t :=
  match m with
  | [] => None
  | (k', v) :: m' => if String.eqb k' k then Some v else map_get k m'
  end.

Fixpoint map_set (k : string) (v : Subscription.t)
    (m : list (string * Subscription.t)) : list (string * Subscription.t) :=
  match m with
  | [] => [(k, v)]
  | (k', v') :: m' =>
      if String.eqb k' k then (k, v) :: m' else (k', v') :: map_set k v m'
  end.

Definition with_subscriptions (svc : t) (m : list (string * Subscription.t))
  : t :=
  {| subscriptions := m; transactions := transactions svc |}.

Definition generateSubscriptionId (uuid : string) : string :=
  "sub_" ++ substring 0 8 uuid.

Definition generateTransactionId (uuid : string) : string :=
  "txn_" ++ substring 0 8 uuid.

(** Everything one call of [createSubscription] takes from outside. *)
Record CreateEnv := {
  analysis : CampaignAnalysis.t;      (* awaited [analyzeCampaign] result *)
  c_uuid : string;                    (* [uuidv4()] *)
  createdNow : Z;                     (* [new Date()] for [createdAt] *)
  scheduleNow : Z                     (* [new Date()], the default base date *)
}.

(** Everything one call of [chargeSubscription] takes from outside. *)
Record ChargeEnv := {
  random : Q;                         (* [Math.random()] *)
  uuid : string;                      (* [uuidv4()] *)
  transactionNow : Z;                 (* [new Date()] for the record *)
  chargedNow : Z;                     (* [new Date()] for [lastChargedAt] *)
  advanceNow : Z                      (* [new Date()] passed as base date *)
}.

Definition set_isActive (sub : Subscription.t) (b : bool) : Subscription.t :=
  {| id := id sub; donorId := donorId sub; amount := amount sub;
     currency := currency sub; interval := interval sub;
     campaignDescription := campaignDescription sub; tags := tags sub;
     summary := summary sub; createdAt := createdAt sub;
     lastChargedAt := lastChargedAt sub; nextChargeAt := nextChargeAt sub;
     isActive := b |}.

Definition set_charged (sub : Subscription.t) (last next : Z)
  : Subscription.t :=
  {| id := id sub; donorId := donorId sub; amount := amount sub;
     currency := currency sub; interval := interval sub;
     campaignDescription := campaignDescription sub; tags := tags sub;
     summary := summary sub; createdAt := createdAt sub;
     lastChargedAt := Some last; nextChargeAt := next;
     isActive := isActive sub |}.

Definition newest_first (a b : string * Subscription.t) : Z :=
  (createdAt (snd b) - createdAt (snd a))%Z.

Section WithTimeZone.
(** The time zone in which the process runs. *)
Variable zone : Date.Zone.

(** The [default] branch of the [switch] is not reachable for a value of
    the interval type. *)
Definition calculateNextChargeDate (interval : Interval.t) (baseDate : Z)
  : Z :=
  let date := baseDate in
  match interval with
  | Interval.daily => Date.setDate zone date (Date.getDate zone date + 1)
  | Interval.weekly => Date.setDate zone date (Date.getDate zone date + 7)
  | Interval.monthly =>
      Date.setMonth zone date (Date.getMonth zone date + 1)
  | Interval.yearly =>
      Date.setFullYear zone date (Date.getFullYear zone date + 1)
  end.

Definition createSubscription (svc : t) (env : CreateEnv)
    (request : SubscriptionRequest.t) : Subscription.t * t :=
  let subscription := {|
    id := generateSubscriptionId (c_uuid env);
    donorId := SubscriptionRequest.donorId request;
    amount := SubscriptionRequest.amount request;
    currency := SubscriptionRequest.currency request;
    interval := SubscriptionRequest.interval request;
    campaignDescription := SubscriptionRequest.campaignDescription request;
    tags := CampaignAnalysis.tags (analysis env);
    summary := CampaignAnalysis.summary (analysis env);
    createdAt := createdNow env;
    lastChargedAt := None;
    nextChargeAt :=
      calculateNextChargeDate (SubscriptionRequest.interval request)
                              (scheduleNow env);
    isActive := true
  |} in
  (subscription,
   with_subscriptions svc
     (map_set (SubscriptionRequest.donorId request) subscription
              (subscriptions svc))).

Definition cancelSubscription (svc : t) (donorId : string) : bool * t :=
  match map_get donorId (subscriptions svc) with
  | None => (false, svc)
  | Some subscription =>
      (true,
       with_subscriptions svc
         (map_set donorId (set_isActive subscription false)
                  (subscriptions svc)))
  end.

(** The entries behind [getActiveSubscriptions], keys kept. *)
Definition activeEntries (svc : t) : list (string * Subscription.t) :=
  JS.sort newest_first
    (List.filter (fun kv => isActive (snd kv)) (subscriptions svc)).

Definition getActiveSubscriptions (svc : t) : list Subscription.t :=
  List.map snd (activeEntries svc).

Definition getSubscriptionByDonorId (svc : t) (donorId : string)
  : option Subscription.t :=
  map_get donorId (subscriptions svc).

(** [chargeSubscription] on the object stored under [key]. *)
Definition chargeSubscription (svc : t) (env : ChargeEnv) (key : string)
    (subscription : Subscription.t) : t :=
  let success := JS.gt (random env) 0.05 in
  let transaction := {|
    SubscriptionTransaction.id := generateTransactionId (uuid env);
    SubscriptionTransaction.subscriptionId := id subscription;
    SubscriptionTransaction.donorId := donorId subscription;
    SubscriptionTransaction.amount := amount subscription;
    SubscriptionTransaction.currency := currency subscription;
    SubscriptionTransaction.status :=
      if success then ChargeStatus.success else ChargeStatus.failed;
    SubscriptionTransaction.timestamp := transactionNow env
  |} in
  let txs := JS.push (transactions svc) transaction in
  if success then
    {| subscriptions :=
         map_set key
           (set_charged subscription (chargedNow env)
              (calculateNextChargeDate (interval subscription)
                                       (advanceNow env)))
           (subscriptions svc);
       transactions := txs |}
  else
    {| subscriptions := subscriptions svc; transactions := txs |}.

(** The loop of [processRecurringCharges] over the snapshot taken at its
    start: each object is read when its turn comes; [k] counts the
    charge attempts made so far and selects the attempt's [ChargeEnv]. *)
Fixpoint chargeDue (now : Z) (envs : nat -> ChargeEnv)
    (snapshot : list string) (svc : t) (k : nat) : t * nat :=
  match snapshot with
  | [] => (svc, k)
  | key :: rest =>
      match map_get key (subscriptions svc) with
      | Some subscription =>
          if (now >=? nextChargeAt subscription)%Z
          then chargeDue now envs rest
                 (chargeSubscription svc (envs k) key subscription) (S k)
          else chargeDue now envs rest svc k
      | None => chargeDue now envs rest svc k
      end
  end.

(** [now] is the [new Date()] taken when the sweep starts. *)
Definition processRecurringCharges (svc : t) (now : Z)
    (envs : nat -> ChargeEnv) : t :=
  let activeSubscriptions := List.map fst (activeEntries svc) in
  fst (chargeDue now envs activeSubscriptions svc 0).

Definition triggerChargeProcessing (svc : t) (now : Z)
    (envs : nat -> ChargeEnv) : t :=
  processRecurringCharges svc now envs.

End WithTimeZone.

Definition clearAll (svc : t) : t :=
  {| subscriptions := []; transactions := [] |}.

(** The service as its constructor leaves it. *)
Definition create : t := {| subscriptions := []; transactions := [] |}.

Definition latest_first (a b : SubscriptionTransaction.t) : Z :=
  (SubscriptionTransaction.timestamp b - SubscriptionTransaction.timestamp a)%Z.

Definition getTransactions (svc : t) : list SubscriptionTransaction.t :=
  JS.sort latest_first (transactions svc).

(** The array is the fresh one made by [filter], so the sort leaves the
    ledger alone. *)
Definition getTransactionsByDonor (svc : t) (donorId : string)
  : list SubscriptionTransaction.t :=
  JS.sort latest_first
    (List.filter
       (fun t => String.eqb (SubscriptionTransaction.donorId t) donorId)
       (transactions svc)).

(** As in [calculateNextChargeDate], the [default] branch is not
    reachable. *)
Definition convertToMonthlyAmount (amount : Q) (interval : Interval.t) : Q :=
  match interval with
  | Interval.daily => amount * 30
  | Interval.weekly => amount * 4.33
  | Interval.monthly => amount
  | Interval.yearly => amount / 12
  end.

(** [counts[k] = (counts[k] || 0) + 1] on a table of counts, for a key
    [k] that the table does not inherit ([JS.inherited k = false]): a
    missing key reads [undefined] and a stored count is never 0. *)
Definition increment (counts : gmap string nat) (k : string)
  : gmap string nat :=
  <[k := (default 0 (counts !! k) + 1)%nat]> counts.

Definition getSubscriptionStats (svc : t) : SubscriptionStats.t :=
  let allSubscriptions := List.map snd (subscriptions svc) in
  let active := List.filter (fun s => isActive s) allSubscriptions in
  let cancelled :=
    List.filter (fun s => negb (isActive s)) allSubscriptions in
  let monthlyRecurringRevenue :=
    fold_left (fun total sub =>
                 let monthlyAmount :=
                   convertToMonthlyAmount (amount sub) (interval sub) in
                 total + monthlyAmount)
              active 0 in
  let campaignsByTag :=
    fold_left (fun counts sub => fold_left increment (tags sub) counts)
              active ∅ in
  let intervalBreakdown :=
    fold_left (fun counts sub =>
                 increment counts (Interval.to_string (interval sub)))
              active ∅ in
  {| SubscriptionStats.totalActive := length active;
     SubscriptionStats.totalCancelled := length cancelled;
     SubscriptionStats.monthlyRecurringRevenue := monthlyRecurringRevenue;
     SubscriptionStats.campaignsByTag := campaignsByTag;
     SubscriptionStats.intervalBreakdown := intervalBreakdown |}.

End SubscriptionService.

(** ** Request validation ([validation/schemas.ts])

    The checks on route parameters and on the currency of a request body.
    A regular expression is written out as the test it performs. *)

Module Schemas.

Definition is_digit (c : ascii) : bool :=
  let n := nat_of_ascii c in (Nat.leb 48 n && Nat.leb n 57)%bool.
Definition is_lower (c : ascii) : bool :=
  let n := nat_of_ascii c in (Nat.leb 97 n && Nat.leb n 122)%bool.
Definition is_upper (c : ascii) : bool :=
  let n := nat_of_ascii c in (Nat.leb 65 n && Nat.leb n 90)%bool.

(** The class [[a-zA-Z0-9]]. *)
Definition is_alnum (c : ascii) : bool :=
  (is_lower c || is_upper c || is_digit c)%bool.

(** The class [[a-zA-Z0-9_-]]. *)
Definition is_id_char (c : ascii) : bool :=
  (is_alnum c || Ascii.eqb c "_" || Ascii.eqb c "-")%bool.

Fixpoint all_chars (p : ascii -> bool) (s : string) : bool :=
  match s with
  | EmptyString => true
  | String c r => (p c && all_chars p r)%bool
  end.

(** [donorIdSchema]: [min(1)], [max(50)] and [/^[a-zA-Z0-9_-]+$/]. *)
Definition donorIdSchema (donorId : string) : bool :=
  (Nat.leb 1 (String.length donorId) && Nat.leb (String.length donorId) 50
   && (JS.truthy donorId && all_chars is_id_char donorId))%bool.

(** [transactionIdSchema]: [min(1)] and [/^txn_[a-zA-Z0-9]+$/]. *)
Definition transactionIdSchema (id : string) : bool :=
  (Nat.leb 1 (String.length id)
   && (String.prefix "txn_" id
       && let rest := substring 4 (String.length id - 4) id in
          (JS.truthy rest && all_chars is_alnum rest)))%bool.

Definition SUPPORTED_CURRENCIES : list string :=
  ["USD"; "EUR"; "GBP"; "CAD"; "AUD"; "JPY"; "CHF"; "CNY"; "INR"; "BRL"].

(** [supportedCurrencySchema]: membership of the enumeration. *)
Definition supportedCurrencySchema (currency : string) : bool :=
  JS.array_includes SUPPORTED_CURRENCIES currency.

End Schemas.

(** ** Routing

    The rules of the web framework that the route files rely on.  A
    request path is given split at its slashes and decoded.  The routes of
    a router are tried in the order of their registration; a route takes a
    request whose method is its own and whose path matches its pattern,
    where fixed text matches without regard to case and a parameter stands
    for one non-empty segment.  The handlers of the route run in order;
    one that answers ends the request, one that calls [next()] passes it
    on, and a request passed on by the last handler goes to the routes
    registered later. *)

Module Express.

Inductive Method := GET | POST | DELETE.

Definition Method_eqb (a b : Method) : bool :=
  match a, b with
  | GET, GET | POST, POST | DELETE, DELETE => true
  | _, _ => false
  end.

Inductive Segment :=
| Fixed (text : string)
| Param (name : string).

(** [req.params], as pairs of name and value. *)
Definition Params : Type := list (string * string).

Fixpoint match_path (pattern : list Segment) (path : list string)
  : option Params :=
  match pattern, path with
  | [], [] => Some []
  | Fixed text :: pattern', segment :: path' =>
      if String.eqb (JS.toLowerCase text) (JS.toLowerCase segment)
      then match_path pattern' path' else None
  | Param name :: pattern', segment :: path' =>
      if JS.truthy segment
      then match match_path pattern' path' with
           | Some params => Some ((name, segment) :: params)
           | None => None
           end
      else None
  | _, _ => None
  end.

(** [req.params[name]]; a missing parameter reads as the empty text, which
    is falsy as [undefined] is. *)
Fixpoint param (name : string) (params : Params) : string :=
  match params with
  | [] => ""
  | (n, v) :: params' => if String.eqb n name then v else param name params'
  end.

(** A path under a mount point: the rest of the path when it starts with
    the segments of the mount point. *)
Fixpoint strip_prefix (mount path : list string) : option (list string) :=
  match mount, path with
  | [], _ => Some path
  | m :: mount', segment :: path' =>
      if String.eqb (JS.toLowerCase m) (JS.toLowerCase segment)
      then strip_prefix mount' path' else None
  | _ :: _, [] => None
  end.

Section Router.
(** The state the handlers work on, what they read of a request, and what
    they answer. *)
Context {S I R : Type}.

Inductive Outcome :=
| Answer (response : R) (state : S)
| Next.

Definition Handler : Type := Params -> I -> S -> Outcome.

Record Route := {
  method : Method;
  pattern : list Segment;
  handlers : list Handler
}.

Fixpoint run_handlers (hs : list Handler) (params : Params) (input : I)
    (state : S) : Outcome :=
  match hs with
  | [] => Next
  | h :: hs' =>
      match h params input state with
      | Answer response state' => Answer response state'
      | Next => run_handlers hs' params input state
      end
  end.

Fixpoint dispatch (routes : list Route) (m : Method) (path : list string)
    (input : I) (state : S) : Outcome :=
  match routes with
  | [] => Next
  | route :: routes' =>
      if Method_eqb (method route) m then
        match match_path (pattern route) path with
        | Some params =>
            match run_handlers (handlers route) params input state with
            | Answer response state' => Answer response state'
            | Next => dispatch routes' m path input state
            end
        | None => dispatch routes' m path input state
        end
      else dispatch routes' m path input state
  end.

End Router.

Arguments Outcome : clear implicits.
Arguments Handler : clear implicits.
Arguments Route : clear implicits.

End Express.

(** ** The routes ([routes/payments.ts], [routes/subscriptions.ts],
    [routes/transactions.ts]) and the application ([app.ts]) *)

Module Api.
Import Express.

(** What the handlers read of a request and of the world besides the
    path: the body and the query as validation returns them ([None] when
    the schema rejects them), the environment flag, and what the service
    calls take from outside. *)
Record Inputs := {
  chargeBody : option ChargeRequest.t;
  chargeEnv : PaymentService.Env;
  query : option PaymentService.Filters;
  production : bool;                  (* [NODE_ENV === 'production'] *)
  subscriptionBody : option SubscriptionRequest.t;
  (* [None]: the analysis of the campaign is rejected *)
  createEnv : option SubscriptionService.CreateEnv;
  sweepNow : Z;
  sweepEnvs : nat -> SubscriptionService.ChargeEnv
}.

(** The JSON bodies of the answers, by what they carry. *)
Inductive Body :=
| Error (error : string)
| Message (message : string)
| Charge (result : ChargeResponse.t)
| Transactions (transactions : list Transaction.t) (count : nat)
| OneTransaction (transaction : Transaction.t)
| TransactionStatistics (stats : TransactionStats.t)
| OneSubscription (subscription : Subscription.t)
| Conflict (existingSubscription : Subscription.t)
| Subscriptions (subscriptions : list Subscription.t) (count : nat)
| SubscriptionStatistics (stats : SubscriptionStats.t)
| Attempts (transactions : list SubscriptionTransaction.t) (count : nat)
| DonorAttempts (donorId : string)
    (transactions : list SubscriptionTransaction.t) (count : nat)
| Health
| Documentation.

Record Response := {
  status : nat;
  body : Body
}.

Definition respond (status : nat) (body : Body) : Response :=
  {| status := status; body := body |}.

(** [validateBody], [validateQuery] and [validateParams]: the answer 400
    of the middleware when the schema rejects, [next()] otherwise. *)
Definition validate {S : Type} (accepted : Params -> Inputs -> bool)
  : Handler S Inputs Response :=
  fun params input state =>
    if accepted params input then Next
    else Answer (respond 400 (Error "Validation failed")) state.

Definition is_some {A : Type} (o : option A) : bool :=
  match o with Some _ => true | None => false end.

Section WithStringify.
Variable stringify : Q -> string -> list string -> string.

(** [routes/payments.ts] *)
Definition paymentRoutes : list (Route PaymentService.t Inputs Response) :=
  [ {| method := POST; pattern := [Fixed "charge"];
       handlers :=
         [ validate (fun _ input => is_some (chargeBody input));
           fun _ input svc =>
             match chargeBody input with
             | Some body =>
                 let (result, svc') :=
                   PaymentService.processCharge stringify svc
                     (chargeEnv input) body in
                 Answer (respond 200 (Charge result)) svc'
             | None =>
                 Answer (respond 500 (Error "Failed to process charge")) svc
             end ] |};
    {| method := GET; pattern := [Fixed "transactions"];
       handlers :=
         [ validate (fun _ input => is_some (query input));
           fun _ input svc =>
             match query input with
             | Some filters =>
                 let (transactions, svc') :=
                   PaymentService.getFilteredTransactions svc filters in
                 Answer (respond 200
                           (Transactions transactions (length transactions)))
                        svc'
             | None =>
                 Answer (respond 500 (Error "Failed to fetch transactions"))
                        svc
             end ] |};
    {| method := GET; pattern := [Fixed "transactions"; Param "id"];
       handlers :=
         [ validate (fun params _ =>
                       Schemas.transactionIdSchema (param "id" params));
           fun params _ svc =>
             let id := param "id" params in
             if negb (JS.truthy id) then
               Answer (respond 400 (Error "Transaction ID is required")) svc
             else
               match PaymentService.getTransactionById svc id with
               | None =>
                   Answer (respond 404 (Error "Transaction not found")) svc
               | Some transaction =>
                   Answer (respond 200 (OneTransaction transaction)) svc
               end ] |};
    {| method := GET; pattern := [Fixed "transactions"; Fixed "stats"];
       handlers :=
         [ fun _ _ svc =>
             Answer (respond 200
                       (TransactionStatistics
                          (PaymentService.getTransactionStats svc)))
                    svc ] |};
    {| method := DELETE; pattern := [Fixed "transactions"];
       handlers :=
         [ fun _ input svc =>
             if production input then
               Answer (respond 403
                         (Error "This operation is not allowed in production"))
                      svc
             else
               Answer (respond 200 (Message "All transactions cleared"))
                      (PaymentService.clearTransactions svc) ] |} ].
End WithStringify.

Section WithTimeZone.
Variable zone : Date.Zone.

(** [routes/subscriptions.ts] *)
Definition subscriptionRoutes
  : list (Route SubscriptionService.t Inputs Response) :=
  [ {| method := POST; pattern := [];
       handlers :=
         [ validate (fun _ input => is_some (subscriptionBody input));
           fun _ input svc =>
             match subscriptionBody input with
             | Some body =>
                 let existing :=
                   SubscriptionService.getSubscriptionByDonorId svc
                     (SubscriptionRequest.donorId body) in
                 (* what follows the check for an active subscription *)
                 let create :=
                   match createEnv input with
                   | Some env =>
                       let (subscription, svc') :=
                         SubscriptionService.createSubscription zone svc
                           env body in
                       Answer (respond 201 (OneSubscription subscription))
                              svc'
                   | None =>
                       Answer (respond 500
                                 (Error "Failed to create subscription"))
                              svc
                   end in
                 match existing with
                 | Some subscription =>
                     if Subscription.isActive subscription
                     then Answer (respond 409 (Conflict subscription)) svc
                     else create
                 | None => create
                 end
             | None =>
                 Answer (respond 500 (Error "Failed to create subscription"))
                        svc
             end ] |};
    {| method := GET; pattern := [];
       handlers :=
         [ fun _ _ svc =>
             let subscriptions :=
               SubscriptionService.getActiveSubscriptions svc in
             Answer (respond 200
                       (Subscriptions subscriptions (length subscriptions)))
                    svc ] |};
    {| method := GET; pattern := [Param "donorId"];
       handlers :=
         [ validate (fun params _ =>
                       Schemas.donorIdSchema (param "donorId" params));
           fun params _ svc =>
             let donorId := param "donorId" params in
             if negb (JS.truthy donorId) then
               Answer (respond 400 (Error "Donor ID is required")) svc
             else
               match SubscriptionService.getSubscriptionByDonorId svc donorId
               with
               | None =>
                   Answer (respond 404 (Error "Subscription not found")) svc
               | Some subscription =>
                   Answer (respond 200 (OneSubscription subscription)) svc
               end ] |};
    {| method := DELETE; pattern := [Param "donorId"];
       handlers :=
         [ validate (fun params _ =>
                       Schemas.donorIdSchema (param "donorId" params));
           fun params _ svc =>
             let donorId := param "donorId" params in
             if negb (JS.truthy donorId) then
               Answer (respond 400 (Error "Donor ID is required")) svc
             else
               let (cancelled, svc') :=
                 SubscriptionService.cancelSubscription svc donorId in
               if negb cancelled then
                 Answer (respond 404 (Error "Subscription not found")) svc'
               else
                 Answer (respond 200
                           (Message "Subscription cancelled successfully"))
                        svc' ] |};
    {| method := GET; pattern := [Fixed "stats"];
       handlers :=
         [ fun _ _ svc =>
             Answer (respond 200
                       (SubscriptionStatistics
                          (SubscriptionService.getSubscriptionStats svc)))
                    svc ] |};
    {| method := POST; pattern := [Fixed "process-charges"];
       handlers :=
         [ fun _ input svc =>
             if production input then
               Answer (respond 403
                         (Error "Manual charge processing is not allowed in production"))
                      svc
             else
               Answer (respond 200
                         (Message "Charge processing triggered successfully"))
                      (SubscriptionService.triggerChargeProcessing zone svc
                         (sweepNow input) (sweepEnvs input)) ] |} ].
End WithTimeZone.

(** [routes/transactions.ts] *)
Definition transactionRoutes
  : list (Route SubscriptionService.t Inputs Response) :=
  [ {| method := GET; pattern := [];
       handlers :=
         [ fun _ _ svc =>
             let transactions := SubscriptionService.getTransactions svc in
             Answer (respond 200
                       (Attempts transactions (length transactions)))
                    svc ] |};
    {| method := GET; pattern := [Param "donorId"];
       handlers :=
         [ validate (fun params _ =>
                       Schemas.donorIdSchema (param "donorId" params));
           fun params _ svc =>
             let donorId := param "donorId" params in
             if negb (JS.truthy donorId) then
               Answer (respond 400 (Error "Donor ID is required")) svc
             else
               let transactions :=
                 SubscriptionService.getTransactionsByDonor svc donorId in
               Answer (respond 200
                         (DonorAttempts donorId transactions
                            (length transactions)))
                      svc ] |} ].

End Api.

Module App.
Import Express Api.

(** The three services that the route files construct, each file its
    own. *)
Record t := {
  paymentService : PaymentService.t;            (* [routes/payments.ts] *)
  subscriptionService : SubscriptionService.t;  (* [routes/subscriptions.ts] *)
  transactionsService : SubscriptionService.t   (* [routes/transactions.ts] *)
}.

(** The application when the modules are loaded. *)
Definition create (llm0 : LLMService.t) : t := {|
  paymentService := PaymentService.create llm0;
  subscriptionService := SubscriptionService.create;
  transactionsService := SubscriptionService.create
|}.

Section WithWorld.
Variable stringify : Q -> string -> list string -> string.
Variable zone : Date.Zone.

(** A router mounted with [app.use(mount, router)]. *)
Definition mounted {S : Type} (mount : list string)
    (routes : list (Route S Inputs Response)) (m : Method)
    (path : list string) (input : Inputs) (state : S)
  : Outcome S Response :=
  match strip_prefix mount path with
  | Some rest => dispatch routes m rest input state
  | None => Next
  end.

(** The application, in the order of [app.ts]: the health check, the
    three routers, the documentation at the root and the 404 handler.  (The
    middleware before them reads and logs; it is left out.) *)
Definition handle (app : t) (m : Method) (path : list string)
    (input : Inputs) : Response * t :=
  if (Method_eqb GET m && is_some (match_path [Fixed "health"] path))%bool
  then (respond 200 Health, app)
  else
    match mounted ["api"; "v1"] (paymentRoutes stringify) m path input
            (paymentService app) with
    | Answer response svc =>
        (response,
         {| paymentService := svc;
            subscriptionService := subscriptionService app;
            transactionsService := transactionsService app |})
    | Next =>
        match mounted ["api"; "v1"; "subscriptions"] (subscriptionRoutes zone)
                m path input (subscriptionService app) with
        | Answer response svc =>
            (response,
             {| paymentService := paymentService app;
                subscriptionService := svc;
                transactionsService := transactionsService app |})
        | Next =>
            match mounted ["api"; "v1"; "subscription-transactions"]
                    transactionRoutes m path input
                    (transactionsService app) with
            | Answer response svc =>
                (response,
                 {| paymentService := paymentService app;
                    subscriptionService := subscriptionService app;
                    transactionsService := svc |})
            | Next =>
                if (Method_eqb GET m && is_some (match_path [] path))%bool
                then (respond 200 Documentation, app)
                else (respond 404 (Error "Endpoint not found"), app)
            end
        end
    end.

(** What happens to the application: a request, or a tick of the timer
    that the constructor of a subscription service starts.  An event is
    handled to its end before the next one begins; a request that waits
    for the analysis of a campaign is taken as one event, the outcome of
    the analysis being part of its input. *)
Inductive Event :=
| Request (m : Method) (path : list string) (input : Inputs)
| SubscriptionsJob (now : Z) (envs : nat -> SubscriptionService.ChargeEnv)
| TransactionsJob (now : Z) (envs : nat -> SubscriptionService.ChargeEnv).

Definition step (app : t) (event : Event) : t :=
  match event with
  | Request m path input => snd (handle app m path input)
  | SubscriptionsJob now envs =>
      {| paymentService := paymentService app;
         subscriptionService :=
           SubscriptionService.processRecurringCharges zone
             (subscriptionService app) now envs;
         transactionsService := transactionsService app |}
  | TransactionsJob now envs =>
      {| paymentService := paymentService app;
         subscriptionService := subscriptionService app;
         transactionsService :=
           SubscriptionService.processRecurringCharges zone
             (transactionsService app) now envs |}
  end.

Definition run (app : t) (events : list Event) : t :=
  fold_left step events app.

End WithWorld.
End App.

(** * Vocabulary of the properties *)

(** ** Sample data *)

Module Scenario.

(** The charge of the scenario: 500 minor units in USD. *)
Definition smallCharge : ChargeRequest.t := {|
  ChargeRequest.amount := 500;
  ChargeRequest.currency := "USD";
  ChargeRequest.source := "tok_visa";
  ChargeRequest.email := "user@gmail.com"
|}.

(** A charge request from its four fields. *)
Definition request (amount : Q) (currency source email : string)
  : ChargeRequest.t :=
  {| ChargeRequest.amount := amount; ChargeRequest.currency := currency;
     ChargeRequest.source := source; ChargeRequest.email := email |}.

(** The rules of a detection service constructed with the two thresholds
    overridden, as in the "custom rules" case of the test suite. *)
Definition customRules : FraudRules.t := {|
  FraudRules.suspiciousDomains :=
    FraudRules.suspiciousDomains FraudDetectionService.fraudRules;
  FraudRules.highRiskAmountThreshold :=
    FraudRules.highRiskAmountThreshold FraudDetectionService.fraudRules;
  FraudRules.blockingThreshold := 0.3;
  FraudRules.stripeThreshold := 0.1
|}.

(** An explanation service with the generator switched off. *)
Definition offline : LLMService.t := {|
  LLMService.openai := false;
  LLMService.cache := ∅;
  LLMService.cacheTTL := 300000;
  LLMService.enableLLM := false
|}.

(** An explanation service with the generator in use and nothing cached. *)
Definition online : LLMService.t := {|
  LLMService.openai := true;
  LLMService.cache := ∅;
  LLMService.cacheTTL := 300000;
  LLMService.enableLLM := true
|}.

(** A stand-in for [JSON.stringify] on the data behind a cache key. *)
Definition sampleKey (riskScore : Q) (provider : string)
    (riskFactors : list string) : string :=
  provider ++ "|" ++ JS.toFixed riskScore 2 ++ "|" ++ JS.join "," riskFactors.

(** The outside world of one charge: a random draw of 0.5, the clock at 0
    and a generator that cannot be reached. *)
Definition sampleEnv : PaymentService.Env := {|
  PaymentService.random := 0.5;
  PaymentService.uuid := "3f2b8c1e-0000-4000-8000-000000000000";
  PaymentService.cacheReadAt := 0;
  PaymentService.llm := fun _ => Throws;
  PaymentService.cacheWriteAt := 0;
  PaymentService.recordedAt := 0
|}.

(** A weekly donation. *)
Definition sampleRequest : SubscriptionRequest.t := {|
  SubscriptionRequest.donorId := "donor_1";
  SubscriptionRequest.amount := 1000;
  SubscriptionRequest.currency := "USD";
  SubscriptionRequest.interval := Interval.weekly;
  SubscriptionRequest.campaignDescription := "Clean water for villages"
|}.

(** A creation whose two clock readings are [t1] and [t2]. *)
Definition createAt (t1 t2 : Z) : SubscriptionService.CreateEnv := {|
  SubscriptionService.analysis :=
    {| CampaignAnalysis.tags := ["clean water"];
       CampaignAnalysis.summary := "Clean water for villages" |};
  SubscriptionService.c_uuid := "0a1b2c3d-0000-4000-8000-000000000000";
  SubscriptionService.createdNow := t1;
  SubscriptionService.scheduleNow := t2
|}.

(** A registry holding the one subscription of [sampleRequest], created at
    clock 0 in UTC; it falls due at clock 604800000. *)
Definition oneDonor : SubscriptionService.t :=
  snd (SubscriptionService.createSubscription 0%Z SubscriptionService.create
         (createAt 0 0) sampleRequest).

(** A monthly donation of another donor. *)
Definition monthlyRequest : SubscriptionRequest.t := {|
  SubscriptionRequest.donorId := "donor_2";
  SubscriptionRequest.amount := 2500;
  SubscriptionRequest.currency := "EUR";
  SubscriptionRequest.interval := Interval.monthly;
  SubscriptionRequest.campaignDescription := "School books for children"
|}.

(** The registry of [oneDonor] after [monthlyRequest] was accepted at
    clock 1000. *)
Definition twoDonors : SubscriptionService.t :=
  snd (SubscriptionService.createSubscription 0%Z oneDonor
         {| SubscriptionService.analysis :=
              {| CampaignAnalysis.tags := ["education"; "children"];
                 CampaignAnalysis.summary := "School books for children" |};
            SubscriptionService.c_uuid :=
              "5ca1ab1e-0000-4000-8000-000000000000";
            SubscriptionService.createdNow := 1000;
            SubscriptionService.scheduleNow := 1000 |}
         monthlyRequest).

(** Local time in New York around the end of daylight saving time on
    1 November 2026: four hours behind UTC until 06:00 UTC of that day,
    five hours from then on.  A local time before 02:00 of that day is
    read at the earlier offset. *)
Definition easternTime : Date.Zone := {|
  Date.offsetAt := fun t =>
    if (t <? 1793512800000)%Z then (-14400000)%Z else (-18000000)%Z;
  Date.offsetOfLocal := fun local =>
    if (local <? 1793498400000)%Z then (-14400000)%Z else (-18000000)%Z
|}.

(** Charge environments of a sweep in which every clock reads [now] and
    every draw of [Math.random()] is [r]. *)
Definition frozen (now : Z) (r : Q) : nat -> SubscriptionService.ChargeEnv :=
  fun _ => {|
    SubscriptionService.random := r;
    SubscriptionService.uuid := "7e57ab1e-0000-4000-8000-000000000000";
    SubscriptionService.transactionNow := now;
    SubscriptionService.chargedNow := now;
    SubscriptionService.advanceNow := now
  |}.

(** [twoDonors] after the sweep of clock 604800000, which charges the
    weekly donation of donor_1 and leaves the monthly one, not yet due. *)
Definition twoDonorsCharged : SubscriptionService.t :=
  SubscriptionService.processRecurringCharges 0%Z twoDonors 604800000
    (frozen 604800000 0.5).

End Scenario.

(** ** A request as the handlers read it *)

Module ApiScenario.

(** A request in a development environment whose body, when there is
    one, is the charge [body]; the world around it is that of
    [Scenario.sampleEnv]. *)
Definition charging (body : option ChargeRequest.t) : Api.Inputs := {|
  Api.chargeBody := body;
  Api.chargeEnv := Scenario.sampleEnv;
  Api.query := None;
  Api.production := false;
  Api.subscriptionBody := None;
  Api.createEnv := None;
  Api.sweepNow := 0;
  Api.sweepEnvs := Scenario.frozen 0 0.5
|}.

End ApiScenario.

(** ** The transaction ledger as a state machine *)

Module Ledger.
Import PaymentService.

(** Provider and status of a ledger record agree. *)
Definition consistent (tx : Transaction.t) : Prop :=
  (Transaction.provider tx = Provider.blocked <->
   Transaction.status tx = Status.blocked) /\
  (Transaction.provider tx <> Provider.blocked ->
   Transaction.status tx = Status.success).

(** The public operations of the service.  Three of them only read. *)
Inductive Op :=
| ProcessCharge (env : Env) (request : ChargeRequest.t)
| GetAllTransactions
| GetTransactionById (id : string)
| GetFilteredTransactions (filters : Filters)
| GetTransactionStats
| ClearTransactions.

Section WithStringify.
Variable stringify : Q -> string -> list string -> string.

Definition step (svc : t) (op : Op) : t :=
  match op with
  | ProcessCharge env request => snd (processCharge stringify svc env request)
  | GetAllTransactions => svc
  | GetTransactionById _ => svc
  | GetFilteredTransactions filters => snd (getFilteredTransactions svc filters)
  | GetTransactionStats => svc
  | ClearTransactions => clearTransactions svc
  end.

Definition run (svc : t) (ops : list Op) : t := fold_left step ops svc.

End WithStringify.
End Ledger.

(** ** Listings of the ledger *)

Module Query.
Import PaymentService.

(** The test that an optional bound of a filter puts on a record: none
    when the bound is not given. *)
Definition given {A : Type} (bound : option A) (test : A -> bool) : bool :=
  match bound with
  | Some a => test a
  | None => true
  end.

(** The records that a listing with [filters] keeps: every bound that is
    given must hold; a provider or status given as the empty text counts
    as not given. *)
Definition keeps (filters : Filters) (tx : Transaction.t) : bool :=
  (given (f_provider filters)
     (fun p => negb (JS.truthy p)
               || String.eqb (Provider.to_string (Transaction.provider tx)) p)
   && given (f_status filters)
        (fun s => negb (JS.truthy s)
                  || String.eqb (Status.to_string (Transaction.status tx)) s)
   && given (minAmount filters) (fun m => JS.ge (Transaction.amount tx) m)
   && given (maxAmount filters) (fun m => JS.le (Transaction.amount tx) m)
   && given (startDate filters)
        (fun d => (d <=? Transaction.timestamp tx)%Z)
   && given (endDate filters)
        (fun d => (Transaction.timestamp tx <=? d)%Z))%bool.

(** Is some bound given, so that the listing works on an array of its
    own? *)
Definition narrows (filters : Filters) : bool :=
  (match f_provider filters with Some p => JS.truthy p | None => false end
   || match f_status filters with Some s => JS.truthy s | None => false end
   || match minAmount filters with Some _ => true | None => false end
   || match maxAmount filters with Some _ => true | None => false end
   || match startDate filters with Some _ => true | None => false end
   || match endDate filters with Some _ => true | None => false end)%bool.

(** A listing in which no record comes before a newer one. *)
Definition newest_first_sorted (txs : list Transaction.t) : Prop :=
  StronglySorted
    (fun a b => (Transaction.timestamp b <= Transaction.timestamp a)%Z) txs.

(** The records of a list stamped with the instant [t], in their order. *)
Definition stamped (t : Z) (txs : list Transaction.t) : list Transaction.t :=
  List.filter (fun tx => (Transaction.timestamp tx =? t)%Z) txs.

(** How many records of a list went to [provider]. *)
Definition routed (provider : Provider.t) (txs : list Transaction.t) : nat :=
  length (List.filter
            (fun tx => String.eqb (Provider.to_string (Transaction.provider tx))
                                  (Provider.to_string provider)) txs).

End Query.

(** ** A ledger of two charges *)

Module LedgerScenario.
Import PaymentService.

(** The outside world of a charge recorded at clock [t] under the
    identifier drawn from [uuid], the generator out of reach. *)
Definition chargeAt (t : Z) (uuid : string) : Env := {|
  random := 0.5;
  uuid := uuid;
  cacheReadAt := t;
  llm := fun _ => Throws;
  cacheWriteAt := t;
  recordedAt := t
|}.

(** A small charge at clock 1 and a large one from a suspicious domain at
    clock 2, on a service fresh from its constructor. *)
Definition twoCharges : t :=
  Ledger.run Scenario.sampleKey (create Scenario.offline)
    [Ledger.ProcessCharge
       (chargeAt 1 "aaaaaaaa-0000-4000-8000-000000000000")
       Scenario.smallCharge;
     Ledger.ProcessCharge
       (chargeAt 2 "bbbbbbbb-0000-4000-8000-000000000000")
       (Scenario.request 60000 "USD" "tok_visa" "user@evil.ru")].

(** A listing request without any bound. *)
Definition noFilters : Filters := {|
  f_provider := None;
  f_status := None;
  minAmount := None;
  maxAmount := None;
  startDate := None;
  endDate := None
|}.

End LedgerScenario.

(** ** The explanation template *)

Module Template.

(** The level named in the explanation. *)
Definition riskLevel (riskScore : Q) : string :=
  if JS.lt riskScore 0.3 then "low"
  else if JS.lt riskScore 0.5 then "moderate" else "high".

(** The clause listing the risk factors, empty when there is none. *)
Definition factorClause (riskFactors : list string) : string :=
  match riskFactors with
  | [] => ""
  | _ => " due to " ++ JS.join " and " riskFactors
  end.

(** The template as the design document words it: the same connective
    "due to" after either opening, and nothing after the factor clause. *)
Definition fallbackTemplate_spec (riskScore : Q) (provider : string)
    (riskFactors : list string) : string :=
  (if String.eqb provider "blocked" then "Transaction blocked"
   else "Payment routed to " ++ JS.toUpperCase provider)
  ++ " due to " ++ riskLevel riskScore ++ " risk score ("
  ++ JS.toFixed riskScore 2 ++ ")" ++ factorClause riskFactors.

End Template.

(** ** The subscription registry *)

Module Registry.
Import SubscriptionService.

(** The registry invariant: keys are distinct (it is a [Map]) and every
    object is stored under its own donor. *)
Definition wf (svc : t) : Prop :=
  NoDup (List.map fst (subscriptions svc)) /\
  Forall (fun kv => Subscription.donorId (snd kv) = fst kv) (subscriptions svc).

(** Did the recorded attempt succeed? *)
Definition is_success (tx : SubscriptionTransaction.t) : bool :=
  match SubscriptionTransaction.status tx with
  | ChargeStatus.success => true
  | ChargeStatus.failed => false
  end.

(** Charge attempts, and successful charges, recorded for donor [d]. *)
Definition attempts (d : string) (txs : list SubscriptionTransaction.t) : nat :=
  length (List.filter
            (fun tx => String.eqb (SubscriptionTransaction.donorId tx) d) txs).






(** The states the operations of the service lead to, from the state its
    constructor leaves. *)
Inductive reachable (zone : Date.Zone) : t -> Prop :=
| reach_create : reachable zone create
| reach_createSubscription svc env request :
    reachable zone svc ->
    reachable zone (snd (createSubscription zone svc env request))
| reach_cancelSubscription svc donorId :
    reachable zone svc ->
    reachable zone (snd (cancelSubscription svc donorId))
| reach_processRecurringCharges svc now envs :
    reachable zone svc ->
    reachable zone (processRecurringCharges zone svc now envs)
| reach_clearAll svc :
    reachable zone svc -> reachable zone (clearAll svc).

End Registry.

(** ** A stand-in for JSON in examples *)

Module CampaignScenario.

(** Values are analyses; the text of a value is an opening brace followed
    by its summary, and only such a text parses. *)
Definition parse (text : string) : option CampaignAnalysis.t :=
  match text with
  | String "{" rest =>
      Some {| CampaignAnalysis.tags := ["clean water"];
              CampaignAnalysis.summary := rest |}
  | _ => None
  end.

Definition unparse (analysis : CampaignAnalysis.t) : string :=
  String "{" (CampaignAnalysis.summary analysis).

(** The analysis of a description by [LLMServiceCampaign.analyzeCampaign]
    over this stand-in, the description keying the cache as it is. *)
Definition analyze (svc : LLMService.t) (now : Z)
    (llm : string -> Completion) (now' : Z) (description : string)
  : option CampaignAnalysis.t * LLMService.t * list string :=
  LLMServiceCampaign.analyzeCampaign CampaignAnalysis.t (fun a => a)
    parse unparse (fun d => d) svc now llm now' description.

(** A description of 117 characters. *)
Definition longDescription : string :=
  "Emergency relief for families in Nepal after the earthquake: "
  ++ "shelter, clean water, food and school kits for children.".

End CampaignScenario.

(** ** The keywords of the fallback campaign analysis *)

Module Keywords.

(** The tags that [generateFallbackCampaignAnalysis] can push, in the
    order of its tests, each with the test on the lower-cased description
    that selects it. *)
Definition table : list (string * (string -> bool)) :=
  [("disaster relief",
    fun d => (JS.includes d "disaster" || JS.includes d "emergency"
              || JS.includes d "earthquake")%bool);
   ("clean water",
    fun d => (JS.includes d "water" || JS.includes d "clean water")%bool);
   ("food aid",
    fun d => (JS.includes d "food" || JS.includes d "hunger")%bool);
   ("children",
    fun d => (JS.includes d "children" || JS.includes d "kids")%bool);
   ("education",
    fun d => (JS.includes d "education" || JS.includes d "school")%bool);
   ("healthcare",
    fun d => (JS.includes d "health" || JS.includes d "medical")%bool);
   ("nepal", fun d => JS.includes d "nepal");
   ("haiti", fun d => JS.includes d "haiti");
   ("syria", fun d => JS.includes d "syria");
   ("ukraine", fun d => JS.includes d "ukraine");
   ("somalia", fun d => JS.includes d "somalia");
   ("yemen", fun d => JS.includes d "yemen")].

(** The tags whose test succeeds on [description]. *)
Definition selected (description : string) : list string :=
  List.map fst (List.filter (fun row => snd row description) table).

End Keywords.

(** ** What a sweep may and may not change *)

Module Roster.
Import SubscriptionService.

(** The terms of a subscription: everything but the two charge dates. *)
Definition same_terms (a b : Subscription.t) : Prop :=
  Subscription.id a = Subscription.id b /\
  Subscription.donorId a = Subscription.donorId b /\
  Subscription.amount a = Subscription.amount b /\
  Subscription.currency a = Subscription.currency b /\
  Subscription.interval a = Subscription.interval b /\
  Subscription.campaignDescription a = Subscription.campaignDescription b /\
  Subscription.tags a = Subscription.tags b /\
  Subscription.summary a = Subscription.summary b /\
  Subscription.createdAt a = Subscription.createdAt b /\
  Subscription.isActive a = Subscription.isActive b.

(** The contract of a subscription: what was agreed when it was
    created. *)
Definition same_contract (a b : Subscription.t) : Prop :=
  Subscription.id a = Subscription.id b /\
  Subscription.donorId a = Subscription.donorId b /\
  Subscription.amount a = Subscription.amount b /\
  Subscription.currency a = Subscription.currency b /\
  Subscription.interval a = Subscription.interval b /\
  Subscription.campaignDescription a = Subscription.campaignDescription b /\
  Subscription.tags a = Subscription.tags b /\
  Subscription.summary a = Subscription.summary b /\
  Subscription.createdAt a = Subscription.createdAt b.

(** Every subscription that is active in [svc] is still registered in
    [svc'], for the same donor and under the same contract. *)
Definition keeps_active (svc svc' : t) : Prop :=
  forall d sub,
    map_get d (subscriptions svc) = Some sub ->
    Subscription.isActive sub = true ->
    exists sub',
      map_get d (subscriptions svc') = Some sub' /\ same_contract sub sub'.

(** What one answered request makes of a well-formed registry: it stays
    well-formed and its subscriptions in force are kept. *)
Definition kept (svc svc' : t) : Prop :=
  Registry.wf svc -> Registry.wf svc' /\ keeps_active svc svc'.

(** The sum that a [reduce] from 0 computes. *)
Fixpoint total {A : Type} (f : A -> Q) (l : list A) : Q :=
  match l with
  | [] => 0
  | a :: l' => f a + total f l'
  end.

(** Is the charge date of the object reached at instant [now]? *)
Definition reached (now : Z) (sub : Subscription.t) : bool :=
  (now >=? Subscription.nextChargeAt sub)%Z.

(** Is the donor's subscription one that a sweep started at [now]
    charges: registered, active and with its charge date reached? *)
Definition due (now : Z) (svc : t) (d : string) : bool :=
  match map_get d (subscriptions svc) with
  | Some sub => (Subscription.isActive sub && reached now sub)%bool
  | None => false
  end.

(** How many subscriptions are active and charged at [interval]. *)
Definition active_at (interval : Interval.t) (svc : t) : nat :=
  length (List.filter
            (fun sub => String.eqb (Interval.to_string
                                      (Subscription.interval sub))
                                   (Interval.to_string interval))
            (getActiveSubscriptions svc)).

(** How often [tag] stands among the tags of the active subscriptions. *)
Definition tagged (tag : string) (svc : t) : nat :=
  length (List.filter (fun t => String.eqb t tag)
            (List.flat_map Subscription.tags (getActiveSubscriptions svc))).

(** What a subscription adds to the monthly revenue. *)
Definition monthly (sub : Subscription.t) : Q :=
  convertToMonthlyAmount (Subscription.amount sub) (Subscription.interval sub).

(** The operations on the registry other than a creation. *)
Inductive Op :=
| Cancel (donorId : string)
| Sweep (now : Z) (envs : nat -> ChargeEnv).

Definition step (zone : Date.Zone) (svc : t) (op : Op) : t :=
  match op with
  | Cancel donorId => snd (cancelSubscription svc donorId)
  | Sweep now envs => processRecurringCharges zone svc now envs
  end.

Definition run (zone : Date.Zone) (svc : t) (ops : list Op) : t :=
  fold_left (step zone) ops svc.

End Roster.

(** * Properties *)

(** ** Numbers *)

Lemma JS_le_iff (a b : Q) : JS.le a b = true <-> a <= b.
Proof. unfold JS.le. apply Qle_bool_iff. Qed.

Lemma JS_le_false (a b : Q) : JS.le a b = false <-> b < a.
Proof.
  unfold JS.le. split; intros H.
  - apply Qnot_le_lt. intros Hle. apply Qle_bool_iff in Hle. congruence.
  - destruct (Qle_bool a b) eqn:E; [|reflexivity].
    apply Qle_bool_iff in E. exfalso. exact (Qlt_not_le _ _ H E).
Qed.

Lemma JS_lt_iff (a b : Q) : JS.lt a b = true <-> a < b.
Proof.
  unfold JS.lt. rewrite negb_true_iff. apply (JS_le_false b a).
Qed.

Lemma JS_lt_false (a b : Q) : JS.lt a b = false <-> b <= a.
Proof.
  unfold JS.lt. rewrite negb_false_iff. apply (JS_le_iff b a).
Qed.

Lemma JS_ge_iff (a b : Q) : JS.ge a b = true <-> b <= a.
Proof. apply JS_le_iff. Qed.

Lemma JS_gt_iff (a b : Q) : JS.gt a b = true <-> b < a.
Proof. apply JS_lt_iff. Qed.

(** Case analysis on one comparison, leaving its meaning as a hypothesis. *)
Ltac js_case a b :=
  let E := fresh "E" in
  match goal with
  | |- context [JS.le a b] =>
      destruct (JS.le a b) eqn:E;
      [apply JS_le_iff in E | apply JS_le_false in E]
  | |- context [JS.lt a b] =>
      destruct (JS.lt a b) eqn:E;
      [apply JS_lt_iff in E | apply JS_lt_false in E]
  end.

Lemma Math_max_spec (a b : Q) :
  a <= JS.Math_max a b /\ b <= JS.Math_max a b /\
  (JS.Math_max a b = a \/ JS.Math_max a b = b).
Proof.
  unfold JS.Math_max. destruct (JS.le a b) eqn:E.
  - apply JS_le_iff in E. repeat split; [lra | lra | now right].
  - apply JS_le_false in E. repeat split; [lra | lra | now left].
Qed.

Lemma Math_min_spec (a b : Q) :
  JS.Math_min a b <= a /\ JS.Math_min a b <= b /\
  (JS.Math_min a b = a \/ JS.Math_min a b = b).
Proof.
  unfold JS.Math_min. destruct (JS.le a b) eqn:E.
  - apply JS_le_iff in E. repeat split; [lra | lra | now left].
  - apply JS_le_false in E. repeat split; [lra | lra | now right].
Qed.

(** ** Risk scoring and routing *)

Section FraudDetection.
Import FraudDetectionService.
Variable rules : FraudRules.t.

Lemma calculateAmountRisk_range (a : Q) :
  0.05 <= calculateAmountRisk rules a <= 0.4.
Proof.
  unfold calculateAmountRisk.
  repeat match goal with |- context [if ?c then _ else _] => destruct c end;
    lra.
Qed.

Lemma calculateDomainRisk_range (e : string) :
  0 <= calculateDomainRisk rules e <= 0.3.
Proof. unfold calculateDomainRisk. destruct (hasSuspiciousDomain _ _); lra. Qed.

Lemma calculateCurrencyRisk_range (c : string) :
  0 <= calculateCurrencyRisk c <= 0.15.
Proof.
  unfold calculateCurrencyRisk.
  repeat match goal with |- context [if ?c then _ else _] => destruct c end;
    lra.
Qed.

Lemma calculateSourceRisk_range (s : string) :
  0 <= calculateSourceRisk s <= 0.1.
Proof.
  unfold calculateSourceRisk.
  match goal with |- context [if ?c then _ else _] => destruct c end; lra.
Qed.

(** The three bands of [determineProvider]. *)
Lemma determineProvider_bands (s : Q) :
  (FraudRules.blockingThreshold rules <= s ->
     determineProvider rules s = Provider.blocked) /\
  (s < FraudRules.blockingThreshold rules ->
   s <= FraudRules.stripeThreshold rules ->
     determineProvider rules s = Provider.stripe) /\
  (s < FraudRules.blockingThreshold rules ->
   FraudRules.stripeThreshold rules < s ->
     determineProvider rules s = Provider.paypal).
Proof.
  unfold determineProvider, JS.ge.
  js_case (FraudRules.blockingThreshold rules) s;
    try js_case s (FraudRules.stripeThreshold rules);
    repeat split; intros; try reflexivity; exfalso; lra.
Qed.

(** C1.  [determineProvider] blocks a score at or above the blocking
    threshold, this test coming first; below it, a score at or below the
    stripe threshold goes to stripe and any other score to paypal.  A
    score equal to the blocking threshold is blocked, and a score equal to
    the stripe threshold (and below the blocking one) goes to stripe. *)
Theorem determineProvider_thresholds (s : Q) :
  (FraudRules.blockingThreshold rules <= s ->
     determineProvider rules s = Provider.blocked) /\
  (s < FraudRules.blockingThreshold rules ->
   s <= FraudRules.stripeThreshold rules ->
     determineProvider rules s = Provider.stripe) /\
  (s < FraudRules.blockingThreshold rules ->
   FraudRules.stripeThreshold rules < s ->
     determineProvider rules s = Provider.paypal) /\
  (s == FraudRules.blockingThreshold rules ->
     determineProvider rules s = Provider.blocked) /\
  (s == FraudRules.stripeThreshold rules ->
   s < FraudRules.blockingThreshold rules ->
     determineProvider rules s = Provider.stripe).
Proof.
  destruct (determineProvider_bands s) as (Hblocked & Hstripe & Hpaypal).
  repeat split; try assumption.
  - intros Heq. apply Hblocked. rewrite Heq. apply Qle_refl.
  - intros Heq Hlt. apply Hstripe; [exact Hlt|]. rewrite Heq. apply Qle_refl.
Qed.

(** C2.  Whatever the request, the rules and the value drawn by
    [Math.random()], the score returned by [calculateRiskScore] lies in
    the closed interval from 0 to 1. *)
Theorem calculateRiskScore_unit_interval (random : Q)
    (request : ChargeRequest.t) :
  0 <= calculateRiskScore rules random request <= 1.
Proof.
  unfold calculateRiskScore. cbv zeta.
  match goal with |- context [JS.Math_min (JS.Math_max ?x 0) 1] =>
    generalize x; intros score end.
  pose proof (Math_max_spec score 0) as (_ & Hm0 & _).
  pose proof (Math_min_spec (JS.Math_max score 0) 1) as (_ & Hle1 & [E | E]).
  - split; [rewrite E; exact Hm0 | exact Hle1].
  - rewrite E. split; lra.
Qed.

(** The sum that is clamped: between 0.05 and 1.05 when the random draw
    is in its range, so the upper clamp is the one that can act. *)
Lemma calculateRiskScore_unclamped (random : Q) (request : ChargeRequest.t) :
  0 <= random < 1 ->
  exists score,
    0.05 <= score < 1.05 /\
    calculateRiskScore rules random request == JS.Math_min score 1.
Proof.
  intros Hr. unfold calculateRiskScore. cbv zeta.
  pose proof (calculateAmountRisk_range (ChargeRequest.amount request)).
  pose proof (calculateDomainRisk_range (ChargeRequest.email request)).
  pose proof (calculateCurrencyRisk_range (ChargeRequest.currency request)).
  pose proof (calculateSourceRisk_range (ChargeRequest.source request)).
  match goal with |- context [JS.Math_min (JS.Math_max ?x 0) 1] =>
    exists x; assert (Hx : 0.05 <= x < 1.05) by lra;
    generalize dependent x; intros score Hs end.
  split; [exact Hs|].
  unfold JS.Math_max. js_case score 0; [lra | reflexivity].
Qed.

End FraudDetection.

(** The routing of the three bands under the default rules, boundaries
    included. *)
Lemma determineProvider_thresholds_witness :
  FraudDetectionService.determineProvider
    FraudDetectionService.fraudRules 0.5 = Provider.blocked /\
  FraudDetectionService.determineProvider
    FraudDetectionService.fraudRules 0.3 = Provider.stripe /\
  FraudDetectionService.determineProvider
    FraudDetectionService.fraudRules 0.4 = Provider.paypal.
Proof.
  split; [|split].
  - destruct (determineProvider_thresholds
                FraudDetectionService.fraudRules 0.5) as (_ & _ & _ & H & _).
    apply H. reflexivity.
  - destruct (determineProvider_thresholds
                FraudDetectionService.fraudRules 0.3) as (_ & _ & _ & _ & H).
    apply H; [reflexivity | simpl; lra].
  - destruct (determineProvider_thresholds
                FraudDetectionService.fraudRules 0.4) as (_ & _ & H & _).
    apply H; simpl; lra.
Defined.

(** ** The cases of the repository's test suite *)

Module TestSuite.
Import FraudDetectionService Scenario.

Example determineProvider_cases :
  determineProvider fraudRules 0.8 = Provider.blocked /\
  determineProvider fraudRules 0.2 = Provider.stripe /\
  determineProvider fraudRules 0.4 = Provider.paypal /\
  determineProvider customRules 0.4 = Provider.blocked /\
  determineProvider customRules 0.05 = Provider.stripe /\
  determineProvider customRules 0.2 = Provider.paypal.
Proof. vm_compute. repeat split. Qed.

Example getRiskFactors_cases :
  getRiskFactors fraudRules (request 100000 "USD" "tok_visa" "user@gmail.com")
    = ["large amount"] /\
  getRiskFactors fraudRules (request 1000 "USD" "tok_visa" "user@test.com")
    = ["suspicious email domain"] /\
  getRiskFactors fraudRules (request 1000 "USD" "tok_test" "user@gmail.com")
    = ["test payment source"] /\
  getRiskFactors fraudRules (request 1000 "EUR" "tok_visa" "user@gmail.com")
    = ["non-USD currency"] /\
  getRiskFactors fraudRules (request 1000 "USD" "tok_visa" "user@gmail.com")
    = [].
Proof. vm_compute. repeat split. Qed.

(** With the same random draw a large amount, or a suspicious domain,
    scores higher. *)
Example calculateRiskScore_cases :
  calculateRiskScore fraudRules 0.5
      (request 1000 "USD" "tok_visa" "user@gmail.com")
    < calculateRiskScore fraudRules 0.5
        (request 100000 "USD" "tok_visa" "user@gmail.com") /\
  calculateRiskScore fraudRules 0.5
      (request 1000 "USD" "tok_visa" "user@gmail.com")
    < calculateRiskScore fraudRules 0.5
        (request 1000 "USD" "tok_visa" "user@test.com") /\
  0.3 < calculateRiskScore fraudRules 0
          (request 100000 "USD" "tok_test" "user@test.com").
Proof. vm_compute. repeat split. Qed.

Example toFixed_cases :
  JS.toFixed 0.1 2 = "0.10" /\ JS.toFixed 0.125 2 = "0.13" /\
  JS.toFixed 0 2 = "0.00" /\ JS.toFixed 1 2 = "1.00" /\
  JS.toFixed 12.3456 2 = "12.35" /\ JS.toFixed (-0.001) 2 = "-0.00" /\
  JS.toFixed 5 0 = "5".
Proof. vm_compute. repeat split. Qed.

(** 31 January 2024, midnight UTC: a week later is 7 February, a month
    later is "31 February", that is 2 March; 29 February 2024 plus a year is
    1 March 2025. *)
Example calendar_cases :
  Date.setDate 0%Z 1706659200000 (Date.getDate 0%Z 1706659200000 + 7)
    = 1707264000000%Z /\
  Date.setMonth 0%Z 1706659200000 (Date.getMonth 0%Z 1706659200000 + 1)
    = 1709337600000%Z /\
  Date.setFullYear 0%Z 1709164800000
    (Date.getFullYear 0%Z 1709164800000 + 1) = 1740787200000%Z /\
  (Date.getFullYear 0%Z 1706659200000, Date.getMonth 0%Z 1706659200000,
   Date.getDate 0%Z 1706659200000) = (2024, 0, 31)%Z.
Proof. vm_compute. repeat split. Qed.

End TestSuite.

(** ** Sorting *)

Section SortFacts.
Context {A : Type} (cmp : A -> A -> Z).

Lemma insert_sorted_perm (x : A) (l : list A) :
  Permutation (JS.insert_sorted cmp x l) (x :: l).
Proof.
  induction l as [|y l IH]; simpl; [reflexivity|].
  destruct (cmp x y <=? 0)%Z; [reflexivity|].
  rewrite IH. apply perm_swap.
Qed.

Lemma sort_perm (l : list A) : Permutation (JS.sort cmp l) l.
Proof.
  induction l as [|x l IH]; simpl; [reflexivity|].
  rewrite insert_sorted_perm. now constructor.
Qed.

Lemma sort_Forall (P : A -> Prop) (l : list A) :
  Forall P l -> Forall P (JS.sort cmp l).
Proof.
  intros H. eapply Permutation_Forall; [|exact H].
  symmetry. apply sort_perm.
Qed.
End SortFacts.

Lemma Forall_filter_keep {A : Type} (P : A -> Prop) (f : A -> bool)
    (l : list A) :
  Forall P l -> Forall P (List.filter f l).
Proof.
  rewrite !List.Forall_forall. intros H x Hx.
  apply List.filter_In in Hx. apply H, Hx.
Qed.

(** ** The charge path *)

Module PaymentFacts.
Import PaymentService Ledger.

Section WithStringify.
Variable stringify : Q -> string -> list string -> string.

(** What [processCharge] appends and answers, in terms of the score. *)
Lemma processCharge_record (svc : t) (env : Env) (request : ChargeRequest.t) :
  let rules := fraudDetection svc in
  let score :=
    FraudDetectionService.calculateRiskScore rules (random env) request in
  let provider := FraudDetectionService.determineProvider rules score in
  let status := match provider with
                | Provider.blocked => Status.blocked
                | _ => Status.success
                end in
  exists tx,
    transactions (snd (processCharge stringify svc env request))
      = (transactions svc ++ [tx])%list /\
    fraudDetection (snd (processCharge stringify svc env request))
      = fraudDetection svc /\
    Transaction.provider tx = provider /\
    Transaction.status tx = status /\
    Transaction.riskScore tx = score /\
    ChargeResponse.provider (fst (processCharge stringify svc env request))
      = provider /\
    ChargeResponse.status (fst (processCharge stringify svc env request))
      = status /\
    ChargeResponse.riskScore (fst (processCharge stringify svc env request))
      = JS.Math_round (score * 100) / 100.
Proof.
  intros rules score provider status. unfold processCharge.
  fold rules. fold score. fold provider.
  destruct (LLMService.generatePaymentExplanation _ _ _ _ _ _ _ _ _)
    as [[explanation llm'] calls].
  eexists. simpl. unfold JS.push.
  split; [reflexivity|]. repeat split; reflexivity.
Qed.

Lemma processCharge_consistent (svc : t) (env : Env)
    (request : ChargeRequest.t) :
  exists tx,
    transactions (snd (processCharge stringify svc env request))
      = (transactions svc ++ [tx])%list /\
    consistent tx.
Proof.
  destruct (processCharge_record svc env request)
    as (tx & Htx & _ & Hp & Hs & _).
  exists tx. split; [exact Htx|].
  unfold consistent. rewrite Hp, Hs.
  destruct (FraudDetectionService.determineProvider _ _);
    repeat split; intros; congruence.
Qed.

Lemma getFilteredTransactions_ledger (P : Transaction.t -> Prop)
    (svc : t) (filters : Filters) :
  Forall P (transactions svc) ->
  Forall P (transactions (snd (getFilteredTransactions svc filters))).
Proof.
  intros H. unfold getFilteredTransactions. cbv zeta.
  match goal with
  | |- context [JS.sort newest_first (fst ?f)] =>
      set (flt := f); assert (Hf : Forall P (fst flt));
      [subst flt | clearbody flt]
  end.
  - repeat match goal with
           | |- context [match ?o with Some _ => _ | None => _ end] =>
               destruct o
           | |- context [if ?c then _ else _] => destruct c
           end; simpl;
      repeat (apply Forall_filter_keep); exact H.
  - simpl. destruct (snd flt); simpl; [exact H|].
    apply sort_Forall, Hf.
Qed.

Lemma step_consistent (svc : t) (op : Op) :
  Forall consistent (transactions svc) ->
  Forall consistent (transactions (step stringify svc op)).
Proof.
  intros H. destruct op; simpl; try exact H.
  - destruct (processCharge_consistent svc env request) as (tx & -> & Htx).
    apply Forall_app. split; [exact H|]. now constructor.
  - now apply getFilteredTransactions_ledger.
  - constructor.
Qed.

Lemma run_consistent (ops : list Op) (svc : t) :
  Forall consistent (transactions svc) ->
  Forall consistent (transactions (run stringify svc ops)).
Proof.
  revert svc. induction ops as [|op ops IH]; intros svc H; simpl.
  - exact H.
  - apply IH, step_consistent, H.
Qed.

(** C9.  The record that [processCharge] appends has provider blocked
    exactly when its status is blocked, and status success otherwise;
    and after any sequence of operations on a service fresh from its
    constructor every record of the ledger has this property. *)
Theorem ledger_provider_status (llm0 : LLMService.t) :
  (forall svc env request, exists tx,
      transactions (snd (processCharge stringify svc env request))
        = (transactions svc ++ [tx])%list /\
      consistent tx) /\
  (forall ops,
      Forall consistent (transactions (run stringify (create llm0) ops))).
Proof.
  split.
  - apply processCharge_consistent.
  - intros ops. apply run_consistent. constructor.
Qed.

Lemma smallCharge_score (random : Q) :
  0 <= random < 1 ->
  0.05 <= FraudDetectionService.calculateRiskScore
            FraudDetectionService.fraudRules random Scenario.smallCharge < 0.15.
Proof.
  intros Hr. unfold FraudDetectionService.calculateRiskScore. cbv zeta.
  replace (FraudDetectionService.calculateAmountRisk _ _) with 0.05
    by (vm_compute; reflexivity).
  replace (FraudDetectionService.calculateDomainRisk _ _) with 0
    by (vm_compute; reflexivity).
  replace (FraudDetectionService.calculateCurrencyRisk _) with 0
    by (vm_compute; reflexivity).
  replace (FraudDetectionService.calculateSourceRisk _) with 0
    by (vm_compute; reflexivity).
  match goal with |- context [JS.Math_min (JS.Math_max ?x 0) 1] =>
    assert (Hx : 0.05 <= x < 0.15) by lra;
    set (score := x) in *; clearbody score end.
  unfold JS.Math_min, JS.Math_max.
  js_case score 0; [lra|]. js_case score 1; lra.
Qed.

Lemma Math_round_below (x : Q) (n : Z) :
  x + (1 # 2) < inject_Z n + 1 -> JS.Math_round x <= inject_Z n.
Proof.
  intros H. unfold JS.Math_round. rewrite <- Zle_Qle.
  pose proof (Qfloor_le (x + (1 # 2))) as Hf.
  assert (Hlt : inject_Z (Qfloor (x + (1 # 2))) < inject_Z (n + 1)).
  { rewrite inject_Z_plus. change (inject_Z 1) with 1. lra. }
  rewrite <- Zlt_Qlt in Hlt. lia.
Qed.

(** C8.  Under the default rules, for every draw of [Math.random()]
    (so every jitter term in [0, 0.1)), the charge of 500 USD from
    tok_visa and user@gmail.com is routed to stripe with status success
    and a risk score below 0.3, in the answer and in the record. *)
Theorem processCharge_smallCharge (svc : t) (env : Env) :
  fraudDetection svc = FraudDetectionService.fraudRules ->
  0 <= random env < 1 ->
  let result := processCharge stringify svc env Scenario.smallCharge in
  ChargeResponse.provider (fst result) = Provider.stripe /\
  ChargeResponse.status (fst result) = Status.success /\
  ChargeResponse.riskScore (fst result) < 0.3 /\
  exists tx,
    transactions (snd result) = (transactions svc ++ [tx])%list /\
    Transaction.provider tx = Provider.stripe /\
    Transaction.status tx = Status.success /\
    Transaction.riskScore tx < 0.3.
Proof.
  intros Hrules Hr result. subst result.
  destruct (processCharge_record svc env Scenario.smallCharge)
    as (tx & Htx & _ & Hp & Hs & Hscore & Hrp & Hrs & Hrscore).
  rewrite Hrules in *.
  pose proof (smallCharge_score (random env) Hr) as Hband.
  set (score := FraudDetectionService.calculateRiskScore _ _ _) in *.
  assert (Hprov : FraudDetectionService.determineProvider
            FraudDetectionService.fraudRules score = Provider.stripe).
  { destruct (determineProvider_bands
                FraudDetectionService.fraudRules score) as (_ & Hstripe & _).
    apply Hstripe; simpl; lra. }
  rewrite Hprov in *.
  repeat split; try assumption.
  - rewrite Hrscore.
    pose proof (Math_round_below (score * 100) 15) as Hround.
    change (inject_Z 15) with 15 in Hround.
    assert (JS.Math_round (score * 100) <= 15) by (apply Hround; lra).
    apply Qlt_shift_div_r; lra.
  - exists tx. repeat split; try assumption. rewrite Hscore. lra.
Qed.

End WithStringify.

End PaymentFacts.

Lemma processCharge_smallCharge_witness :
  let result :=
    PaymentService.processCharge Scenario.sampleKey
      (PaymentService.create Scenario.offline)
      Scenario.sampleEnv Scenario.smallCharge in
  0 <= PaymentService.random Scenario.sampleEnv < 1 /\
  ChargeResponse.provider (fst result) = Provider.stripe /\
  ChargeResponse.status (fst result) = Status.success /\
  ChargeResponse.riskScore (fst result) < 0.3.
Proof.
  intros result.
  assert (Hrandom : 0 <= PaymentService.random Scenario.sampleEnv < 1)
    by (simpl; lra).
  destruct (PaymentFacts.processCharge_smallCharge Scenario.sampleKey
              (PaymentService.create Scenario.offline) Scenario.sampleEnv
              eq_refl Hrandom) as (Hprovider & Hstatus & Hscore & _).
  repeat split; try assumption; apply Hrandom.
Defined.

(** ** The explanation layer *)

Module LLMFacts.
Import LLMService Template.

Lemma riskLevel_bands (riskScore : Q) :
  (riskScore < 0.3 -> riskLevel riskScore = "low") /\
  (0.3 <= riskScore -> riskScore < 0.5 -> riskLevel riskScore = "moderate") /\
  (0.5 <= riskScore -> riskLevel riskScore = "high").
Proof.
  unfold riskLevel.
  js_case riskScore 0.3; try js_case riskScore 0.5;
    repeat split; intros; try reflexivity; exfalso; lra.
Qed.

Lemma factorClause_empty (riskFactors : list string) :
  factorClause riskFactors = "" <-> riskFactors = [].
Proof.
  destruct riskFactors; simpl; split; intros H; try reflexivity; discriminate.
Qed.

(** A routed payment is worded "based on", and the sentence is closed by a
    full stop; the wording of the design document is not what is produced. *)
Lemma fallback_differs_from_template :
  generateFallbackExplanation 0.1 "stripe" []
    = "Payment routed to STRIPE based on low risk score (0.10)." /\
  fallbackTemplate_spec 0.1 "stripe" []
    = "Payment routed to STRIPE due to low risk score (0.10)" /\
  generateFallbackExplanation 0.1 "stripe" []
    <> fallbackTemplate_spec 0.1 "stripe" [].
Proof.
  split; [vm_compute; reflexivity|].
  split; [vm_compute; reflexivity|].
  vm_compute. discriminate.
Qed.

(** C6 (amended).  The fallback explanation is
    "Transaction blocked due to L risk score (X.XX)F." for the provider
    blocked and "Payment routed to P based on L risk score (X.XX)F." for any
    other provider, P being the provider in upper case, X.XX the score with
    two decimals, L the level (low below 0.3, moderate from 0.3 and below
    0.5, high from 0.5) and F the factor clause: empty exactly when there is
    no factor, otherwise " due to " and the factors joined by " and ". *)
Theorem generateFallbackExplanation_template (riskScore : Q)
    (provider : string) (riskFactors : list string) :
  exists level clause : string,
    generateFallbackExplanation riskScore provider riskFactors
      = (if String.eqb provider "blocked"
         then "Transaction blocked due to " ++ level ++ " risk score ("
                ++ JS.toFixed riskScore 2 ++ ")" ++ clause ++ "."
         else "Payment routed to " ++ JS.toUpperCase provider ++ " based on "
                ++ level ++ " risk score (" ++ JS.toFixed riskScore 2 ++ ")"
                ++ clause ++ ".") /\
    (riskScore < 0.3 -> level = "low") /\
    (0.3 <= riskScore -> riskScore < 0.5 -> level = "moderate") /\
    (0.5 <= riskScore -> level = "high") /\
    (clause = "" <-> riskFactors = []) /\
    (riskFactors <> [] -> clause = " due to " ++ JS.join " and " riskFactors).
Proof.
  exists (riskLevel riskScore), (factorClause riskFactors).
  split.
  - unfold generateFallbackExplanation. cbv zeta.
    fold (riskLevel riskScore). fold (factorClause riskFactors).
    destruct (String.eqb provider "blocked"); reflexivity.
  - destruct (riskLevel_bands riskScore) as (Hl & Hm & Hh).
    repeat split; try assumption; try apply factorClause_empty.
    destruct riskFactors; [congruence | reflexivity].
Qed.

End LLMFacts.

Lemma generateFallbackExplanation_template_witness :
  exists level clause : string,
    LLMService.generateFallbackExplanation 0.45 "blocked"
      ["large amount"; "test payment source"]
      = "Transaction blocked due to " ++ level ++ " risk score (0.45)"
          ++ clause ++ "." /\
    level = "moderate" /\
    clause = " due to large amount and test payment source".
Proof.
  destruct (LLMFacts.generateFallbackExplanation_template 0.45 "blocked"
              ["large amount"; "test payment source"])
    as (level & clause & Htext & _ & Hmid & _ & _ & Hclause).
  exists level, clause. split; [exact Htext|]. split.
  - apply Hmid; lra.
  - apply Hclause. discriminate.
Defined.

(** ** The explanation cache *)

Module CacheFacts.
Import LLMService.

Lemma fallback_truthy (riskScore : Q) (provider : string)
    (riskFactors : list string) :
  JS.truthy (generateFallbackExplanation riskScore provider riskFactors) = true.
Proof.
  unfold generateFallbackExplanation. cbv zeta.
  destruct (String.eqb provider "blocked"); reflexivity.
Qed.

(** Reading a live entry returns its text and leaves the cache as it is. *)
Lemma getFromCache_live (svc : t) (now : Z) (key : string) (e : CacheEntry.t) :
  cache svc !! key = Some e ->
  (now - CacheEntry.timestamp e <= CacheEntry.ttl e)%Z ->
  getFromCache svc now key = (Some (CacheEntry.response e), svc).
Proof.
  intros Hk Hlive. unfold getFromCache, expired. rewrite Hk.
  destruct (Z.gtb_spec (now - CacheEntry.timestamp e) (CacheEntry.ttl e));
    [lia | reflexivity].
Qed.

(** Reading an expired entry deletes it and returns nothing. *)
Lemma getFromCache_expired (svc : t) (now : Z) (key : string)
    (e : CacheEntry.t) :
  cache svc !! key = Some e ->
  (now - CacheEntry.timestamp e > CacheEntry.ttl e)%Z ->
  getFromCache svc now key
    = (None, with_cache svc (delete key (cache svc))).
Proof.
  intros Hk Hold. unfold getFromCache, expired. rewrite Hk.
  destruct (Z.gtb_spec (now - CacheEntry.timestamp e) (CacheEntry.ttl e));
    [reflexivity | lia].
Qed.

Lemma getFromCache_config (svc : t) (now : Z) (key : string) :
  cacheTTL (snd (getFromCache svc now key)) = cacheTTL svc /\
  enableLLM (snd (getFromCache svc now key)) = enableLLM svc /\
  openai (snd (getFromCache svc now key)) = openai svc.
Proof.
  unfold getFromCache. destruct (cache svc !! key) as [e|]; [|easy].
  destruct (expired now e); easy.
Qed.

(** After the explicit sweep the expired entries are gone and the live
    ones are kept. *)
Lemma clearExpiredCache_lookup (svc : t) (now : Z) (key : string) :
  cache (clearExpiredCache svc now) !! key
    = match cache svc !! key with
      | Some e => if expired now e then None else Some e
      | None => None
      end.
Proof.
  unfold clearExpiredCache. simpl. rewrite map_lookup_filter.
  destruct (cache svc !! key) as [e|]; simpl; [|reflexivity].
  destruct (expired now e); reflexivity.
Qed.

(** A read answers the same whether or not the sweep ran before it. *)
Lemma clearExpiredCache_read (svc : t) (now : Z) (key : string) :
  fst (getFromCache (clearExpiredCache svc now) now key)
    = fst (getFromCache svc now key).
Proof.
  unfold getFromCache. rewrite clearExpiredCache_lookup.
  destruct (cache svc !! key) as [e|]; [|reflexivity].
  destruct (expired now e) eqn:E; [reflexivity|]. now rewrite E.
Qed.

Section OneRequest.
Variable stringify : Q -> string -> list string -> string.
Variable request : ChargeRequest.t.
Variable riskScore : Q.
Variable provider : string.
Variable riskFactors : list string.

Let key : string :=
  createCacheKey stringify "payment" riskScore provider riskFactors.
Let prompt : string :=
  createPaymentPrompt request riskScore provider riskFactors.
Let fallback : string :=
  generateFallbackExplanation riskScore provider riskFactors.
Let explain (svc : t) (now : Z) (llm : string -> Completion) (now' : Z)
  : string * t * list string :=
  generatePaymentExplanation stringify svc now llm now'
    request riskScore provider riskFactors.

(** With the generator switched off nothing is sent and nothing is
    cached. *)
Lemma explain_offline (svc : t) (now : Z) (llm : string -> Completion)
    (now' : Z) :
  enableLLM svc = false \/ openai svc = false ->
  explain svc now llm now' = (fallback, svc, []).
Proof.
  intros H. unfold explain, generatePaymentExplanation.
  destruct H as [-> | ->]; [reflexivity|].
  now rewrite orb_true_r.
Qed.

(** A request that went out and was answered leaves its text in the cache,
    stamped with the clock of the write. *)
Lemma explain_write (svc : t) (now : Z) (llm : string -> Completion)
    (now' : Z) (content : option string) :
  enableLLM svc = true -> openai svc = true ->
  snd (explain svc now llm now') <> [] ->
  llm prompt = Responds content ->
  let r := explain svc now llm now' in
  cache (snd (fst r)) !! key
    = Some {| CacheEntry.response := fst (fst r);
              CacheEntry.timestamp := now';
              CacheEntry.ttl := cacheTTL svc |} /\
  JS.truthy (fst (fst r)) = true /\
  enableLLM (snd (fst r)) = true /\ openai (snd (fst r)) = true.
Proof.
  intros Hen Hcl Hcalls Hllm r. subst r.
  revert Hcalls. unfold explain, generatePaymentExplanation.
  rewrite Hen, Hcl. simpl negb. simpl orb. cbv iota.
  fold key. fold prompt. fold fallback.
  pose proof (getFromCache_config svc now key) as (Httl & Hen' & Hcl').
  destruct (getFromCache svc now key) as [cached svc'].
  simpl in Httl, Hen', Hcl'.
  assert (Hmiss :
    forall explanation,
      JS.truthy explanation = true ->
      cache (setCache svc' now' key explanation) !! key
        = Some {| CacheEntry.response := explanation;
                  CacheEntry.timestamp := now';
                  CacheEntry.ttl := cacheTTL svc |} /\
      JS.truthy explanation = true /\
      enableLLM (setCache svc' now' key explanation) = true /\
      openai (setCache svc' now' key explanation) = true).
  { intros explanation Ht. unfold setCache. simpl.
    rewrite lookup_insert_eq, Httl, Hen', Hcl', Hen, Hcl. easy. }
  assert (Hexpl : forall c : string,
    JS.truthy (if JS.truthy c then c else fallback) = true).
  { intros c. destruct (JS.truthy c) eqn:E; [exact E | apply fallback_truthy]. }
  destruct cached as [text|]; [destruct (JS.truthy text) eqn:Et|].
  - simpl. congruence.
  - rewrite Hllm. simpl. intros _. apply Hmiss, Hexpl.
  - rewrite Hllm. simpl. intros _. apply Hmiss, Hexpl.
Qed.

(** A request whose text is in the cache, not older than its time to live,
    is answered from the cache: nothing is sent, nothing changes. *)
Lemma explain_hit (svc : t) (now : Z) (llm : string -> Completion)
    (now' : Z) (e : CacheEntry.t) :
  enableLLM svc = true -> openai svc = true ->
  cache svc !! key = Some e ->
  (now - CacheEntry.timestamp e <= CacheEntry.ttl e)%Z ->
  JS.truthy (CacheEntry.response e) = true ->
  explain svc now llm now' = (CacheEntry.response e, svc, []).
Proof.
  intros Hen Hcl Hk Hlive Ht. unfold explain, generatePaymentExplanation.
  rewrite Hen, Hcl. simpl negb. simpl orb. cbv iota. fold key.
  rewrite (getFromCache_live svc now _ e Hk Hlive), Ht. reflexivity.
Qed.

(** A request whose entry has expired is a miss: the entry is deleted and the
    prompt is sent. *)
Lemma explain_expired (svc : t) (now : Z) (llm : string -> Completion)
    (now' : Z) (e : CacheEntry.t) :
  enableLLM svc = true -> openai svc = true ->
  cache svc !! key = Some e ->
  (now - CacheEntry.timestamp e > CacheEntry.ttl e)%Z ->
  snd (explain svc now llm now') = [prompt].
Proof.
  intros Hen Hcl Hk Hold. unfold explain, generatePaymentExplanation.
  rewrite Hen, Hcl. simpl negb. simpl orb. cbv iota. fold key.
  rewrite (getFromCache_expired svc now _ e Hk Hold). fold prompt.
  destruct (llm prompt); reflexivity.
Qed.

(** C7.  With the generator in use: when a request went out, was answered
    and so was written to the cache at clock [w], a second request with the
    same inputs that reads the cache no later than the time to live after
    [w] returns the same text, sends nothing and changes nothing.  For any
    key, a read that finds an entry older than its time to live returns
    nothing and leaves the cache without that key; the explanation request
    making such a read sends its prompt again.  Expiry needs no sweep: a read
    answers the same whether or not [clearExpiredCache] ran before it. *)
Theorem cache_within_and_after_ttl (svc : t) :
  enableLLM svc = true -> openai svc = true ->
  (forall now llm w content now2 llm2 w2,
      let first := explain svc now llm w in
      snd first <> [] ->
      llm prompt = Responds content ->
      (now2 - w <= cacheTTL svc)%Z ->
      explain (snd (fst first)) now2 llm2 w2
        = (fst (fst first), snd (fst first), [])) /\
  (forall k e now,
      cache svc !! k = Some e ->
      (now - CacheEntry.timestamp e > CacheEntry.ttl e)%Z ->
      fst (getFromCache svc now k) = None /\
      cache (snd (getFromCache svc now k)) = delete k (cache svc) /\
      cache (snd (getFromCache svc now k)) !! k = None) /\
  (forall e now llm w,
      cache svc !! key = Some e ->
      (now - CacheEntry.timestamp e > CacheEntry.ttl e)%Z ->
      snd (explain svc now llm w) = [prompt]) /\
  (forall k now,
      fst (getFromCache (clearExpiredCache svc now) now k)
        = fst (getFromCache svc now k)).
Proof.
  intros Hen Hcl. split; [|split; [|split]].
  - intros now llm w content now2 llm2 w2 first Hsent Hllm Hwithin.
    destruct (explain_write svc now llm w content Hen Hcl Hsent Hllm)
      as (Hentry & Htruthy & Hen1 & Hcl1).
    fold first in Hentry, Htruthy, Hen1, Hcl1.
    rewrite (explain_hit _ now2 llm2 w2 _ Hen1 Hcl1 Hentry);
      simpl; try assumption.
    reflexivity.
  - intros k e now Hk Hold.
    rewrite (getFromCache_expired svc now k e Hk Hold). simpl.
    repeat split; try reflexivity. apply lookup_delete_eq.
  - intros e now llm w Hk Hold.
    now apply (explain_expired svc now llm w e).
  - intros k now. apply clearExpiredCache_read.
Qed.

End OneRequest.

End CacheFacts.

Lemma cache_within_and_after_ttl_witness :
  let first :=
    LLMService.generatePaymentExplanation Scenario.sampleKey
      Scenario.online 1000 (fun _ => Responds (Some " Low risk. ")) 1200
      Scenario.smallCharge 0.1 "stripe" [] in
  fst (fst first) = "Low risk." /\
  LLMService.generatePaymentExplanation Scenario.sampleKey
    (snd (fst first)) 301200 (fun _ => Throws) 301300
    Scenario.smallCharge 0.1 "stripe" []
  = ("Low risk.", snd (fst first), []).
Proof.
  split; [vm_compute; reflexivity|].
  destruct (CacheFacts.cache_within_and_after_ttl Scenario.sampleKey
              Scenario.smallCharge 0.1 "stripe" [] Scenario.online
              eq_refl eq_refl) as (Hwithin & _).
  apply (Hwithin 1000%Z (fun _ => Responds (Some " Low risk. ")) 1200%Z
           (Some " Low risk. ") 301200%Z (fun _ => Throws) 301300%Z).
  - vm_compute. discriminate.
  - reflexivity.
  - simpl. lia.
Defined.

(** ** Calendar arithmetic *)

Module DateFacts.
Import Date.
Local Open Scope Z_scope.

Lemma leap_range (y : Z) : leap y = 0 \/ leap y = 1.
Proof. unfold leap. destruct (DaysInYear y =? 366); auto. Qed.

Lemma DaysInYear_cases (y : Z) : DaysInYear y = 365 \/ DaysInYear y = 366.
Proof.
  unfold DaysInYear.
  repeat match goal with |- context [if ?c then _ else _] => destruct c end;
    auto.
Qed.

Lemma DaysInYear_leap (y : Z) : DaysInYear y = 365 + leap y.
Proof.
  unfold leap. destruct (DaysInYear_cases y) as [-> | ->]; reflexivity.
Qed.

(** Consecutive years start [DaysInYear] days apart. *)
Lemma DayFromYear_succ (y : Z) :
  DayFromYear (y + 1) = DayFromYear y + DaysInYear y.
Proof.
  unfold DayFromYear, DaysInYear.
  repeat match goal with
         | |- context [?a =? ?b] => destruct (Z.eqb_spec a b)
         end; simpl negb; cbv iota;
    Z.div_mod_to_equations; lia.
Qed.

(** [YearFromDay] is the year the day falls in. *)
Lemma YearFromDay_spec (d : Z) :
  DayFromYear (YearFromDay d) <= d < DayFromYear (YearFromDay d + 1).
Proof.
  unfold YearFromDay. cbv zeta.
  set (g := 1970 + 400 * d / 146097).
  assert (Hg : DayFromYear (g - 1) <= d < DayFromYear (g + 2)).
  { unfold DayFromYear, g. Z.div_mod_to_equations. lia. }
  destruct (Z.leb_spec (DayFromYear (g + 1)) d).
  - replace (g + 1 + 1) with (g + 2) by lia. lia.
  - destruct (Z.ltb_spec d (DayFromYear g)).
    + replace (g - 1 + 1) with g by lia. lia.
    + lia.
Qed.

Lemma DayWithinYear_range (t : Z) :
  0 <= DayWithinYear t < DaysInYear (YearFromTime t).
Proof.
  unfold DayWithinYear, YearFromTime.
  pose proof (YearFromDay_spec (Day t)) as H.
  rewrite DayFromYear_succ in H. lia.
Qed.

Lemma monthOfDay_range (d l : Z) : 0 <= monthOfDay d l <= 11.
Proof.
  unfold monthOfDay.
  repeat match goal with |- context [if ?c then _ else _] => destruct c end;
    lia.
Qed.

Lemma MonthFromTime_range (t : Z) : 0 <= MonthFromTime t <= 11.
Proof. apply monthOfDay_range. Qed.

(** [MakeDay] of the year, month and date of a time value, the date moved
    by [n], is the day of that time value moved by [n]. *)
Lemma MakeDay_same_month (t n : Z) :
  MakeDay (YearFromTime t) (MonthFromTime t) (DateFromTime t + n) = Day t + n.
Proof.
  pose proof (MonthFromTime_range t) as Hm.
  unfold MakeDay. cbv zeta.
  rewrite (Z.div_small (MonthFromTime t) 12) by lia.
  rewrite (Z.mod_small (MonthFromTime t) 12) by lia.
  rewrite Z.add_0_r. unfold DateFromTime, DayWithinYear, InLeapYear. lia.
Qed.

Lemma MakeDate_split (t n : Z) :
  MakeDate (Day t + n) (TimeWithinDay t) = t + n * msPerDay.
Proof.
  unfold MakeDate, Day, TimeWithinDay.
  pose proof (Z.div_mod t msPerDay). unfold msPerDay in *. lia.
Qed.

Lemma monthStart_next (m l : Z) :
  0 <= m <= 10 -> (l = 0 \/ l = 1) ->
  28 <= monthStart (m + 1) l - monthStart m l <= 31.
Proof.
  intros Hm Hl.
  assert (Hcases : m = 0 \/ m = 1 \/ m = 2 \/ m = 3 \/ m = 4 \/ m = 5 \/
                   m = 6 \/ m = 7 \/ m = 8 \/ m = 9 \/ m = 10) by lia.
  repeat (destruct Hcases as [-> | Hcases]); try subst m;
    destruct Hl as [-> | ->]; simpl; lia.
Qed.

(** Moving to the next month moves the day by the length of a month. *)
Lemma MakeDay_next_month (t : Z) :
  28 <= MakeDay (YearFromTime t) (MonthFromTime t + 1) (DateFromTime t)
        - Day t <= 31.
Proof.
  pose proof (MonthFromTime_range t) as Hm.
  pose proof (leap_range (YearFromTime t)) as Hl.
  unfold MakeDay, DateFromTime, DayWithinYear, InLeapYear. cbv zeta.
  set (m := MonthFromTime t) in *. set (y := YearFromTime t) in *.
  destruct (Z.eq_dec m 11) as [E | E].
  - rewrite E. change ((11 + 1) / 12) with 1. change ((11 + 1) mod 12) with 0.
    rewrite DayFromYear_succ, DaysInYear_leap.
    change (monthStart 0 (leap (y + 1))) with 0.
    change (monthStart 11 (leap y)) with (334 + leap y).
    lia.
  - rewrite (Z.div_small (m + 1) 12) by lia.
    rewrite (Z.mod_small (m + 1) 12) by lia.
    rewrite Z.add_0_r.
    pose proof (monthStart_next m (leap y)).
    lia.
Qed.

Lemma monthStart_leap_shift (m l l' : Z) :
  0 <= m <= 11 -> (l = 0 \/ l = 1) -> (l' = 0 \/ l' = 1) ->
  monthStart m l' - monthStart m l = 0 \/
  (2 <= m /\ monthStart m l' - monthStart m l = l' - l).
Proof.
  intros Hm Hl Hl'.
  assert (Hcases : m = 0 \/ m = 1 \/ m = 2 \/ m = 3 \/ m = 4 \/ m = 5 \/
                   m = 6 \/ m = 7 \/ m = 8 \/ m = 9 \/ m = 10 \/ m = 11)
    by lia.
  repeat (destruct Hcases as [-> | Hcases]); try subst m; simpl; lia.
Qed.

(** Moving to the next year moves the day by the length of a year. *)
Lemma MakeDay_next_year (t : Z) :
  365 <= MakeDay (YearFromTime t + 1) (MonthFromTime t) (DateFromTime t)
         - Day t <= 366.
Proof.
  pose proof (MonthFromTime_range t) as Hm.
  pose proof (leap_range (YearFromTime t)) as Hl.
  pose proof (leap_range (YearFromTime t + 1)) as Hl'.
  unfold MakeDay, DateFromTime, DayWithinYear, InLeapYear. cbv zeta.
  set (m := MonthFromTime t) in *. set (y := YearFromTime t) in *.
  rewrite (Z.div_small m 12) by lia.
  rewrite (Z.mod_small m 12) by lia.
  rewrite Z.add_0_r.
  rewrite DayFromYear_succ, DaysInYear_leap.
  destruct (monthStart_leap_shift m (leap y) (leap (y + 1)) Hm Hl Hl')
    as [H | [_ H]]; lia.
Qed.

Section LocalTime.
Variable zone : Zone.

(** [date.setDate(date.getDate() + n)] moves the local time on by [n]
    days. *)
Lemma setDate_getDate_local (t n : Z) :
  setDate zone t (getDate zone t + n)
    = UTC zone (LocalTime zone t + n * msPerDay).
Proof.
  unfold setDate, getDate. cbv zeta.
  now rewrite MakeDay_same_month, MakeDate_split.
Qed.

(** [date.setMonth(date.getMonth() + 1)] moves the local time on by 28 to
    31 days. *)
Lemma setMonth_getMonth_local (t : Z) :
  exists local,
    setMonth zone t (getMonth zone t + 1) = UTC zone local /\
    LocalTime zone t + 28 * msPerDay <= local
      <= LocalTime zone t + 31 * msPerDay.
Proof.
  unfold setMonth, getMonth. cbv zeta. eexists. split; [reflexivity|].
  pose proof (MakeDay_next_month (LocalTime zone t)) as H.
  set (d := MakeDay _ _ _) in *.
  replace d with (Day (LocalTime zone t) + (d - Day (LocalTime zone t)))
    by lia.
  rewrite MakeDate_split. unfold msPerDay. lia.
Qed.

(** [date.setFullYear(date.getFullYear() + 1)] moves the local time on by
    365 or 366 days. *)
Lemma setFullYear_getFullYear_local (t : Z) :
  exists local,
    setFullYear zone t (getFullYear zone t + 1) = UTC zone local /\
    LocalTime zone t + 365 * msPerDay <= local
      <= LocalTime zone t + 366 * msPerDay.
Proof.
  unfold setFullYear, getFullYear. cbv zeta. eexists. split; [reflexivity|].
  pose proof (MakeDay_next_year (LocalTime zone t)) as H.
  set (d := MakeDay _ _ _) in *.
  replace d with (Day (LocalTime zone t) + (d - Day (LocalTime zone t)))
    by lia.
  rewrite MakeDate_split. unfold msPerDay. lia.
Qed.

End LocalTime.

(** At a fixed offset local days are days of 24 hours. *)
Section FixedOffset.
Variable tza : Z.




End FixedOffset.
End DateFacts.

(** ** The subscription registry *)

Module RegistryFacts.
Import SubscriptionService Registry.

Lemma map_get_set_eq (k : string) (v : Subscription.t)
    (m : list (string * Subscription.t)) :
  map_get k (map_set k v m) = Some v.
Proof.
  induction m as [|[k' v'] m IH]; simpl.
  - now rewrite String.eqb_refl.
  - destruct (String.eqb k' k) eqn:E; simpl.
    + now rewrite String.eqb_refl.
    + now rewrite E.
Qed.

Lemma map_get_set_ne (k k' : string) (v : Subscription.t)
    (m : list (string * Subscription.t)) :
  k <> k' -> map_get k' (map_set k v m) = map_get k' m.
Proof.
  intros Hne. induction m as [|[k0 v0] m IH]; simpl.
  - destruct (String.eqb_spec k k'); [contradiction | reflexivity].
  - destruct (String.eqb_spec k0 k) as [-> | Hk0]; simpl.
    + destruct (String.eqb_spec k k'); [contradiction | reflexivity].
    + destruct (String.eqb_spec k0 k'); [reflexivity | exact IH].
Qed.

Lemma map_get_In (k : string) (v : Subscription.t)
    (m : list (string * Subscription.t)) :
  map_get k m = Some v -> In (k, v) m.
Proof.
  induction m as [|[k' v'] m IH]; simpl; [discriminate|].
  destruct (String.eqb_spec k' k) as [-> | Hne].
  - intros [= ->]. now left.
  - intros H. right. now apply IH.
Qed.

Lemma map_get_None (k : string) (m : list (string * Subscription.t)) :
  map_get k m = None <-> ~ In k (List.map fst m).
Proof.
  induction m as [|[k' v'] m IH]; simpl; [tauto|].
  destruct (String.eqb_spec k' k) as [-> | Hne].
  - split; [discriminate | intros H; exfalso; apply H; now left].
  - rewrite IH. tauto.
Qed.

(** Writing under a key that is present keeps the keys and their order. *)
Lemma map_set_keys_present (k : string) (v v0 : Subscription.t)
    (m : list (string * Subscription.t)) :
  map_get k m = Some v0 ->
  List.map fst (map_set k v m) = List.map fst m.
Proof.
  induction m as [|[k' v'] m IH]; simpl; [discriminate|].
  destruct (String.eqb_spec k' k) as [-> | Hne]; simpl.
  - reflexivity.
  - intros H. now rewrite IH.
Qed.

(** Writing under a new key appends it. *)
Lemma map_set_keys_absent (k : string) (v : Subscription.t)
    (m : list (string * Subscription.t)) :
  map_get k m = None ->
  List.map fst (map_set k v m) = (List.map fst m ++ [k])%list.
Proof.
  induction m as [|[k' v'] m IH]; simpl; [reflexivity|].
  destruct (String.eqb_spec k' k) as [-> | Hne]; simpl.
  - discriminate.
  - intros H. now rewrite IH.
Qed.

Lemma map_set_In (k : string) (v : Subscription.t)
    (m : list (string * Subscription.t)) (kv : string * Subscription.t) :
  In kv (map_set k v m) -> kv = (k, v) \/ In kv m.
Proof.
  induction m as [|[k' v'] m IH]; simpl.
  - intros [H | []]. now left.
  - destruct (String.eqb k' k); simpl; intros [H | H]; auto.
    destruct (IH H); auto.
Qed.

Lemma map_set_twice (k : string) (v : Subscription.t)
    (m : list (string * Subscription.t)) :
  map_set k v (map_set k v m) = map_set k v m.
Proof.
  induction m as [|[k' v'] m IH]; simpl.
  - now rewrite String.eqb_refl.
  - destruct (String.eqb k' k) eqn:E; simpl.
    + now rewrite String.eqb_refl.
    + now rewrite E, IH.
Qed.

Lemma wf_create : wf create.
Proof. split; constructor. Qed.

Lemma wf_donorId (svc : t) (k : string) (sub : Subscription.t) :
  wf svc -> map_get k (subscriptions svc) = Some sub ->
  Subscription.donorId sub = k.
Proof.
  intros [_ Hd] Hk. apply map_get_In in Hk.
  rewrite List.Forall_forall in Hd. exact (Hd _ Hk).
Qed.

Lemma wf_map_set (svc : t) (k : string) (v : Subscription.t)
    (txs : list SubscriptionTransaction.t) :
  wf svc -> Subscription.donorId v = k ->
  wf {| subscriptions := map_set k v (subscriptions svc);
        transactions := txs |}.
Proof.
  intros [Hnd Hd] Hv. split; simpl.
  - destruct (map_get k (subscriptions svc)) as [v0|] eqn:E.
    + now rewrite (map_set_keys_present k v v0).
    + rewrite (map_set_keys_absent k v _ E).
      apply NoDup_app. repeat split; try assumption.
      * intros x Hx [-> | []]%list_elem_of_In.
        apply map_get_None in E. apply E. now apply list_elem_of_In.
      * apply NoDup_singleton.
  - rewrite List.Forall_forall in *. intros kv Hkv.
    destruct (map_set_In _ _ _ _ Hkv) as [-> | Hin]; [exact Hv | auto].
Qed.

End RegistryFacts.

(** ** Subscription lifecycle *)

Module LifecycleFacts.
Import SubscriptionService Registry RegistryFacts.

Lemma set_isActive_twice (sub : Subscription.t) (b : bool) :
  set_isActive (set_isActive sub b) b = set_isActive sub b.
Proof. reflexivity. Qed.

(** Cancelling an existing subscription a second time answers true again:
    the answer depends on the presence of the donor, not on [isActive]. *)
Lemma cancel_twice_true_true :
  fst (cancelSubscription Scenario.oneDonor "donor_1") = true /\
  fst (cancelSubscription (snd (cancelSubscription Scenario.oneDonor "donor_1"))
         "donor_1") = true /\
  fst (cancelSubscription (snd (cancelSubscription Scenario.oneDonor "donor_1"))
         "donor_1") <> false.
Proof. vm_compute. repeat split; discriminate. Qed.

(** C3 (amended).  [cancelSubscription] answers false, changing nothing,
    when the donor has no subscription; when the donor has one, cancelled or
    not, it answers true and the subscription is left with [isActive] false.
    Cancelling again gives the same answer and the same registry as the first
    time: true and true for an existing subscription, false and false for a
    missing one.  The answer is always a value. *)
Theorem cancelSubscription_answers (svc : t) (d : string) :
  (map_get d (subscriptions svc) = None ->
     cancelSubscription svc d = (false, svc)) /\
  (forall sub, map_get d (subscriptions svc) = Some sub ->
     fst (cancelSubscription svc d) = true /\
     getSubscriptionByDonorId (snd (cancelSubscription svc d)) d
       = Some (set_isActive sub false) /\
     Subscription.isActive (set_isActive sub false) = false) /\
  cancelSubscription (snd (cancelSubscription svc d)) d
    = cancelSubscription svc d.
Proof.
  unfold cancelSubscription, getSubscriptionByDonorId.
  destruct (map_get d (subscriptions svc)) as [sub|] eqn:E.
  - split; [discriminate|]. split.
    + intros sub' [= <-]. simpl. now rewrite map_get_set_eq.
    + simpl. rewrite map_get_set_eq. unfold with_subscriptions. simpl.
      now rewrite set_isActive_twice, map_set_twice.
  - split; [reflexivity|]. split; [discriminate|].
    simpl. now rewrite E.
Qed.

(** C10.  [cancelSubscription] leaves the transaction ledger, the keys of
    the registry and their order, and the subscription of every other donor
    as they were; the targeted subscription keeps every field except
    [isActive]; and a cancellation that answers false changes nothing. *)
Theorem cancelSubscription_frame (svc : t) (d : string) :
  let svc' := snd (cancelSubscription svc d) in
  transactions svc' = transactions svc /\
  List.map fst (subscriptions svc') = List.map fst (subscriptions svc) /\
  (forall d', d' <> d ->
     map_get d' (subscriptions svc') = map_get d' (subscriptions svc)) /\
  (forall sub, map_get d (subscriptions svc) = Some sub ->
     exists sub', map_get d (subscriptions svc') = Some sub' /\
       Subscription.id sub' = Subscription.id sub /\
       Subscription.donorId sub' = Subscription.donorId sub /\
       Subscription.amount sub' = Subscription.amount sub /\
       Subscription.currency sub' = Subscription.currency sub /\
       Subscription.interval sub' = Subscription.interval sub /\
       Subscription.campaignDescription sub'
         = Subscription.campaignDescription sub /\
       Subscription.tags sub' = Subscription.tags sub /\
       Subscription.summary sub' = Subscription.summary sub /\
       Subscription.createdAt sub' = Subscription.createdAt sub /\
       Subscription.lastChargedAt sub' = Subscription.lastChargedAt sub /\
       Subscription.nextChargeAt sub' = Subscription.nextChargeAt sub) /\
  (fst (cancelSubscription svc d) = false -> svc' = svc).
Proof.
  unfold cancelSubscription.
  destruct (map_get d (subscriptions svc)) as [sub|] eqn:E; simpl.
  - split; [reflexivity|]. split; [exact (map_set_keys_present _ _ _ _ E)|].
    split; [|split].
    + intros d' Hne. apply map_get_set_ne. congruence.
    + intros sub' [= <-]. exists (set_isActive sub false).
      rewrite map_get_set_eq. repeat split.
    + discriminate.
  - repeat split; try reflexivity. discriminate.
Qed.

Section FixedOffset.
Variable tza : Z.



End FixedOffset.

Section WithZone.
Variable zone : Date.Zone.

(** The next charge date is the base date moved on in local time: by one
    day, by seven days, by the 28 to 31 days of a month or by the 365 or
    366 days of a year. *)
Lemma calculateNextChargeDate_local (interval : Interval.t) (base : Z) :
  exists local,
    calculateNextChargeDate zone interval base = Date.UTC zone local /\
    match interval with
    | Interval.daily =>
        local = (Date.LocalTime zone base + Date.msPerDay)%Z
    | Interval.weekly =>
        local = (Date.LocalTime zone base + 7 * Date.msPerDay)%Z
    | Interval.monthly =>
        (Date.LocalTime zone base + 28 * Date.msPerDay <= local
           <= Date.LocalTime zone base + 31 * Date.msPerDay)%Z
    | Interval.yearly =>
        (Date.LocalTime zone base + 365 * Date.msPerDay <= local
           <= Date.LocalTime zone base + 366 * Date.msPerDay)%Z
    end.
Proof.
  destruct interval; unfold calculateNextChargeDate; cbv zeta.
  - eexists. split; [apply DateFacts.setDate_getDate_local|]. lia.
  - eexists. split; [apply DateFacts.setDate_getDate_local|]. reflexivity.
  - apply DateFacts.setMonth_getMonth_local.
  - apply DateFacts.setFullYear_getFullYear_local.
Qed.

(** C5 (amended).  The record returned by [createSubscription] is active
    and stored under its donor, carries the first clock reading as
    [createdAt], and its [nextChargeAt] is the second clock reading, the one
    taken when the date is computed, moved on in the local time of the zone
    by the interval: one day, seven days, a month of 28 to 31 days or a
    year of 365 or 366 days.  For a weekly subscription [nextChargeAt] is
    seven days of 24 hours after the second reading, plus what the offset
    of the zone fell by in between; it is exactly seven days after
    [createdAt] when the offset is the same at both ends and the two
    readings coincide. *)
Theorem createSubscription_schedule (svc : t) (env : CreateEnv)
    (request : SubscriptionRequest.t) :
  let sub := fst (createSubscription zone svc env request) in
  let day := 86400000%Z in
  let reading := scheduleNow env in
  let local := Date.LocalTime zone reading in
  Subscription.isActive sub = true /\
  Subscription.createdAt sub = createdNow env /\
  getSubscriptionByDonorId (snd (createSubscription zone svc env request))
    (SubscriptionRequest.donorId request) = Some sub /\
  (exists local',
      Subscription.nextChargeAt sub = Date.UTC zone local' /\
      match SubscriptionRequest.interval request with
      | Interval.daily => local' = (local + day)%Z
      | Interval.weekly => local' = (local + 7 * day)%Z
      | Interval.monthly => (local + 28 * day <= local' <= local + 31 * day)%Z
      | Interval.yearly =>
          (local + 365 * day <= local' <= local + 366 * day)%Z
      end) /\
  (SubscriptionRequest.interval request = Interval.weekly ->
   Subscription.nextChargeAt sub
     = (reading + 7 * day
        + (Date.offsetAt zone reading
           - Date.offsetOfLocal zone (local + 7 * day)))%Z /\
   (Date.offsetOfLocal zone (local + 7 * day) = Date.offsetAt zone reading ->
    Subscription.nextChargeAt sub = (reading + 7 * day)%Z /\
    (reading = createdNow env ->
     Subscription.nextChargeAt sub
       = (Subscription.createdAt sub + 7 * day)%Z))).
Proof.
  intros sub day reading local. subst sub day reading local. simpl.
  pose proof (calculateNextChargeDate_local
                (SubscriptionRequest.interval request) (scheduleNow env)) as H.
  unfold Date.msPerDay in H.
  split; [reflexivity|]. split; [reflexivity|].
  split; [unfold getSubscriptionByDonorId; simpl; apply map_get_set_eq|].
  split; [exact H|].
  intros Hweekly. rewrite Hweekly in *.
  destruct H as (local' & -> & ->). unfold Date.UTC, Date.LocalTime.
  split; [lia|]. intros Hsame. unfold Date.LocalTime in Hsame.
  rewrite Hsame. split; [lia|]. intros <-. lia.
Qed.

End WithZone.

(** When the clock ticks between the two readings, here by one millisecond,
    [nextChargeAt] is not seven days after [createdAt]. *)
Lemma weekly_not_seven_days_after_createdAt :
  let sub :=
    fst (createSubscription 0%Z create
           (Scenario.createAt 1700000000000 1700000000001)
           Scenario.sampleRequest) in
  Subscription.createdAt sub = 1700000000000%Z /\
  Subscription.nextChargeAt sub = 1700604800001%Z /\
  Subscription.nextChargeAt sub
    <> (Subscription.createdAt sub + 7 * 86400000)%Z.
Proof. vm_compute. repeat split; discriminate. Qed.

End LifecycleFacts.

Lemma cancelSubscription_answers_witness :
  fst (SubscriptionService.cancelSubscription Scenario.oneDonor "donor_1")
    = true /\
  SubscriptionService.cancelSubscription SubscriptionService.create "donor_1"
    = (false, SubscriptionService.create).
Proof.
  split.
  - destruct (LifecycleFacts.cancelSubscription_answers
                Scenario.oneDonor "donor_1") as (_ & Hpresent & _).
    eapply Hpresent. vm_compute. reflexivity.
  - destruct (LifecycleFacts.cancelSubscription_answers
                SubscriptionService.create "donor_1") as (Habsent & _).
    apply Habsent. reflexivity.
Defined.

Lemma cancelSubscription_frame_witness :
  let svc := Scenario.twoDonorsCharged in
  let svc' := snd (SubscriptionService.cancelSubscription svc "donor_1") in
  length (SubscriptionService.transactions svc) = 1%nat /\
  SubscriptionService.transactions svc'
    = SubscriptionService.transactions svc /\
  List.map fst (SubscriptionService.subscriptions svc')
    = ["donor_1"; "donor_2"] /\
  (exists other,
      Subscription.isActive other = true /\
      SubscriptionService.map_get "donor_2"
        (SubscriptionService.subscriptions svc) = Some other /\
      SubscriptionService.map_get "donor_2"
        (SubscriptionService.subscriptions svc') = Some other) /\
  (exists sub',
      SubscriptionService.map_get "donor_1"
        (SubscriptionService.subscriptions svc') = Some sub' /\
      Subscription.amount sub' = 1000 /\
      Subscription.summary sub' = "Clean water for villages" /\
      Subscription.lastChargedAt sub' = Some 604800000%Z /\
      Subscription.nextChargeAt sub' = 1209600000%Z) /\
  snd (SubscriptionService.cancelSubscription svc "donor_3") = svc.
Proof.
  intros svc svc'.
  destruct (LifecycleFacts.cancelSubscription_frame svc "donor_1")
    as (Hledger & Hkeys & Hothers & Hfields & _).
  destruct (LifecycleFacts.cancelSubscription_frame svc "donor_3")
    as (_ & _ & _ & _ & Hmissing).
  fold svc' in Hledger, Hkeys, Hothers, Hfields.
  split; [reflexivity|]. split; [exact Hledger|].
  split; [rewrite Hkeys; reflexivity|]. split; [|split].
  - destruct (SubscriptionService.map_get "donor_2"
                (SubscriptionService.subscriptions svc))
      as [other|] eqn:Hother; [|vm_compute in Hother; discriminate].
    exists other. split; [|split; [reflexivity|]].
    + vm_compute in Hother. injection Hother as <-. reflexivity.
    + rewrite <- Hother. apply Hothers. discriminate.
  - destruct (SubscriptionService.map_get "donor_1"
                (SubscriptionService.subscriptions svc))
      as [sub|] eqn:Hsub; [|vm_compute in Hsub; discriminate].
    destruct (Hfields sub eq_refl)
      as (sub' & Hget & _ & _ & Hamount & _ & _ & _ & _ & Hsummary & _
          & Hlast & Hnext).
    exists sub'. split; [exact Hget|].
    rewrite Hamount, Hsummary, Hlast, Hnext.
    vm_compute in Hsub. injection Hsub as <-. repeat split.
  - apply Hmissing. reflexivity.
Defined.

Lemma createSubscription_schedule_witness :
  Subscription.nextChargeAt
    (fst (SubscriptionService.createSubscription Scenario.easternTime
            SubscriptionService.create
            (Scenario.createAt 1793203200000 1793203200000)
            Scenario.sampleRequest))
  = (1793203200000 + 7 * 86400000 + 3600000)%Z /\
  Subscription.nextChargeAt
    (fst (SubscriptionService.createSubscription 0%Z
            SubscriptionService.create
            (Scenario.createAt 5 5) Scenario.sampleRequest))
  = (Subscription.createdAt
       (fst (SubscriptionService.createSubscription 0%Z
               SubscriptionService.create
               (Scenario.createAt 5 5) Scenario.sampleRequest))
     + 7 * 86400000)%Z.
Proof.
  split.
  - destruct (LifecycleFacts.createSubscription_schedule Scenario.easternTime
                SubscriptionService.create
                (Scenario.createAt 1793203200000 1793203200000)
                Scenario.sampleRequest) as (_ & _ & _ & _ & Hweekly).
    destruct (Hweekly eq_refl) as [Hnext _]. exact Hnext.
  - destruct (LifecycleFacts.createSubscription_schedule 0%Z
                SubscriptionService.create (Scenario.createAt 5 5)
                Scenario.sampleRequest) as (_ & _ & _ & _ & Hweekly).
    destruct (Hweekly eq_refl) as [_ Hsame].
    destruct (Hsame eq_refl) as [_ Hcreated]. apply Hcreated. reflexivity.
Defined.

(** ** The recurrence sweep *)

Module SweepFacts.
Import SubscriptionService Registry RegistryFacts.




Lemma wf_same_subscriptions (svc svc' : t) :
  subscriptions svc' = subscriptions svc -> wf svc -> wf svc'.
Proof. unfold wf. now intros ->. Qed.

Lemma NoDup_keys_filter (f : string * Subscription.t -> bool)
    (m : list (string * Subscription.t)) :
  NoDup (List.map fst m) -> NoDup (List.map fst (List.filter f m)).
Proof.
  induction m as [|kv m IH]; simpl; [auto|].
  intros H. apply NoDup_cons in H as [Hk Hm].
  destruct (f kv); simpl; [|auto].
  apply NoDup_cons. split; [|auto].
  intros Hin. apply Hk.
  apply list_elem_of_In in Hin. apply list_elem_of_In.
  apply List.in_map_iff in Hin as (kv' & <- & Hkv').
  apply List.in_map. apply List.filter_In in Hkv'. tauto.
Qed.

Section WithZone.
Variable zone : Date.Zone.

(** The keys visited by a sweep are distinct. *)
Lemma snapshot_NoDup (svc : t) :
  wf svc -> NoDup (List.map fst (activeEntries svc)).
Proof.
  intros [Hnd _]. unfold activeEntries.
  match goal with |- NoDup (List.map fst (JS.sort ?c ?l)) =>
    rewrite (Permutation_map fst (sort_perm c l)) end.
  apply NoDup_keys_filter, Hnd.
Qed.

(** One charge attempt: one record is appended, for the donor of the
    object; a success reschedules the object, a failure leaves the registry
    as it is. *)
Lemma chargeSubscription_effect (svc : t) (env : ChargeEnv) (key : string)
    (sub : Subscription.t) :
  exists tx,
    transactions (chargeSubscription zone svc env key sub)
      = (transactions svc ++ [tx])%list /\
    SubscriptionTransaction.donorId tx = Subscription.donorId sub /\
    (is_success tx = true ->
       subscriptions (chargeSubscription zone svc env key sub)
         = map_set key
             (set_charged sub (chargedNow env)
                (calculateNextChargeDate zone (Subscription.interval sub)
                   (advanceNow env)))
             (subscriptions svc)) /\
    (is_success tx = false ->
       subscriptions (chargeSubscription zone svc env key sub)
         = subscriptions svc).
Proof.
  unfold chargeSubscription. cbv zeta.
  destruct (JS.gt (random env) 0.05); eexists; simpl;
    (split; [reflexivity|]); (split; [reflexivity|]);
    split; intros H; try reflexivity; discriminate.
Qed.

Lemma chargeSubscription_wf (svc : t) (env : ChargeEnv) (key : string)
    (sub : Subscription.t) :
  wf svc -> map_get key (subscriptions svc) = Some sub ->
  wf (chargeSubscription zone svc env key sub).
Proof.
  intros Hwf Hk. unfold chargeSubscription. cbv zeta.
  destruct (JS.gt (random env) 0.05).
  - apply wf_map_set; [exact Hwf|]. simpl. eapply wf_donorId; eauto.
  - eapply wf_same_subscriptions; [|exact Hwf]. reflexivity.
Qed.

(** A charge attempt on one key leaves the objects of the other keys. *)
Lemma chargeSubscription_other (svc : t) (env : ChargeEnv) (key d : string)
    (sub : Subscription.t) :
  d <> key ->
  map_get d (subscriptions (chargeSubscription zone svc env key sub))
    = map_get d (subscriptions svc).
Proof.
  intros Hne. unfold chargeSubscription. cbv zeta.
  destruct (JS.gt (random env) 0.05); simpl; [|reflexivity].
  apply map_get_set_ne. congruence.
Qed.


(** Each operation keeps the registry invariant. *)
Lemma createSubscription_wf (svc : t) (env : CreateEnv)
    (request : SubscriptionRequest.t) :
  wf svc -> wf (snd (createSubscription zone svc env request)).
Proof. intros Hwf. simpl. now apply wf_map_set. Qed.

Lemma cancelSubscription_wf (svc : t) (d : string) :
  wf svc -> wf (snd (cancelSubscription svc d)).
Proof.
  intros Hwf. unfold cancelSubscription.
  destruct (map_get d (subscriptions svc)) as [sub|] eqn:E; [|exact Hwf].
  simpl. apply wf_map_set; [exact Hwf|]. simpl. eapply wf_donorId; eauto.
Qed.

Lemma processRecurringCharges_wf (svc : t) (now : Z) (envs : nat -> ChargeEnv) :
  wf svc -> wf (processRecurringCharges zone svc now envs).
Proof.
  intros Hwf. unfold processRecurringCharges. cbv zeta.
  generalize 0%nat. generalize (List.map fst (activeEntries svc)).
  intros ks. revert svc Hwf.
  induction ks as [|key rest IH]; intros svc Hwf k; simpl; [exact Hwf|].
  destruct (map_get key (subscriptions svc)) as [sub|] eqn:E; [|now apply IH].
  destruct (now >=? Subscription.nextChargeAt sub)%Z; [|now apply IH].
  apply IH. now apply chargeSubscription_wf.
Qed.

(** The registry invariant holds in every reachable state. *)
Lemma reachable_wf (svc : t) : reachable zone svc -> wf svc.
Proof.
  induction 1.
  - apply wf_create.
  - now apply createSubscription_wf.
  - now apply cancelSubscription_wf.
  - now apply processRecurringCharges_wf.
  - apply wf_create.
Qed.

End WithZone.

(** Local time at a constant offset [tza] from UTC: a charge date moved on
    by an interval is then later than the instant it is moved from. *)
Section FixedOffset.
Variable tza : Z.

Section OneSweep.
Variable now : Z.
Variable envs : nat -> ChargeEnv.
(** No time passes during the sweep: the base date of every rescheduling is
    the instant the sweep started. *)
Hypothesis no_time_elapsed : forall j, advanceNow (envs j) = now.





End OneSweep.




End FixedOffset.

Lemma wf_oneDonor : wf Scenario.oneDonor.
Proof. apply (reachable_wf 0%Z). repeat constructor. Qed.


End SweepFacts.


(** * Further properties of the services *)

(** ** Strings *)

Module StringFacts.

Lemma append_cons (c : ascii) (a b : string) :
  String c a ++ b = String c (a ++ b).
Proof. reflexivity. Qed.

Lemma append_nil_l (s : string) : "" ++ s = s.
Proof. reflexivity. Qed.

Lemma append_nil_r (s : string) : s ++ "" = s.
Proof.
  induction s as [|c s IH]; [reflexivity|]. now rewrite append_cons, IH.
Qed.

Lemma append_assoc (a b c : string) : (a ++ b) ++ c = a ++ (b ++ c).
Proof.
  induction a as [|x a IH]; [reflexivity|]. now rewrite !append_cons, IH.
Qed.

Lemma length_append (a b : string) :
  String.length (a ++ b) = (String.length a + String.length b)%nat.
Proof.
  induction a as [|x a IH]; [reflexivity|].
  rewrite append_cons. simpl. now rewrite IH.
Qed.

Lemma length_substring_0 (n : nat) (s : string) :
  String.length (substring 0 n s) = Nat.min n (String.length s).
Proof.
  revert s. induction n as [|n IH]; intros [|c s]; simpl; try reflexivity.
  now rewrite IH.
Qed.

(** [needle] starts [hay] exactly when [hay] is [needle] followed by
    something. *)
Lemma prefix_spec (needle hay : string) :
  String.prefix needle hay = true <-> exists post, hay = needle ++ post.
Proof.
  revert hay. induction needle as [|c needle IH]; intros hay.
  - split; [intros _; now exists hay | now destruct hay].
  - destruct hay as [|d hay]; simpl.
    + split; [discriminate | intros [post H]; discriminate].
    + destruct (ascii_dec c d) as [->|Hne].
      * rewrite IH. split; intros [post H]; exists post.
        -- now rewrite append_cons, H.
        -- rewrite append_cons in H. congruence.
      * split; [discriminate | intros [post H]].
        rewrite append_cons in H. congruence.
Qed.

(** [hay.includes(needle)] holds exactly when [needle] occurs in [hay]. *)
Lemma includes_spec (hay needle : string) :
  JS.includes hay needle = true <->
  exists pre post, hay = pre ++ needle ++ post.
Proof.
  induction hay as [|c hay IH].
  - change (JS.includes "" needle)
      with (if String.prefix needle "" then true else false).
    destruct (String.prefix needle "") eqn:E.
    + split; [intros _ | reflexivity].
      apply prefix_spec in E as [post E]. now exists "", post.
    + split; [discriminate|]. intros (pre & post & H).
      destruct pre; [|discriminate]. rewrite append_nil_l in H.
      assert (String.prefix needle "" = true) by (apply prefix_spec; eauto).
      congruence.
  - change (JS.includes (String c hay) needle)
      with (if String.prefix needle (String c hay) then true
            else JS.includes hay needle).
    destruct (String.prefix needle (String c hay)) eqn:E.
    + split; [intros _ | reflexivity].
      apply prefix_spec in E as [post E]. now exists "", post.
    + rewrite IH. split.
      * intros (pre & post & ->). now exists (String c pre), post.
      * intros (pre & post & H). destruct pre as [|d pre].
        -- rewrite append_nil_l in H.
           assert (String.prefix needle (String c hay) = true)
             by (apply prefix_spec; eauto).
           congruence.
        -- rewrite append_cons in H. injection H as _ ->.
           now exists pre, post.
Qed.

(** Occurrence is transitive: what occurs in a part occurs in the whole. *)
Lemma includes_trans (hay mid needle : string) :
  JS.includes hay mid = true -> JS.includes mid needle = true ->
  JS.includes hay needle = true.
Proof.
  rewrite !includes_spec. intros (p1 & q1 & ->) (p2 & q2 & ->).
  exists (p1 ++ p2), (q2 ++ q1). now rewrite !append_assoc.
Qed.

End StringFacts.

(** ** Scores, labels and routes of one request *)

Module ScoringFacts.
Import FraudDetectionService.

Ltac js_cases :=
  repeat (match goal with
          | |- context [JS.le ?a ?b] => js_case a b
          | |- context [JS.lt ?a ?b] => js_case a b
          end; cbv iota).

Lemma clamp_monotone (x y : Q) :
  x <= y ->
  JS.Math_min (JS.Math_max x 0) 1 <= JS.Math_min (JS.Math_max y 0) 1.
Proof.
  intros H. unfold JS.Math_min, JS.Math_max.
  js_case x 0; js_case y 0; cbv iota; js_cases; lra.
Qed.

Lemma clamp_between (x lo hi : Q) :
  0 <= lo -> hi <= 1 -> lo <= x <= hi ->
  lo <= JS.Math_min (JS.Math_max x 0) 1 <= hi.
Proof.
  intros H0 H1 H. unfold JS.Math_min, JS.Math_max.
  js_case x 0; cbv iota; js_cases; lra.
Qed.

Lemma clamp_below (x hi : Q) :
  0 <= x < hi -> JS.Math_min (JS.Math_max x 0) 1 < hi.
Proof.
  intros H. unfold JS.Math_min, JS.Math_max.
  js_case x 0; cbv iota; js_cases; lra.
Qed.

Lemma calculateAmountRisk_monotone (rules : FraudRules.t) (a b : Q) :
  a <= b -> calculateAmountRisk rules a <= calculateAmountRisk rules b.
Proof.
  intros H. unfold calculateAmountRisk, JS.gt. js_cases; lra.
Qed.

(** A source that contains [tok_test] contains [test]: the second test of
    [calculateSourceRisk] adds nothing to the first. *)
Lemma calculateSourceRisk_test (source : string) :
  calculateSourceRisk source
    = if JS.includes source "test" then 0.1 else 0.
Proof.
  unfold calculateSourceRisk.
  destruct (JS.includes source "test") eqn:E; [reflexivity|].
  destruct (JS.includes source "tok_test") eqn:E'; [|reflexivity].
  rewrite (StringFacts.includes_trans source "tok_test" "test" E' eq_refl)
    in E.
  discriminate.
Qed.

(** Each label is in the list exactly when its test succeeded. *)
Lemma getRiskFactors_In (rules : FraudRules.t) (request : ChargeRequest.t) :
  (In "large amount" (getRiskFactors rules request) <->
   JS.gt (ChargeRequest.amount request)
         (FraudRules.highRiskAmountThreshold rules) = true) /\
  (In "suspicious email domain" (getRiskFactors rules request) <->
   hasSuspiciousDomain rules (ChargeRequest.email request) = true) /\
  (In "non-USD currency" (getRiskFactors rules request) <->
   String.eqb (ChargeRequest.currency request) "USD" = false) /\
  (In "test payment source" (getRiskFactors rules request) <->
   JS.includes (ChargeRequest.source request) "test" = true).
Proof.
  unfold getRiskFactors. cbv zeta.
  destruct (JS.gt _ _), (hasSuspiciousDomain _ _), (String.eqb _ "USD"),
    (JS.includes _ "test");
    cbn; repeat split; intros; try reflexivity; try discriminate;
    intuition (try discriminate; try reflexivity).
Qed.

(** X1.  The amount component of the score never decreases when the amount
    grows, whatever the rules, and neither does the score of a request
    when only its amount grows and the random draw is the same. *)
Theorem riskScore_monotone_in_amount (rules : FraudRules.t) (random a b : Q)
    (currency source email : string) :
  a <= b ->
  calculateAmountRisk rules a <= calculateAmountRisk rules b /\
  calculateRiskScore rules random (Scenario.request a currency source email)
    <= calculateRiskScore rules random
         (Scenario.request b currency source email).
Proof.
  intros H. pose proof (calculateAmountRisk_monotone rules a b H) as Hm.
  split; [exact Hm|].
  unfold calculateRiskScore. cbv zeta. simpl.
  apply clamp_monotone. lra.
Qed.

(** X2.  The labels of [getRiskFactors] and the components of the score
    agree for the amount, the mail domain and the source: the label is
    listed exactly when the component has its highest value. *)
Theorem riskFactors_agree_with_scoring (rules : FraudRules.t)
    (request : ChargeRequest.t) :
  (In "large amount" (getRiskFactors rules request) <->
   calculateAmountRisk rules (ChargeRequest.amount request) = 0.4) /\
  (In "suspicious email domain" (getRiskFactors rules request) <->
   calculateDomainRisk rules (ChargeRequest.email request) = 0.3) /\
  (In "test payment source" (getRiskFactors rules request) <->
   calculateSourceRisk (ChargeRequest.source request) = 0.1).
Proof.
  destruct (getRiskFactors_In rules request) as (Ha & Hd & _ & Hs).
  rewrite Ha, Hd, Hs, calculateSourceRisk_test.
  unfold calculateAmountRisk, calculateDomainRisk.
  repeat match goal with
         | |- context [if ?c then _ else _] => destruct c
         end;
    repeat split; intros; try reflexivity; discriminate.
Qed.

(** X3.  A currency that adds to the score is always labelled.  For the
    currencies that request validation lets through the converse holds
    too, and the addition is nothing for USD, 0.15 for CNY and 0.05 for the
    other eight. *)
Theorem currency_label_and_risk (rules : FraudRules.t)
    (request : ChargeRequest.t) :
  let currency := ChargeRequest.currency request in
  (0 < calculateCurrencyRisk currency ->
   In "non-USD currency" (getRiskFactors rules request)) /\
  (Schemas.supportedCurrencySchema currency = true ->
   (In "non-USD currency" (getRiskFactors rules request) ->
    0 < calculateCurrencyRisk currency) /\
   calculateCurrencyRisk currency
     = if String.eqb currency "USD" then 0
       else if String.eqb currency "CNY" then 0.15 else 0.05).
Proof.
  intros c.
  destruct (getRiskFactors_In rules request) as (_ & _ & Hc & _).
  fold c in Hc. rewrite Hc. clearbody c. clear Hc. split.
  - intros Hpos. destruct (String.eqb_spec c "USD") as [E|];
      [subst c | reflexivity].
    vm_compute in Hpos. discriminate.
  - unfold Schemas.supportedCurrencySchema, JS.array_includes,
      Schemas.SUPPORTED_CURRENCIES.
    simpl existsb. intros H.
    repeat (apply orb_true_iff in H; destruct H as [H|H]);
      try discriminate;
      apply String.eqb_eq in H; subst c;
      (split; [intros E; vm_compute in E; try discriminate; reflexivity
              | reflexivity]).
Qed.

(** X4.  A request without any label scores at most 0.3 when the random
    draw is in its range, and so goes to stripe under any rules whose
    stripe threshold is at least 0.3 and whose blocking threshold is above
    0.3, the shipped ones among them.  The bound is not strict and the
    blocking threshold is kept away from it: the sum of the draw's share
    and an amount risk of 0.2 comes as close to 0.3 as the draw comes to 1,
    and in floating point it can round to 0.3 itself. *)
Theorem unlabelled_request_goes_to_stripe (rules : FraudRules.t)
    (random : Q) (request : ChargeRequest.t) :
  0 <= random < 1 ->
  0.3 <= FraudRules.stripeThreshold rules ->
  0.3 < FraudRules.blockingThreshold rules ->
  getRiskFactors rules request = [] ->
  calculateRiskScore rules random request <= 0.3 /\
  determineProvider rules (calculateRiskScore rules random request)
    = Provider.stripe.
Proof.
  intros Hr Hs Hb Hnone.
  destruct (getRiskFactors_In rules request) as (Ha & Hd & Hc & Ht).
  rewrite Hnone in Ha, Hd, Hc, Ht. simpl in Ha, Hd, Hc, Ht.
  assert (Hlow : calculateRiskScore rules random request < 0.3).
  { unfold calculateRiskScore. cbv zeta. apply clamp_below.
    rewrite calculateSourceRisk_test.
    unfold calculateAmountRisk, calculateDomainRisk.
    destruct (JS.gt (ChargeRequest.amount request) _);
      [exfalso; now apply Ha|].
    destruct (hasSuspiciousDomain rules _); [exfalso; now apply Hd|].
    destruct (JS.includes _ "test"); [exfalso; now apply Ht|].
    destruct (String.eqb_spec (ChargeRequest.currency request) "USD")
      as [->|]; [|exfalso; now apply Hc].
    change (calculateCurrencyRisk "USD") with 0.
    unfold JS.gt. js_cases; lra. }
  split; [lra|].
  destruct (determineProvider_bands rules
              (calculateRiskScore rules random request)) as (_ & H & _).
  apply H; lra.
Qed.

(** X5.  A request labelled both for its amount and for its mail domain
    scores at least 0.7 when the random draw is not negative, and so is
    blocked under any rules whose blocking threshold is at most 0.7. *)
Theorem large_amount_and_suspicious_domain_blocked (rules : FraudRules.t)
    (random : Q) (request : ChargeRequest.t) :
  0 <= random ->
  FraudRules.blockingThreshold rules <= 0.7 ->
  In "large amount" (getRiskFactors rules request) ->
  In "suspicious email domain" (getRiskFactors rules request) ->
  0.7 <= calculateRiskScore rules random request /\
  determineProvider rules (calculateRiskScore rules random request)
    = Provider.blocked.
Proof.
  intros Hr Hb Hla Hsd.
  destruct (getRiskFactors_In rules request) as (Ha & Hd & _ & _).
  apply Ha in Hla. apply Hd in Hsd.
  assert (Hhigh : 0.7 <= calculateRiskScore rules random request).
  { unfold calculateRiskScore. cbv zeta.
    pose proof (calculateCurrencyRisk_range
                  (ChargeRequest.currency request)).
    pose proof (calculateSourceRisk_range (ChargeRequest.source request)).
    unfold calculateAmountRisk, calculateDomainRisk. rewrite Hla, Hsd.
    match goal with |- _ <= JS.Math_min (JS.Math_max ?x 0) 1 =>
      assert (Hx : 0.7 <= x) by lra; generalize dependent x;
      intros score Hscore
    end.
    unfold JS.Math_min, JS.Math_max.
    js_case score 0; cbv iota; js_cases; lra. }
  split; [exact Hhigh|].
  destruct (determineProvider_bands rules
              (calculateRiskScore rules random request)) as (H & _).
  apply H. lra.
Qed.

End ScoringFacts.

Lemma riskScore_monotone_in_amount_witness :
  FraudDetectionService.calculateRiskScore FraudDetectionService.fraudRules
    0.5 (Scenario.request 500 "USD" "tok_visa" "user@gmail.com")
  <= FraudDetectionService.calculateRiskScore FraudDetectionService.fraudRules
       0.5 (Scenario.request 60000 "USD" "tok_visa" "user@gmail.com").
Proof.
  assert (H : 500 <= 60000) by lra.
  exact (proj2 (ScoringFacts.riskScore_monotone_in_amount
                  FraudDetectionService.fraudRules 0.5 500 60000
                  "USD" "tok_visa" "user@gmail.com" H)).
Defined.

Lemma currency_label_and_risk_witness :
  In "non-USD currency"
     (FraudDetectionService.getRiskFactors FraudDetectionService.fraudRules
        (Scenario.request 500 "EUR" "tok_visa" "user@gmail.com")) /\
  FraudDetectionService.calculateCurrencyRisk "EUR" = 0.05.
Proof.
  destruct (ScoringFacts.currency_label_and_risk
              FraudDetectionService.fraudRules
              (Scenario.request 500 "EUR" "tok_visa" "user@gmail.com"))
    as [Hlabel Hsupported].
  split.
  - apply Hlabel. reflexivity.
  - destruct (Hsupported eq_refl) as [_ Hrisk]. exact Hrisk.
Defined.

Lemma unlabelled_request_goes_to_stripe_witness :
  FraudDetectionService.determineProvider FraudDetectionService.fraudRules
    (FraudDetectionService.calculateRiskScore
       FraudDetectionService.fraudRules 0.5 Scenario.smallCharge)
    = Provider.stripe.
Proof.
  assert (Hr : 0 <= 0.5 < 1) by lra.
  assert (Hs : 0.3 <= FraudRules.stripeThreshold
                        FraudDetectionService.fraudRules) by (simpl; lra).
  assert (Hb : 0.3 < FraudRules.blockingThreshold
                       FraudDetectionService.fraudRules) by (simpl; lra).
  exact (proj2 (ScoringFacts.unlabelled_request_goes_to_stripe
                  FraudDetectionService.fraudRules 0.5 Scenario.smallCharge
                  Hr Hs Hb eq_refl)).
Defined.

Lemma large_amount_and_suspicious_domain_blocked_witness :
  FraudDetectionService.determineProvider FraudDetectionService.fraudRules
    (FraudDetectionService.calculateRiskScore
       FraudDetectionService.fraudRules 0
       (Scenario.request 60000 "USD" "tok_visa" "user@evil.ru"))
    = Provider.blocked.
Proof.
  assert (Hr : 0 <= 0) by lra.
  assert (Hb : FraudRules.blockingThreshold
                 FraudDetectionService.fraudRules <= 0.7) by (simpl; lra).
  refine (proj2 (ScoringFacts.large_amount_and_suspicious_domain_blocked
                   FraudDetectionService.fraudRules 0
                   (Scenario.request 60000 "USD" "tok_visa" "user@evil.ru")
                   Hr Hb _ _)).
  - vm_compute. left. reflexivity.
  - vm_compute. right. left. reflexivity.
Defined.

(** ** The explanation cache beyond one hit and one miss *)

Module ExplanationFacts.
Import LLMService.

(** A read touches no key but its own. *)
Lemma getFromCache_frame (svc : t) (now : Z) (key k : string) :
  k <> key ->
  cache (snd (getFromCache svc now key)) !! k = cache svc !! k.
Proof.
  intros Hne. unfold getFromCache.
  destruct (cache svc !! key) as [e|]; [|reflexivity].
  destruct (expired now e); [|reflexivity].
  simpl. now rewrite lookup_delete_ne.
Qed.

(** After a read that gave no usable text, whatever is stored under the
    key is an empty text. *)
Lemma getFromCache_miss (svc : t) (now : Z) (key : string) :
  match fst (getFromCache svc now key) with
  | Some text => JS.truthy text = false
  | None => True
  end ->
  match cache (snd (getFromCache svc now key)) !! key with
  | Some e => JS.truthy (CacheEntry.response e) = false
  | None => True
  end.
Proof.
  unfold getFromCache.
  destruct (cache svc !! key) as [e|] eqn:Hk; simpl; [|now rewrite Hk].
  destruct (expired now e); simpl.
  - now rewrite lookup_delete_eq.
  - now rewrite Hk.
Qed.

(** A read of a key holding nothing usable gives nothing usable. *)
Lemma getFromCache_unusable (svc : t) (now : Z) (key : string) :
  match cache svc !! key with
  | Some e => JS.truthy (CacheEntry.response e) = false
  | None => True
  end ->
  match fst (getFromCache svc now key) with
  | Some text => JS.truthy text = false
  | None => True
  end.
Proof.
  unfold getFromCache.
  destruct (cache svc !! key) as [e|]; simpl; [|trivial].
  now destruct (expired now e).
Qed.

Section OneRequest.
Variable stringify : Q -> string -> list string -> string.
Variable request : ChargeRequest.t.
Variable riskScore : Q.
Variable provider : string.
Variable riskFactors : list string.

Let key : string :=
  createCacheKey stringify "payment" riskScore provider riskFactors.
Let prompt : string :=
  createPaymentPrompt request riskScore provider riskFactors.
Let fallback : string :=
  generateFallbackExplanation riskScore provider riskFactors.
Let explain (svc : t) (now : Z) (llm : string -> Completion) (now' : Z)
  : string * t * list string :=
  generatePaymentExplanation stringify svc now llm now'
    request riskScore provider riskFactors.

(** The request as a function of what the read of the cache gave. *)
Lemma explain_online (svc : t) (now : Z) (llm : string -> Completion)
    (now' : Z) :
  enableLLM svc = true -> openai svc = true ->
  explain svc now llm now'
    = let svc' := snd (getFromCache svc now key) in
      match fst (getFromCache svc now key) with
      | Some (String c r) => (String c r, svc', [])
      | _ =>
          match llm prompt with
          | Responds content =>
              let trimmed := match content with
                             | Some c => JS.trim c
                             | None => ""
                             end in
              let explanation :=
                if JS.truthy trimmed then trimmed else fallback in
              (explanation, setCache svc' now' key explanation, [prompt])
          | Throws => (fallback, svc', [prompt])
          end
      end.
Proof.
  intros Hen Hcl. unfold explain, generatePaymentExplanation.
  rewrite Hen, Hcl. simpl negb. simpl orb. cbv iota. fold key.
  destruct (getFromCache svc now key) as [[[|c r]|] svc']; reflexivity.
Qed.

(** X6.  The explanation returned is never the empty text, whatever the
    configuration, the cache and the generator's answer. *)
Theorem generatePaymentExplanation_not_empty (svc : t) (now : Z)
    (llm : string -> Completion) (now' : Z) :
  JS.truthy (fst (fst (explain svc now llm now'))) = true.
Proof.
  pose proof (CacheFacts.fallback_truthy riskScore provider riskFactors)
    as Hfb. fold fallback in Hfb.
  destruct (enableLLM svc) eqn:Hen; [destruct (openai svc) eqn:Hcl|].
  - rewrite (explain_online svc now llm now' Hen Hcl). cbv zeta.
    destruct (fst (getFromCache svc now key)) as [[|c r]|];
      try reflexivity;
      (destruct (llm prompt) as [|content]; simpl; [exact Hfb|];
       match goal with |- context [JS.truthy ?x] =>
         destruct (JS.truthy x) eqn:E; [exact E | exact Hfb] end).
  - unfold explain.
    rewrite (CacheFacts.explain_offline stringify request riskScore provider
               riskFactors svc now llm now' (or_intror Hcl)).
    exact Hfb.
  - unfold explain.
    rewrite (CacheFacts.explain_offline stringify request riskScore provider
               riskFactors svc now llm now' (or_introl Hen)).
    exact Hfb.
Qed.

(** X7.  A request that is sent and whose call throws is answered with the
    fallback text and leaves the cache as the read left it, so nothing
    stands in the way of the next request: it sends the prompt again. *)
Theorem thrown_call_leaves_no_trace (svc : t) (now : Z)
    (llm : string -> Completion) (now' : Z) :
  enableLLM svc = true -> openai svc = true ->
  llm prompt = Throws ->
  snd (explain svc now llm now') <> [] ->
  let r := explain svc now llm now' in
  fst (fst r) = fallback /\ snd r = [prompt] /\
  snd (fst r) = snd (getFromCache svc now key) /\
  (forall now2 llm2 w2,
      snd (explain (snd (fst r)) now2 llm2 w2) = [prompt]).
Proof.
  intros Hen Hcl Hllm Hsent r. subst r. revert Hsent.
  rewrite (explain_online svc now llm now' Hen Hcl). cbv zeta.
  pose proof (CacheFacts.getFromCache_config svc now key) as (_ & Hen' & Hcl').
  rewrite Hen in Hen'. rewrite Hcl in Hcl'.
  pose proof (getFromCache_miss svc now key) as Hmiss.
  assert (Hnext : match fst (getFromCache svc now key) with
                  | Some text => JS.truthy text = false
                  | None => True
                  end ->
                  forall now2 llm2 w2,
                    snd (explain (snd (getFromCache svc now key))
                           now2 llm2 w2) = [prompt]).
  { intros Hu now2 llm2 w2.
    rewrite (explain_online _ now2 llm2 w2 Hen' Hcl'). cbv zeta.
    pose proof (getFromCache_unusable _ now2 key (Hmiss Hu)) as Hu2.
    destruct (fst (getFromCache (snd (getFromCache svc now key)) now2 key))
      as [[|c r]|]; try discriminate; destruct (llm2 prompt); reflexivity. }
  destruct (fst (getFromCache svc now key)) as [[|c r]|];
    rewrite ?Hllm; simpl; intros Hsent; try congruence;
    (repeat split; [apply Hnext; easy]).
Qed.

(** X8.  When the generator answers with no content, or with white space
    only, the fallback text is returned and is the text written to the
    cache; until that entry expires the same request is answered with it
    from the cache, without a call. *)
Theorem blank_reply_caches_fallback (svc : t) (now : Z)
    (llm : string -> Completion) (now' : Z) (content : option string) :
  enableLLM svc = true -> openai svc = true ->
  llm prompt = Responds content ->
  JS.truthy (match content with Some c => JS.trim c | None => "" end)
    = false ->
  snd (explain svc now llm now') <> [] ->
  let r := explain svc now llm now' in
  fst (fst r) = fallback /\
  cache (snd (fst r)) !! key
    = Some {| CacheEntry.response := fallback;
              CacheEntry.timestamp := now';
              CacheEntry.ttl := cacheTTL svc |} /\
  (forall now2 llm2 w2,
      (now2 - now' <= cacheTTL svc)%Z ->
      explain (snd (fst r)) now2 llm2 w2 = (fallback, snd (fst r), [])).
Proof.
  intros Hen Hcl Hllm Hblank Hsent r.
  pose proof (CacheFacts.getFromCache_config svc now key) as (Httl & Hen' & Hcl').
  rewrite Hen in Hen'. rewrite Hcl in Hcl'.
  assert (Hr : r = (fallback,
                    setCache (snd (getFromCache svc now key)) now' key
                             fallback, [prompt])).
  { subst r. revert Hsent.
    rewrite (explain_online svc now llm now' Hen Hcl). cbv zeta.
    destruct (fst (getFromCache svc now key)) as [[|c r]|];
      rewrite ?Hllm, ?Hblank; simpl; congruence. }
  rewrite Hr. simpl.
  assert (Hentry :
    cache (setCache (snd (getFromCache svc now key)) now' key fallback)
      !! key
    = Some {| CacheEntry.response := fallback;
              CacheEntry.timestamp := now';
              CacheEntry.ttl := cacheTTL svc |}).
  { unfold setCache. simpl. now rewrite lookup_insert_eq, Httl. }
  split; [reflexivity|]. split; [exact Hentry|].
  intros now2 llm2 w2 Hlive.
  assert (Hen2 : enableLLM (setCache (snd (getFromCache svc now key)) now'
                              key fallback) = true) by exact Hen'.
  assert (Hcl2 : openai (setCache (snd (getFromCache svc now key)) now'
                           key fallback) = true) by exact Hcl'.
  exact (CacheFacts.explain_hit stringify request riskScore provider
           riskFactors _ now2 llm2 w2 _ Hen2 Hcl2 Hentry Hlive
           (CacheFacts.fallback_truthy riskScore provider riskFactors)).
Qed.

(** X9.  An explanation request changes the cache at no key but its own
    and leaves the configuration of the service alone. *)
Theorem explanation_touches_one_key (svc : t) (now : Z)
    (llm : string -> Completion) (now' : Z) (k : string) :
  k <> key ->
  let svc' := snd (fst (explain svc now llm now')) in
  cache svc' !! k = cache svc !! k /\
  cacheTTL svc' = cacheTTL svc /\
  enableLLM svc' = enableLLM svc /\ openai svc' = openai svc.
Proof.
  intros Hne svc'. subst svc'.
  pose proof (getFromCache_frame svc now key k Hne) as Hframe.
  pose proof (CacheFacts.getFromCache_config svc now key) as (Httl & Hen' & Hcl').
  assert (Hset : forall text,
    let s := setCache (snd (getFromCache svc now key)) now' key text in
    cache s !! k = cache svc !! k /\ cacheTTL s = cacheTTL svc /\
    enableLLM s = enableLLM svc /\ openai s = openai svc).
  { intros text. unfold setCache. simpl.
    rewrite lookup_insert_ne by congruence. easy. }
  destruct (enableLLM svc) eqn:Hen; [destruct (openai svc) eqn:Hcl|].
  - rewrite (explain_online svc now llm now' Hen Hcl). cbv zeta.
    destruct (fst (getFromCache svc now key)) as [[|c r]|];
      try (simpl; easy);
      (destruct (llm prompt) as [|content]; [simpl; easy | apply Hset]).
  - unfold explain.
    rewrite (CacheFacts.explain_offline stringify request riskScore provider
               riskFactors svc now llm now' (or_intror Hcl)).
    simpl. easy.
  - unfold explain.
    rewrite (CacheFacts.explain_offline stringify request riskScore provider
               riskFactors svc now llm now' (or_introl Hen)).
    simpl. easy.
Qed.

End OneRequest.

(** X10.  The sweep of the cache keeps exactly the entries that have not
    expired, and a sweep followed by a later one leaves what the later
    one alone would leave. *)
Theorem clearExpiredCache_sweeps (svc : t) (now now' : Z) :
  (now <= now')%Z ->
  (forall k e,
      cache (clearExpiredCache svc now) !! k = Some e <->
      cache svc !! k = Some e /\
      (now - CacheEntry.timestamp e <= CacheEntry.ttl e)%Z) /\
  clearExpiredCache (clearExpiredCache svc now) now'
    = clearExpiredCache svc now'.
Proof.
  intros Hle.
  assert (Hexp : forall t0 e, expired t0 e = true <->
            (t0 - CacheEntry.timestamp e > CacheEntry.ttl e)%Z).
  { intros t0 e. unfold expired. rewrite Z.gtb_gt. lia. }
  split.
  - intros k e. rewrite CacheFacts.clearExpiredCache_lookup.
    destruct (cache svc !! k) as [e0|]; [|split; [discriminate | easy]].
    destruct (expired now e0) eqn:E.
    + apply Hexp in E. split; [discriminate|].
      intros [[= ->] Hlive]. lia.
    + split; intros H.
      * injection H as ->. split; [reflexivity|].
        destruct (Z_gt_dec (now - CacheEntry.timestamp e) (CacheEntry.ttl e))
          as [Hgt|]; [|lia].
        apply Hexp in Hgt. congruence.
      * destruct H as [H _]. exact H.
  - assert (Hext : forall a b : t,
              openai a = openai b -> cache a = cache b ->
              cacheTTL a = cacheTTL b -> enableLLM a = enableLLM b -> a = b).
    { intros [] []; simpl; congruence. }
    apply Hext; try reflexivity.
    apply map_eq. intros k. rewrite !CacheFacts.clearExpiredCache_lookup.
    destruct (cache svc !! k) as [e|]; [|reflexivity].
    destruct (expired now e) eqn:E; [|reflexivity].
    destruct (expired now' e) eqn:E'; [reflexivity|].
    apply Hexp in E.
    assert (~ (now' - CacheEntry.timestamp e > CacheEntry.ttl e)%Z)
      by (rewrite <- Hexp; congruence).
    lia.
Qed.

End ExplanationFacts.

Lemma thrown_call_leaves_no_trace_witness :
  let r :=
    LLMService.generatePaymentExplanation Scenario.sampleKey Scenario.online
      0 (fun _ => Throws) 0 Scenario.smallCharge 0.1 "stripe" [] in
  fst (fst r) = LLMService.generateFallbackExplanation 0.1 "stripe" [] /\
  snd (LLMService.generatePaymentExplanation Scenario.sampleKey
         (snd (fst r)) 1 (fun _ => Throws) 1
         Scenario.smallCharge 0.1 "stripe" [])
    = [LLMService.createPaymentPrompt Scenario.smallCharge 0.1 "stripe" []].
Proof.
  intros r.
  assert (Hsent :
    snd (LLMService.generatePaymentExplanation Scenario.sampleKey
           Scenario.online 0 (fun _ => Throws) 0
           Scenario.smallCharge 0.1 "stripe" []) <> [])
    by (vm_compute; discriminate).
  destruct (ExplanationFacts.thrown_call_leaves_no_trace Scenario.sampleKey
              Scenario.smallCharge 0.1 "stripe" [] Scenario.online 0
              (fun _ => Throws) 0 eq_refl eq_refl eq_refl Hsent)
    as (Htext & _ & _ & Hagain).
  split; [exact Htext | exact (Hagain 1%Z (fun _ => Throws) 1%Z)].
Defined.

Lemma blank_reply_caches_fallback_witness :
  let blank := fun _ : string => Responds (Some "   ") in
  let r :=
    LLMService.generatePaymentExplanation Scenario.sampleKey Scenario.online
      0 blank 0 Scenario.smallCharge 0.1 "stripe" [] in
  fst (fst r) = LLMService.generateFallbackExplanation 0.1 "stripe" [] /\
  LLMService.generatePaymentExplanation Scenario.sampleKey
    (snd (fst r)) 300000 blank 300000 Scenario.smallCharge 0.1 "stripe" []
    = (LLMService.generateFallbackExplanation 0.1 "stripe" [],
       snd (fst r), []).
Proof.
  intros blank r.
  assert (Hsent :
    snd (LLMService.generatePaymentExplanation Scenario.sampleKey
           Scenario.online 0 blank 0
           Scenario.smallCharge 0.1 "stripe" []) <> [])
    by (vm_compute; discriminate).
  destruct (ExplanationFacts.blank_reply_caches_fallback Scenario.sampleKey
              Scenario.smallCharge 0.1 "stripe" [] Scenario.online 0
              blank 0 (Some "   ") eq_refl eq_refl eq_refl eq_refl Hsent)
    as (Htext & _ & Hagain).
  split; [exact Htext|].
  apply (Hagain 300000%Z blank 300000%Z). simpl. lia.
Defined.

Lemma explanation_touches_one_key_witness :
  let svc :=
    LLMService.setCache Scenario.online 0 "campaign_x" "kept" in
  let svc' :=
    snd (fst (LLMService.generatePaymentExplanation Scenario.sampleKey svc
                1 (fun _ => Responds (Some "Low risk.")) 1
                Scenario.smallCharge 0.1 "stripe" [])) in
  LLMService.cache svc' !! "campaign_x"
    = LLMService.cache svc !! "campaign_x".
Proof.
  intros svc svc'.
  assert (Hne : "campaign_x"
                <> LLMService.createCacheKey Scenario.sampleKey "payment"
                     0.1 "stripe" [])
    by (intros H; vm_compute in H; discriminate H).
  destruct (ExplanationFacts.explanation_touches_one_key Scenario.sampleKey
              Scenario.smallCharge 0.1 "stripe" [] svc 1
              (fun _ => Responds (Some "Low risk.")) 1 "campaign_x" Hne)
    as (Hsame & _).
  exact Hsame.
Defined.

Lemma clearExpiredCache_sweeps_witness :
  let svc := LLMService.setCache Scenario.online 0 "payment_x" "kept" in
  LLMService.clearExpiredCache
    (LLMService.clearExpiredCache svc 400000) 500000
    = LLMService.clearExpiredCache svc 500000.
Proof.
  intros svc.
  assert (Hle : (400000 <= 500000)%Z) by lia.
  exact (proj2 (ExplanationFacts.clearExpiredCache_sweeps svc 400000 500000
                  Hle)).
Defined.

(** ** The analysis of a campaign *)

Module CampaignFacts.
Import LLMService LLMServiceCampaign.

Lemma sublist_map_filter {A B : Type} (f : A -> B) (p : A -> bool)
    (l : list A) :
  sublist (List.map f (List.filter p l)) (List.map f l).
Proof.
  induction l as [|x l IH]; simpl; [constructor|].
  destruct (p x); simpl; now constructor.
Qed.

(** The chain of tests as one pass over a table. *)
Lemma fold_left_selected {A : Type} (test : A -> bool) (label : A -> string)
    (rows : list A) (acc : list string) :
  fold_left (fun tags row => if test row then JS.push tags (label row)
                             else tags) rows acc
    = (acc ++ List.map label (List.filter test rows))%list.
Proof.
  revert acc. induction rows as [|row rows IH]; intros acc; simpl.
  - now rewrite app_nil_r.
  - rewrite IH. destruct (test row); [|reflexivity].
    unfold JS.push. now rewrite <- app_assoc.
Qed.

(** The tags of the fallback analysis are the selected ones, or the
    default tag when none is selected. *)
Lemma generateFallbackCampaignAnalysis_tags (description : string) :
  CampaignAnalysis.tags (generateFallbackCampaignAnalysis description)
    = match Keywords.selected (JS.toLowerCase description) with
      | [] => ["charitable cause"]
      | tags => tags
      end.
Proof.
  pose proof (fold_left_selected
                (fun row : string * (string -> bool) =>
                   snd row (JS.toLowerCase description)) fst
                Keywords.table []) as Hchain.
  rewrite app_nil_l in Hchain. fold (Keywords.selected
                                       (JS.toLowerCase description)) in Hchain.
  rewrite <- Hchain.
  change (CampaignAnalysis.tags (generateFallbackCampaignAnalysis description))
    with (let tags :=
            fold_left
              (fun tags (row : string * (string -> bool)) =>
                 if snd row (JS.toLowerCase description)
                 then JS.push tags (fst row) else tags)
              Keywords.table [] in
          match tags with
          | [] => JS.push tags "charitable cause"
          | _ => tags
          end).
  cbv zeta. now destruct (fold_left _ Keywords.table []).
Qed.

Lemma selected_In (d tag : string) :
  In tag (Keywords.selected d) <->
  exists test, In (tag, test) Keywords.table /\ test d = true.
Proof.
  unfold Keywords.selected. rewrite List.in_map_iff. split.
  - intros ([tag' test] & <- & Hrow). apply List.filter_In in Hrow.
    now exists test.
  - intros (test & Hrow & Htest). exists (tag, test).
    split; [reflexivity|]. now apply List.filter_In.
Qed.

Lemma selected_nil (d : string) :
  Keywords.selected d = [] <->
  forall row, In row Keywords.table -> snd row d = false.
Proof.
  split.
  - intros Hnil [tag test] Hrow. simpl.
    destruct (test d) eqn:E; [|reflexivity].
    assert (In tag (Keywords.selected d))
      by (apply selected_In; now exists test).
    rewrite Hnil in H. destruct H.
  - intros Hnone. destruct (Keywords.selected d) as [|tag sel] eqn:E;
      [reflexivity|].
    assert (Hin : In tag (Keywords.selected d)) by (rewrite E; now left).
    apply selected_In in Hin as (test & Hrow & Htest).
    apply Hnone in Hrow. simpl in Hrow. congruence.
Qed.

Lemma table_tags_NoDup : NoDup (List.map fst Keywords.table).
Proof.
  apply NoDup_ListNoDup. simpl.
  repeat constructor; simpl; intuition discriminate.
Qed.

(** X11.  The tags of the fallback analysis: there is at least one, none
    is repeated, and a tag is among them exactly when its keyword test
    succeeds on the lower-cased description or, for the default tag, when
    no test succeeds. *)
Theorem fallback_tags_from_keywords (description : string) :
  let tags :=
    CampaignAnalysis.tags (generateFallbackCampaignAnalysis description) in
  tags <> [] /\ NoDup tags /\
  (forall tag,
      In tag tags <->
      (exists test, In (tag, test) Keywords.table /\
                    test (JS.toLowerCase description) = true) \/
      (tag = "charitable cause" /\
       forall row, In row Keywords.table ->
                   snd row (JS.toLowerCase description) = false)).
Proof.
  intros tags. subst tags. rewrite generateFallbackCampaignAnalysis_tags.
  set (d := JS.toLowerCase description).
  pose proof (selected_nil d) as Hnil.
  pose proof (fun tag => selected_In d tag) as Hin.
  pose proof (sublist_map_filter fst (fun row : string * (string -> bool) =>
                                        snd row d) Keywords.table) as Hsub.
  fold (Keywords.selected d) in Hsub.
  destruct (Keywords.selected d) as [|tag0 sel].
  - split; [discriminate|]. split; [apply NoDup_singleton|].
    intros tag. split.
    + intros [<-|[]]. right. split; [reflexivity|]. now apply Hnil.
    + intros [(test & Hrow & Htest) | [-> _]]; [|now left].
      exfalso. apply (proj2 (Hin tag)). now exists test.
  - split; [discriminate|].
    split; [exact (sublist_NoDup _ _ table_tags_NoDup Hsub)|].
    intros tag. rewrite Hin. split; [now left|].
    intros [H | [_ Hnone]]; [exact H|].
    apply Hnil in Hnone. discriminate.
Qed.

Lemma ascii_only_append (a b : string) :
  JS.ascii_only (a ++ b) = (JS.ascii_only a && JS.ascii_only b)%bool.
Proof.
  induction a as [|c a IH]; [reflexivity|].
  rewrite StringFacts.append_cons. simpl. rewrite IH.
  now rewrite andb_assoc.
Qed.

Lemma ascii_only_substring (n m : nat) (s : string) :
  JS.ascii_only s = true -> JS.ascii_only (substring n m s) = true.
Proof.
  revert n m. induction s as [|c s IH]; intros n m H.
  - now destruct n, m.
  - simpl in H. apply andb_true_iff in H as [Hc Hs].
    destruct n as [|n]; [destruct m as [|m]|]; simpl.
    + reflexivity.
    + rewrite Hc. now apply IH.
    + now apply IH.
Qed.

(** X12.  For a description of ASCII characters, the summary of the
    fallback analysis is the description itself when that has at most 100
    characters; otherwise it is the first 97 characters followed by three
    dots, 100 characters in all.  The summary is again made of ASCII
    characters. *)
Theorem fallback_summary_length (description : string) :
  JS.ascii_only description = true ->
  let summary :=
    CampaignAnalysis.summary (generateFallbackCampaignAnalysis description) in
  JS.ascii_only summary = true /\
  (String.length summary <= 100)%nat /\
  ((String.length description <= 100)%nat -> summary = description) /\
  ((100 < String.length description)%nat ->
   summary = substring 0 97 description ++ "..." /\
   String.length summary = 100%nat).
Proof.
  intros Hascii summary. subst summary.
  change (CampaignAnalysis.summary
            (generateFallbackCampaignAnalysis description))
    with (if (100 <? String.length description)%nat
          then substring 0 97 description ++ "..."
          else description).
  assert (Hlen : (100 < String.length description)%nat ->
            String.length (substring 0 97 description ++ "...") = 100%nat).
  { intros H. rewrite StringFacts.length_append,
      StringFacts.length_substring_0.
    change (String.length "...") with 3%nat. lia. }
  destruct (Nat.ltb_spec 100 (String.length description)) as [Hlong|Hshort].
  - rewrite (Hlen Hlong). split.
    { rewrite ascii_only_append, ascii_only_substring by exact Hascii.
      reflexivity. }
    split; [lia|]. split; [intros; lia|]. intros _.
    split; reflexivity.
  - split; [exact Hascii|].
    split; [exact Hshort|]. split; [reflexivity | intros; lia].
Qed.

Section OneCampaign.
Variable Json : Type.
Variable of_analysis : CampaignAnalysis.t -> Json.
Variable JSON_parse : string -> option Json.
Variable JSON_stringify : Json -> string.
Variable stringify : string -> string.
Variable description : string.

Let key : string := createCacheKey stringify "campaign" description.
Let prompt : string := createCampaignPrompt description.
Let fallback : option Json :=
  Some (of_analysis (generateFallbackCampaignAnalysis description)).
Let analyze (svc : t) (now : Z) (llm : string -> Completion) (now' : Z)
  : option Json * t * list string :=
  analyzeCampaign Json of_analysis JSON_parse JSON_stringify stringify
    svc now llm now' description.

(** The analysis as a function of what the read of the cache gave. *)
Lemma analyze_online (svc : t) (now : Z) (llm : string -> Completion)
    (now' : Z) :
  enableLLM svc = true -> openai svc = true ->
  analyze svc now llm now'
    = let svc' := snd (getFromCache svc now key) in
      match fst (getFromCache svc now key) with
      | Some (String c r) => (JSON_parse (String c r), svc', [])
      | _ =>
          match llm prompt with
          | Responds content =>
              let content := match content with
                             | Some c => JS.trim c
                             | None => ""
                             end in
              if negb (JS.truthy content) then (fallback, svc', [prompt])
              else
                match JSON_parse content with
                | Some analysis =>
                    (Some analysis,
                     setCache svc' now' key (JSON_stringify analysis),
                     [prompt])
                | None => (fallback, svc', [prompt])
                end
          | Throws => (fallback, svc', [prompt])
          end
      end.
Proof.
  intros Hen Hcl. unfold analyze, analyzeCampaign.
  rewrite Hen, Hcl. simpl negb. simpl orb. cbv iota. fold key.
  destruct (getFromCache svc now key) as [[[|c r]|] svc']; reflexivity.
Qed.

(** X13.  With the generator switched off the fallback analysis is
    returned and nothing is sent.  With the generator in use, a request
    that is sent and fails (the call throws, the reply has no content, or
    the content is not JSON) is answered with the fallback analysis and
    writes nothing to the cache, so the next request for the same
    description sends the prompt again. *)
Theorem analyzeCampaign_failure_not_cached (svc : t) (now : Z)
    (llm : string -> Completion) (now' : Z) :
  (enableLLM svc = false \/ openai svc = false ->
   analyze svc now llm now' = (fallback, svc, [])) /\
  (enableLLM svc = true -> openai svc = true ->
   snd (analyze svc now llm now') <> [] ->
   (llm prompt = Throws \/
    exists content,
      llm prompt = Responds content /\
      let c := match content with Some c => JS.trim c | None => "" end in
      JS.truthy c = false \/ JSON_parse c = None) ->
   analyze svc now llm now'
     = (fallback, snd (getFromCache svc now key), [prompt]) /\
   forall now2 llm2 w2,
     snd (analyze (snd (getFromCache svc now key)) now2 llm2 w2) = [prompt]).
Proof.
  split.
  - intros H. unfold analyze, analyzeCampaign.
    destruct H as [-> | ->]; [reflexivity|]. now rewrite orb_true_r.
  - intros Hen Hcl Hsent Hfail.
    pose proof (CacheFacts.getFromCache_config svc now key)
      as (_ & Hen' & Hcl').
    rewrite Hen in Hen'. rewrite Hcl in Hcl'.
    pose proof (ExplanationFacts.getFromCache_miss svc now key) as Hmiss.
    revert Hsent. rewrite (analyze_online svc now llm now' Hen Hcl).
    cbv zeta. intros Hsent.
    assert (Hu : match fst (getFromCache svc now key) with
                 | Some text => JS.truthy text = false
                 | None => True
                 end).
    { destruct (fst (getFromCache svc now key)) as [[|c r]|];
        [reflexivity | now simpl in Hsent | exact I]. }
    split.
    + destruct (fst (getFromCache svc now key)) as [[|c r]|];
        try discriminate;
        (destruct Hfail as [-> | (content & -> & Hc)]; [reflexivity|];
         cbv zeta in Hc; destruct Hc as [-> | Hc]; [reflexivity|];
         rewrite Hc; now destruct (negb _)).
    + intros now2 llm2 w2.
      rewrite (analyze_online _ now2 llm2 w2 Hen' Hcl'). cbv zeta.
      pose proof (ExplanationFacts.getFromCache_unusable _ now2 key
                    (Hmiss Hu)) as Hu2.
      destruct (fst (getFromCache (snd (getFromCache svc now key)) now2 key))
        as [[|c r]|]; try discriminate;
        (destruct (llm2 prompt) as [|content2]; [reflexivity|];
         destruct (negb _); [reflexivity|];
         now destruct (JSON_parse _)).
Qed.

(** X14.  With the generator in use, a request that is sent and answered
    with JSON returns the parsed value and writes its text to the cache;
    until that entry expires a request for the same description is
    answered by parsing the cached text, without a call. *)
Theorem analyzeCampaign_reply_cached (svc : t) (now : Z)
    (llm : string -> Completion) (now' : Z) (content : string)
    (analysis : Json) :
  enableLLM svc = true -> openai svc = true ->
  snd (analyze svc now llm now') <> [] ->
  llm prompt = Responds (Some content) ->
  JS.truthy (JS.trim content) = true ->
  JSON_parse (JS.trim content) = Some analysis ->
  JS.truthy (JSON_stringify analysis) = true ->
  let r := analyze svc now llm now' in
  fst (fst r) = Some analysis /\ snd r = [prompt] /\
  cache (snd (fst r)) !! key
    = Some {| CacheEntry.response := JSON_stringify analysis;
              CacheEntry.timestamp := now';
              CacheEntry.ttl := cacheTTL svc |} /\
  (forall now2 llm2 w2,
      (now2 - now' <= cacheTTL svc)%Z ->
      analyze (snd (fst r)) now2 llm2 w2
        = (JSON_parse (JSON_stringify analysis), snd (fst r), [])).
Proof.
  intros Hen Hcl Hsent Hllm Htext Hparse Hjson r.
  pose proof (CacheFacts.getFromCache_config svc now key)
    as (Httl & Hen' & Hcl').
  rewrite Hen in Hen'. rewrite Hcl in Hcl'.
  set (svc1 := setCache (snd (getFromCache svc now key)) now' key
                 (JSON_stringify analysis)).
  assert (Hr : r = (Some analysis, svc1, [prompt])).
  { subst r. revert Hsent.
    rewrite (analyze_online svc now llm now' Hen Hcl). cbv zeta.
    destruct (fst (getFromCache svc now key)) as [[|c r]|];
      rewrite ?Hllm, ?Htext, ?Hparse; simpl; intros Hs;
      first [reflexivity | now elim Hs]. }
  rewrite Hr. simpl.
  assert (Hentry :
    cache svc1 !! key
    = Some {| CacheEntry.response := JSON_stringify analysis;
              CacheEntry.timestamp := now';
              CacheEntry.ttl := cacheTTL svc |}).
  { unfold svc1, setCache. simpl. now rewrite lookup_insert_eq, Httl. }
  repeat split; [exact Hentry|].
  intros now2 llm2 w2 Hlive.
  assert (Hen1 : enableLLM svc1 = true) by exact Hen'.
  assert (Hcl1 : openai svc1 = true) by exact Hcl'.
  rewrite (analyze_online svc1 now2 llm2 w2 Hen1 Hcl1). cbv zeta.
  rewrite (CacheFacts.getFromCache_live svc1 now2 key _ Hentry Hlive).
  simpl. destruct (JSON_stringify analysis); [discriminate | reflexivity].
Qed.

End OneCampaign.

End CampaignFacts.

Lemma fallback_summary_length_witness :
  CampaignAnalysis.summary
    (LLMServiceCampaign.generateFallbackCampaignAnalysis
       CampaignScenario.longDescription)
  = "Emergency relief for families in Nepal after the earthquake: "
    ++ "shelter, clean water, food and schoo...".
Proof.
  destruct (CampaignFacts.fallback_summary_length
              CampaignScenario.longDescription eq_refl)
    as (_ & _ & _ & Hlong).
  destruct Hlong as [Hsummary _]; [apply Nat.ltb_lt; reflexivity|].
  rewrite Hsummary. reflexivity.
Defined.

Lemma analyzeCampaign_failure_not_cached_witness :
  let description := "Clean water for villages" in
  let unreachable := fun _ : string => Throws in
  CampaignScenario.analyze Scenario.offline 0 unreachable 0 description
    = (Some (LLMServiceCampaign.generateFallbackCampaignAnalysis description),
       Scenario.offline, []) /\
  snd (CampaignScenario.analyze
         (snd (fst (CampaignScenario.analyze Scenario.online 0 unreachable 0
                      description)))
         1 unreachable 1 description)
    = [LLMServiceCampaign.createCampaignPrompt description].
Proof.
  intros description unreachable.
  destruct (CampaignFacts.analyzeCampaign_failure_not_cached
              CampaignAnalysis.t (fun a => a) CampaignScenario.parse
              CampaignScenario.unparse (fun d => d) description
              Scenario.offline 0 unreachable 0) as [Hoff _].
  destruct (CampaignFacts.analyzeCampaign_failure_not_cached
              CampaignAnalysis.t (fun a => a) CampaignScenario.parse
              CampaignScenario.unparse (fun d => d) description
              Scenario.online 0 unreachable 0) as [_ Hon].
  split.
  - apply Hoff. now left.
  - assert (Hsent :
      snd (CampaignScenario.analyze Scenario.online 0 unreachable 0
             description) <> []) by (vm_compute; discriminate).
    destruct (Hon eq_refl eq_refl Hsent (or_introl eq_refl))
      as [Hfirst Hagain].
    unfold CampaignScenario.analyze at 2. rewrite Hfirst.
    exact (Hagain 1%Z unreachable 1%Z).
Defined.

Lemma analyzeCampaign_reply_cached_witness :
  let description := "Clean water for villages" in
  let answers := fun _ : string => Responds (Some " {Wells for villages ") in
  let analysis := {| CampaignAnalysis.tags := ["clean water"];
                     CampaignAnalysis.summary := "Wells for villages" |} in
  let r := CampaignScenario.analyze Scenario.online 0 answers 0 description in
  fst (fst r) = Some analysis /\
  CampaignScenario.analyze (snd (fst r)) 300000 (fun _ => Throws) 300000
    description
    = (Some analysis, snd (fst r), []).
Proof.
  intros description answers analysis r.
  assert (Hsent :
    snd (CampaignScenario.analyze Scenario.online 0 answers 0 description)
      <> []) by (vm_compute; discriminate).
  destruct (CampaignFacts.analyzeCampaign_reply_cached
              CampaignAnalysis.t (fun a => a) CampaignScenario.parse
              CampaignScenario.unparse (fun d => d) description
              Scenario.online 0 answers 0 " {Wells for villages " analysis
              eq_refl eq_refl Hsent eq_refl eq_refl eq_refl eq_refl)
    as (Hvalue & _ & _ & Hagain).
  split; [exact Hvalue|].
  apply (Hagain 300000%Z (fun _ => Throws) 300000%Z). simpl. lia.
Defined.

(** ** Sorting newest first *)

Section SortOrder.
Context {A : Type} (key : A -> Z).

Let cmp (a b : A) : Z := (key b - key a)%Z.
Let after (a b : A) : Prop := (key b <= key a)%Z.

Lemma insert_sorted_desc (x : A) (l : list A) :
  StronglySorted after l -> StronglySorted after (JS.insert_sorted cmp x l).
Proof.
  induction l as [|y l IH]; intros Hs; simpl.
  - repeat constructor.
  - apply StronglySorted_inv in Hs as [Hl Hy].
    destruct (Z.leb_spec (cmp x y) 0) as [Hle|Hgt].
    + constructor; [now constructor|].
      constructor; [unfold after, cmp in *; lia|].
      eapply List.Forall_impl; [|exact Hy].
      unfold after, cmp in *. intros z Hz. lia.
    + constructor; [now apply IH|].
      eapply Permutation_Forall;
        [symmetry; apply insert_sorted_perm|].
      constructor; [unfold after, cmp in *; lia | exact Hy].
Qed.

Lemma sort_desc_sorted (l : list A) : StronglySorted after (JS.sort cmp l).
Proof.
  induction l as [|x l IH]; simpl; [constructor|].
  now apply insert_sorted_desc.
Qed.

Lemma insert_sorted_stamped (t : Z) (x : A) (l : list A) :
  List.filter (fun a => (key a =? t)%Z) (JS.insert_sorted cmp x l)
    = List.filter (fun a => (key a =? t)%Z) (x :: l).
Proof.
  induction l as [|y l IH]; [reflexivity|].
  simpl JS.insert_sorted.
  destruct (Z.leb_spec (cmp x y) 0) as [Hle|Hgt]; [reflexivity|].
  simpl in IH |- *. rewrite IH.
  destruct (Z.eqb_spec (key x) t), (Z.eqb_spec (key y) t);
    try reflexivity.
  unfold cmp in Hgt. lia.
Qed.

(** The sort is stable: the elements of one key keep their order. *)
Lemma sort_desc_stable (t : Z) (l : list A) :
  List.filter (fun a => (key a =? t)%Z) (JS.sort cmp l)
    = List.filter (fun a => (key a =? t)%Z) l.
Proof.
  induction l as [|x l IH]; [reflexivity|].
  simpl JS.sort. rewrite insert_sorted_stamped. simpl. now rewrite IH.
Qed.

(** Sorting a list that is in order changes nothing. *)
Lemma sort_desc_sorted_id (l : list A) :
  StronglySorted after l -> JS.sort cmp l = l.
Proof.
  induction l as [|x l IH]; intros Hs; [reflexivity|].
  apply StronglySorted_inv in Hs as [Hl Hx].
  simpl. rewrite (IH Hl). destruct l as [|y l]; [reflexivity|].
  simpl. apply Forall_inv in Hx.
  destruct (Z.leb_spec (cmp x y) 0); [reflexivity|].
  unfold after, cmp in *. lia.
Qed.

Lemma insert_sorted_last (x : A) (l : list A) :
  Forall (fun y => (key x < key y)%Z) l ->
  JS.insert_sorted cmp x l = (l ++ [x])%list.
Proof.
  induction l as [|y l IH]; intros H; [reflexivity|].
  apply Forall_cons_1 in H as [Hy Hl]. simpl.
  destruct (Z.leb_spec (cmp x y) 0); [unfold cmp in *; lia|].
  now rewrite IH.
Qed.

(** Sorting a list whose keys strictly grow reverses it. *)
Lemma sort_desc_rev (l : list A) :
  StronglySorted (fun a b => (key a < key b)%Z) l ->
  JS.sort cmp l = List.rev l.
Proof.
  induction l as [|x l IH]; intros Hs; [reflexivity|].
  apply StronglySorted_inv in Hs as [Hl Hx].
  simpl. rewrite (IH Hl). apply insert_sorted_last.
  apply List.Forall_forall. intros y Hy. apply List.in_rev in Hy.
  rewrite List.Forall_forall in Hx. now apply Hx.
Qed.

End SortOrder.

(** ** Listings and look-ups of the payment ledger *)

Module LedgerQueries.
Import PaymentService Query.

Lemma filter_all {A : Type} (l : list A) : List.filter (fun _ => true) l = l.
Proof. induction l as [|x l IH]; simpl; [reflexivity | now rewrite IH]. Qed.

Lemma filter_filter {A : Type} (p q : A -> bool) (l : list A) :
  List.filter q (List.filter p l) = List.filter (fun x => (p x && q x)%bool) l.
Proof.
  induction l as [|x l IH]; simpl; [reflexivity|].
  destruct (p x); simpl; [destruct (q x)|]; now rewrite IH.
Qed.

(** One optional step of [getFilteredTransactions] as a filter. *)
Lemma filter_given {A B : Type} (bound : option B) (test : B -> A -> bool)
    (l : list A) :
  match bound with
  | Some b => List.filter (test b) l
  | None => l
  end = List.filter (fun x => given bound (fun b => test b x)) l.
Proof. destruct bound; simpl; [reflexivity | now rewrite filter_all]. Qed.

(** What [getFilteredTransactions] returns. *)
Lemma getFilteredTransactions_result (svc : t) (filters : Filters) :
  fst (getFilteredTransactions svc filters)
    = JS.sort newest_first (List.filter (keeps filters) (transactions svc)).
Proof.
  unfold getFilteredTransactions. cbv zeta. cbn [fst].
  f_equal. unfold keeps.
  rewrite <- !filter_filter.
  rewrite <- (filter_given (endDate filters)
                (fun d tx => (Transaction.timestamp tx <=? d)%Z)).
  rewrite <- (filter_given (startDate filters)
                (fun d tx => (d <=? Transaction.timestamp tx)%Z)).
  rewrite <- (filter_given (maxAmount filters)
                (fun m tx => JS.le (Transaction.amount tx) m)).
  rewrite <- (filter_given (minAmount filters)
                (fun m tx => JS.ge (Transaction.amount tx) m)).
  destruct (f_provider filters) as [p|], (f_status filters) as [s|],
    (minAmount filters), (maxAmount filters), (startDate filters),
    (endDate filters); simpl;
    try destruct (JS.truthy p); try destruct (JS.truthy s); simpl;
    rewrite ?filter_all; reflexivity.
Qed.

(** What [getFilteredTransactions] does to the ledger. *)
Lemma getFilteredTransactions_effect (svc : t) (filters : Filters) :
  snd (getFilteredTransactions svc filters)
    = if narrows filters then svc
      else with_transactions svc (getAllTransactions svc).
Proof.
  unfold getFilteredTransactions, narrows, getAllTransactions. cbv zeta.
  destruct (f_provider filters) as [p|], (f_status filters) as [s|],
    (minAmount filters), (maxAmount filters), (startDate filters),
    (endDate filters); simpl;
    try destruct (JS.truthy p); try destruct (JS.truthy s); reflexivity.
Qed.

Lemma find_push {A : Type} (p : A -> bool) (l : list A) (x : A) :
  List.find p (JS.push l x)
    = match List.find p l with
      | Some y => Some y
      | None => if p x then Some x else None
      end.
Proof.
  unfold JS.push. induction l as [|y l IH]; simpl; [reflexivity|].
  destruct (p y); [reflexivity | exact IH].
Qed.

(** Rounding to two places: [Math.round(x * 100) / 100]. *)
Lemma round2_near (x : Q) :
  x - 0.005 < JS.Math_round (x * 100) / 100 <= x + 0.005.
Proof.
  unfold JS.Math_round.
  pose proof (Qfloor_le (x * 100 + (1 # 2))) as Hle.
  pose proof (Qlt_floor (x * 100 + (1 # 2))) as Hlt.
  rewrite inject_Z_plus in Hlt. change (inject_Z 1) with 1 in Hlt.
  set (n := inject_Z (Qfloor (x * 100 + (1 # 2)))) in *. clearbody n.
  unfold Qdiv. change (/ 100) with (1 # 100). lra.
Qed.

Lemma round2_hundredths (x : Q) :
  0 <= x <= 1 -> (0 <= Qfloor (x * 100 + (1 # 2)) <= 100)%Z.
Proof.
  intros Hx.
  pose proof (Qfloor_le (x * 100 + (1 # 2))) as Hle.
  pose proof (Qlt_floor (x * 100 + (1 # 2))) as Hlt.
  rewrite inject_Z_plus in Hlt. change (inject_Z 1) with 1 in Hlt.
  assert (H0 : inject_Z (-1) < inject_Z (Qfloor (x * 100 + (1 # 2))))
    by (change (inject_Z (-1)) with (-1); lra).
  assert (H1 : inject_Z (Qfloor (x * 100 + (1 # 2))) < inject_Z 101)
    by (change (inject_Z 101) with 101; lra).
  rewrite <- Zlt_Qlt in H0, H1. lia.
Qed.

Lemma round2_unit (x : Q) :
  0 <= x <= 1 -> 0 <= JS.Math_round (x * 100) / 100 <= 1.
Proof.
  intros Hx. unfold JS.Math_round.
  pose proof (Qfloor_le (x * 100 + (1 # 2))) as Hle.
  pose proof (Qlt_floor (x * 100 + (1 # 2))) as Hlt.
  rewrite inject_Z_plus in Hlt. change (inject_Z 1) with 1 in Hlt.
  assert (H0 : inject_Z (-1) < inject_Z (Qfloor (x * 100 + (1 # 2))))
    by (change (inject_Z (-1)) with (-1); lra).
  assert (H1 : inject_Z (Qfloor (x * 100 + (1 # 2))) < inject_Z 101)
    by (change (inject_Z 101) with 101; lra).
  rewrite <- Zlt_Qlt in H0, H1.
  assert (Hlo : inject_Z 0 <= inject_Z (Qfloor (x * 100 + (1 # 2))))
    by (rewrite <- Zle_Qle; lia).
  assert (Hhi : inject_Z (Qfloor (x * 100 + (1 # 2))) <= inject_Z 100)
    by (rewrite <- Zle_Qle; lia).
  change (inject_Z 0) with 0 in Hlo. change (inject_Z 100) with 100 in Hhi.
  set (n := inject_Z (Qfloor (x * 100 + (1 # 2)))) in *. clearbody n.
  unfold Qdiv. change (/ 100) with (1 # 100). lra.
Qed.

(** The score is clamped to the unit interval. *)
Lemma calculateRiskScore_clamped (rules : FraudRules.t) (random : Q)
    (request : ChargeRequest.t) :
  0 <= FraudDetectionService.calculateRiskScore rules random request <= 1.
Proof.
  unfold FraudDetectionService.calculateRiskScore. cbv zeta.
  match goal with |- context [JS.Math_min (JS.Math_max ?x 0) 1] =>
    generalize x; intros score end.
  unfold JS.Math_min, JS.Math_max.
  js_case score 0; cbv iota; ScoringFacts.js_cases; lra.
Qed.

(** X15.  [getAllTransactions] returns the records of the ledger, each as
    often as it is there, no record before a newer one and records of the
    same instant in the order of the ledger; when the instants of the
    ledger strictly grow this is the ledger reversed. *)
Theorem getAllTransactions_newest_first (svc : t) :
  Permutation (getAllTransactions svc) (transactions svc) /\
  newest_first_sorted (getAllTransactions svc) /\
  (forall t,
      stamped t (getAllTransactions svc) = stamped t (transactions svc)) /\
  (StronglySorted
     (fun a b => (Transaction.timestamp a < Transaction.timestamp b)%Z)
     (transactions svc) ->
   getAllTransactions svc = List.rev (transactions svc)).
Proof.
  unfold getAllTransactions, newest_first_sorted, stamped.
  split; [apply sort_perm|].
  split; [apply (sort_desc_sorted Transaction.timestamp)|].
  split; [intros t0; apply (sort_desc_stable Transaction.timestamp)|].
  apply (sort_desc_rev Transaction.timestamp).
Qed.

(** X16.  [getFilteredTransactions] returns the records that satisfy every
    bound given, newest first.  When some bound is given the service is
    left as it was; when none is, the listing is that of
    [getAllTransactions] and the ledger itself is left in that order. *)
Theorem getFilteredTransactions_listing (svc : t) (filters : Filters) :
  let listing := fst (getFilteredTransactions svc filters) in
  let svc' := snd (getFilteredTransactions svc filters) in
  listing
    = JS.sort newest_first (List.filter (keeps filters) (transactions svc)) /\
  (forall tx, In tx listing <->
              In tx (transactions svc) /\ keeps filters tx = true) /\
  newest_first_sorted listing /\
  (narrows filters = true -> svc' = svc) /\
  (narrows filters = false ->
   listing = getAllTransactions svc /\
   svc' = with_transactions svc (getAllTransactions svc)).
Proof.
  intros listing svc'. subst listing svc'.
  rewrite getFilteredTransactions_result, getFilteredTransactions_effect.
  split; [reflexivity|]. split; [|split; [|split]].
  - intros tx. rewrite <- List.filter_In. split; intros H.
    + eapply Permutation_in; [apply sort_perm | exact H].
    + eapply Permutation_in; [symmetry; apply sort_perm | exact H].
  - apply (sort_desc_sorted Transaction.timestamp).
  - now intros ->.
  - intros Hnone. rewrite Hnone. split; [|reflexivity].
    unfold getAllTransactions. f_equal.
    rewrite <- (filter_all (transactions svc)) at 2.
    apply List.filter_ext. intros tx. revert Hnone.
    unfold narrows, keeps.
    destruct (f_provider filters) as [p|], (f_status filters) as [s|],
      (minAmount filters), (maxAmount filters), (startDate filters),
      (endDate filters); simpl;
      try destruct (JS.truthy p); try destruct (JS.truthy s); simpl;
      intros Hnone; try discriminate; reflexivity.
Qed.

Section WithStringify.
Variable stringify : Q -> string -> list string -> string.

(** X17.  The record that [processCharge] appends carries the identifier,
    provider, status and explanation of the answer and the amount,
    currency, source and mail address of the request.  A look-up of the
    identifier afterwards finds this record when the identifier was not in
    the ledger before, and otherwise still finds the older record that
    has it. *)
Theorem processCharge_then_getTransactionById (svc : t) (env : Env)
    (request : ChargeRequest.t) :
  let response := fst (processCharge stringify svc env request) in
  let svc' := snd (processCharge stringify svc env request) in
  let id := ChargeResponse.transactionId response in
  exists tx,
    transactions svc' = (transactions svc ++ [tx])%list /\
    Transaction.id tx = id /\
    Transaction.provider tx = ChargeResponse.provider response /\
    Transaction.status tx = ChargeResponse.status response /\
    Transaction.explanation tx = ChargeResponse.explanation response /\
    Transaction.amount tx = ChargeRequest.amount request /\
    Transaction.currency tx = ChargeRequest.currency request /\
    Transaction.source tx = ChargeRequest.source request /\
    Transaction.email tx = ChargeRequest.email request /\
    Transaction.timestamp tx = recordedAt env /\
    (getTransactionById svc id = None ->
     getTransactionById svc' id = Some tx) /\
    (forall old, getTransactionById svc id = Some old ->
                 getTransactionById svc' id = Some old).
Proof.
  intros response svc' id. subst response svc' id.
  unfold processCharge.
  destruct (LLMService.generatePaymentExplanation _ _ _ _ _ _ _ _ _)
    as [[explanation llm'] calls].
  cbn [fst snd ChargeResponse.transactionId ChargeResponse.provider
       ChargeResponse.status ChargeResponse.explanation transactions].
  eexists. split; [reflexivity|].
  cbn [Transaction.id Transaction.provider Transaction.status
       Transaction.explanation Transaction.amount Transaction.currency
       Transaction.source Transaction.email Transaction.timestamp].
  repeat (split; [reflexivity|]).
  unfold getTransactionById. cbn [transactions]. rewrite find_push.
  cbn [Transaction.id]. rewrite String.eqb_refl.
  split; [now intros -> | now intros old ->].
Qed.

(** X18.  The risk score of the answer is the score of the record rounded
    to hundredths: a whole number of hundredths between 0 and 1, less than
    one hundredth away from the recorded score, which lies in the unit
    interval and is stored as computed.  (Half a hundredth is the distance
    in exact arithmetic; the product and the quotient of the program each
    add a rounding of their own.) *)
Theorem response_riskScore_rounded (svc : t) (env : Env)
    (request : ChargeRequest.t) :
  let response := fst (processCharge stringify svc env request) in
  let svc' := snd (processCharge stringify svc env request) in
  exists (tx : Transaction.t) (hundredths : Z),
    transactions svc' = (transactions svc ++ [tx])%list /\
    0 <= Transaction.riskScore tx <= 1 /\
    (0 <= hundredths <= 100)%Z /\
    ChargeResponse.riskScore response = inject_Z hundredths / 100 /\
    Transaction.riskScore tx - 0.01 < ChargeResponse.riskScore response /\
    ChargeResponse.riskScore response < Transaction.riskScore tx + 0.01.
Proof.
  intros response svc'. subst response svc'.
  destruct (PaymentFacts.processCharge_record stringify svc env request)
    as (tx & Htx & _ & _ & _ & Hscore & _ & _ & Hrounded).
  pose proof (calculateRiskScore_clamped (fraudDetection svc) (random env)
                request) as Hunit.
  exists tx, (Qfloor (Transaction.riskScore tx * 100 + (1 # 2))).
  split; [exact Htx|]. rewrite Hrounded, Hscore in *.
  split; [exact Hunit|]. split; [now apply round2_hundredths|].
  split; [reflexivity|].
  pose proof (round2_near
                (FraudDetectionService.calculateRiskScore
                   (fraudDetection svc) (random env) request)) as Hnear.
  split; lra.
Qed.

End WithStringify.

End LedgerQueries.

Lemma getAllTransactions_newest_first_witness :
  PaymentService.getAllTransactions LedgerScenario.twoCharges
    = List.rev (PaymentService.transactions LedgerScenario.twoCharges).
Proof.
  destruct (LedgerQueries.getAllTransactions_newest_first
              LedgerScenario.twoCharges) as (_ & _ & _ & Hrev).
  apply Hrev. vm_compute. repeat constructor.
Defined.

Lemma getFilteredTransactions_listing_witness :
  PaymentService.transactions
    (snd (PaymentService.getFilteredTransactions LedgerScenario.twoCharges
            LedgerScenario.noFilters))
    = PaymentService.getAllTransactions LedgerScenario.twoCharges.
Proof.
  destruct (LedgerQueries.getFilteredTransactions_listing
              LedgerScenario.twoCharges LedgerScenario.noFilters)
    as (_ & _ & _ & _ & Hnone).
  destruct (Hnone eq_refl) as [_ Hledger].
  rewrite Hledger. reflexivity.
Defined.

(** ** Counting by key *)

Module CountFacts.

(** After counting the elements of [l] by [key] into [counts], the count
    of [k] has grown by the number of elements of [l] with that key. *)
Lemma fold_increment_lookup {A : Type} (key : A -> string) (l : list A)
    (counts : gmap string nat) (k : string) :
  fold_left (fun m a => PaymentService.increment m (key a)) l counts !! k
    = let c := length (List.filter (fun a => String.eqb (key a) k) l) in
      if (c =? 0)%nat then counts !! k
      else Some (default 0%nat (counts !! k) + c)%nat.
Proof.
  revert counts. induction l as [|a l IH]; intros counts; [reflexivity|].
  simpl fold_left. rewrite IH. cbv zeta. simpl List.filter.
  unfold PaymentService.increment.
  destruct (String.eqb_spec (key a) k) as [->|Hne].
  - rewrite lookup_insert_eq. simpl length.
    destruct (length (List.filter _ l)) as [|c]; simpl; f_equal; lia.
  - rewrite lookup_insert_ne by exact Hne. reflexivity.
Qed.

(** Counting into the empty object. *)
Lemma fold_increment_empty {A : Type} (key : A -> string) (l : list A)
    (k : string) :
  fold_left (fun m a => PaymentService.increment m (key a)) l ∅ !! k
    = let c := length (List.filter (fun a => String.eqb (key a) k) l) in
      if (c =? 0)%nat then None else Some c.
Proof.
  rewrite fold_increment_lookup. cbv zeta. rewrite lookup_empty.
  now destruct (length _).
Qed.

(** A sum of numbers of the unit interval, started at [acc]. *)
Lemma fold_sum_unit {A : Type} (f : A -> Q) (l : list A) (acc : Q) :
  Forall (fun a => 0 <= f a <= 1) l ->
  acc <= fold_left (fun sum a => sum + f a) l acc
      <= acc + inject_Z (Z.of_nat (length l)).
Proof.
  revert acc. induction l as [|a l IH]; intros acc Hl.
  - simpl. change (inject_Z (Z.of_nat 0)) with 0. lra.
  - apply Forall_cons_1 in Hl as [Ha Hl]. specialize (IH (acc + f a) Hl).
    simpl fold_left. simpl length.
    rewrite Nat2Z.inj_succ, <- Z.add_1_r, inject_Z_plus.
    change (inject_Z 1) with 1. lra.
Qed.

End CountFacts.

(** ** Statistics of the payment ledger *)

Module StatsFacts.
Import PaymentService Query.

(** The three shapes of a record whose provider and status agree. *)
Lemma consistent_cases (tx : Transaction.t) :
  Ledger.consistent tx ->
  (Transaction.provider tx = Provider.stripe /\
   Transaction.status tx = Status.success) \/
  (Transaction.provider tx = Provider.paypal /\
   Transaction.status tx = Status.success) \/
  (Transaction.provider tx = Provider.blocked /\
   Transaction.status tx = Status.blocked).
Proof.
  intros [[Hblocked _] Hother].
  destruct (Transaction.provider tx) eqn:Ep.
  - left. split; [reflexivity|]. apply Hother. discriminate.
  - right. left. split; [reflexivity|]. apply Hother. discriminate.
  - right. right. split; [reflexivity|]. now apply Hblocked.
Qed.

(** On records whose provider and status agree, the counts by status are
    counts by provider. *)
Lemma consistent_counts (l : list Transaction.t) :
  Forall Ledger.consistent l ->
  (length (List.filter
             (fun t => String.eqb (Status.to_string (Transaction.status t))
                                  "success") l)
   + length (List.filter
               (fun t => String.eqb (Status.to_string (Transaction.status t))
                                    "blocked") l)
   = length l)%nat /\
  length (List.filter
            (fun t => String.eqb (Status.to_string (Transaction.status t))
                                 "blocked") l)
    = routed Provider.blocked l /\
  length (List.filter
            (fun t => String.eqb (Status.to_string (Transaction.status t))
                                 "success") l)
    = (routed Provider.stripe l + routed Provider.paypal l)%nat.
Proof.
  unfold routed. induction l as [|x l IH]; intros Hl.
  - repeat split.
  - apply Forall_cons_1 in Hl as [Hx Hl].
    destruct (IH Hl) as (IH1 & IH2 & IH3). clear IH.
    simpl in IH2, IH3. simpl List.filter.
    destruct (consistent_cases x Hx) as [[-> ->] | [[-> ->] | [-> ->]]];
      simpl; repeat split; lia.
Qed.

Section WithStringify.
Variable stringify : Q -> string -> list string -> string.

(** Every recorded score lies in the unit interval, whatever operations
    ran. *)
Lemma run_unit_scores (ops : list Ledger.Op) (svc : t) :
  Forall (fun tx => 0 <= Transaction.riskScore tx <= 1) (transactions svc) ->
  Forall (fun tx => 0 <= Transaction.riskScore tx <= 1)
         (transactions (Ledger.run stringify svc ops)).
Proof.
  revert svc. induction ops as [|op ops IH]; intros svc H; [exact H|].
  apply IH. destruct op; simpl; try exact H.
  - destruct (PaymentFacts.processCharge_record stringify svc env request)
      as (tx & -> & _ & _ & _ & Hscore & _).
    apply Forall_app. split; [exact H|]. constructor; [|constructor].
    rewrite Hscore. apply LedgerQueries.calculateRiskScore_clamped.
  - now apply PaymentFacts.getFilteredTransactions_ledger.
  - constructor.
Qed.

(** X19.  After any sequence of operations on a service fresh from its
    constructor, the statistics add up: every record is counted as
    successful or as blocked, the blocked ones are those routed to no
    provider, the successful ones those routed to stripe or paypal, the
    breakdown holds for each provider the number of its records (and no
    entry when there is none), and the average risk score lies in the unit
    interval. *)
Theorem getTransactionStats_after_any_run (llm0 : LLMService.t)
    (ops : list Ledger.Op) :
  let svc := Ledger.run stringify (create llm0) ops in
  let stats := getTransactionStats svc in
  let ledger := transactions svc in
  TransactionStats.total stats = length ledger /\
  (TransactionStats.successful stats + TransactionStats.blocked stats
   = TransactionStats.total stats)%nat /\
  TransactionStats.blocked stats = routed Provider.blocked ledger /\
  TransactionStats.successful stats
    = (routed Provider.stripe ledger + routed Provider.paypal ledger)%nat /\
  (forall p,
      TransactionStats.providerBreakdown stats !! Provider.to_string p
        = if (routed p ledger =? 0)%nat then None
          else Some (routed p ledger)) /\
  0 <= TransactionStats.averageRiskScore stats <= 1.
Proof.
  intros svc stats ledger.
  assert (Hc : Forall Ledger.consistent ledger)
    by (apply PaymentFacts.run_consistent; constructor).
  assert (Hu : Forall (fun tx => 0 <= Transaction.riskScore tx <= 1) ledger)
    by (apply run_unit_scores; constructor).
  destruct (consistent_counts ledger Hc) as (H1 & H2 & H3).
  subst stats. unfold getTransactionStats. fold ledger. cbv zeta.
  cbn [TransactionStats.total TransactionStats.successful
       TransactionStats.blocked TransactionStats.providerBreakdown
       TransactionStats.averageRiskScore].
  split; [reflexivity|]. split; [exact H1|]. split; [exact H2|].
  split; [exact H3|]. split.
  - intros p.
    exact (CountFacts.fold_increment_empty
             (fun t => Provider.to_string (Transaction.provider t))
             ledger (Provider.to_string p)).
  - apply LedgerQueries.round2_unit.
    pose proof (CountFacts.fold_sum_unit Transaction.riskScore ledger 0 Hu)
      as Hsum.
    destruct (Nat.ltb_spec 0 (length ledger)) as [Hpos|Hzero]; [|lra].
    assert (Hn : 0 < inject_Z (Z.of_nat (length ledger))).
    { change 0 with (inject_Z 0). rewrite <- Zlt_Qlt. lia. }
    split.
    + apply Qle_shift_div_l; [exact Hn | lra].
    + apply Qle_shift_div_r; [exact Hn | lra].
Qed.

End WithStringify.

End StatsFacts.

(** ** What one sweep charges *)

Module SweepExact.
Import SubscriptionService Registry RegistryFacts Roster.

Lemma same_terms_refl (sub : Subscription.t) : same_terms sub sub.
Proof. repeat split. Qed.

Lemma same_terms_trans (a b c : Subscription.t) :
  same_terms a b -> same_terms b c -> same_terms a c.
Proof. unfold same_terms. intuition congruence. Qed.

Lemma same_terms_charged (sub : Subscription.t) (last next : Z) :
  same_terms sub (set_charged sub last next).
Proof. repeat split. Qed.

Lemma attempts_cons (d : string) (tx : SubscriptionTransaction.t)
    (l : list SubscriptionTransaction.t) :
  attempts d (tx :: l)
    = ((if String.eqb (SubscriptionTransaction.donorId tx) d then 1 else 0)
       + attempts d l)%nat.
Proof.
  unfold attempts. simpl.
  now destruct (String.eqb (SubscriptionTransaction.donorId tx) d).
Qed.

Lemma existsb_eqb_In (d : string) (ks : list string) :
  existsb (String.eqb d) ks = true <-> In d ks.
Proof.
  rewrite List.existsb_exists. split.
  - intros (k & Hk & E). apply String.eqb_eq in E. now subst.
  - intros H. exists d. split; [exact H | apply String.eqb_refl].
Qed.

Section WithTimeZone.
Variable zone : Date.Zone.

(** The loop of a sweep over distinct keys: what it appends, and what it
    leaves of every object. *)
Lemma chargeDue_exact (now : Z) (envs : nat -> ChargeEnv) (ks : list string) :
  forall (svc : t) (k : nat),
    wf svc -> NoDup ks ->
    let svc' := fst (chargeDue zone now envs ks svc k) in
    exists new,
      transactions svc' = (transactions svc ++ new)%list /\
      List.map fst (subscriptions svc') = List.map fst (subscriptions svc) /\
      wf svc' /\
      (forall d,
          attempts d new
            = if (existsb (String.eqb d) ks
                  && match map_get d (subscriptions svc) with
                     | Some sub => reached now sub
                     | None => false
                     end)%bool
              then 1%nat else 0%nat) /\
      (forall d sub,
          map_get d (subscriptions svc) = Some sub ->
          exists sub',
            map_get d (subscriptions svc') = Some sub' /\
            same_terms sub sub' /\
            ((existsb (String.eqb d) ks && reached now sub)%bool = false ->
             sub' = sub)).
Proof.
  induction ks as [|key rest IH]; intros svc k Hwf Hnd; cbv zeta.
  - exists []. simpl. rewrite app_nil_r.
    split; [reflexivity|]. split; [reflexivity|]. split; [exact Hwf|].
    split; [reflexivity|].
    intros d sub Hd. exists sub.
    split; [exact Hd|]. split; [apply same_terms_refl | reflexivity].
  - apply NoDup_cons in Hnd as [Hkey Hrest].
    assert (Hkey' : existsb (String.eqb key) rest = false).
    { destruct (existsb (String.eqb key) rest) eqn:E; [|reflexivity].
      apply existsb_eqb_In in E. exfalso. apply Hkey.
      now apply list_elem_of_In. }
    assert (Hskip :
      match map_get key (subscriptions svc) with
      | Some sub => reached now sub = false
      | None => True
      end ->
      exists new,
        transactions (fst (chargeDue zone now envs rest svc k))
          = (transactions svc ++ new)%list /\
        List.map fst (subscriptions (fst (chargeDue zone now envs rest svc k)))
          = List.map fst (subscriptions svc) /\
        wf (fst (chargeDue zone now envs rest svc k)) /\
        (forall d,
            attempts d new
              = if (existsb (String.eqb d) (key :: rest)
                    && match map_get d (subscriptions svc) with
                       | Some sub => reached now sub
                       | None => false
                       end)%bool
                then 1%nat else 0%nat) /\
        (forall d sub,
            map_get d (subscriptions svc) = Some sub ->
            exists sub',
              map_get d (subscriptions
                           (fst (chargeDue zone now envs rest svc k)))
                = Some sub' /\
              same_terms sub sub' /\
              ((existsb (String.eqb d) (key :: rest) && reached now sub)%bool
               = false -> sub' = sub))).
    { intros Hnot.
      destruct (IH svc k Hwf Hrest) as (new & Hnew & Hkeys & Hwf' & Hatt & Hsubs).
      exists new. split; [exact Hnew|]. split; [exact Hkeys|].
      split; [exact Hwf'|]. split.
      - intros d. rewrite Hatt. simpl existsb.
        destruct (String.eqb_spec d key) as [->|Hne]; [|reflexivity].
        rewrite Hkey'. simpl.
        destruct (map_get key (subscriptions svc)); [now rewrite Hnot|].
        reflexivity.
      - intros d sub Hd. destruct (Hsubs d sub Hd) as (sub' & Hg & Hst & Hsame).
        exists sub'. split; [exact Hg|]. split; [exact Hst|].
        simpl existsb. intros Hcond. apply Hsame.
        destruct (String.eqb_spec d key) as [->|Hne]; [|exact Hcond].
        now rewrite Hkey'. }
    simpl chargeDue.
    destruct (map_get key (subscriptions svc)) as [sub|] eqn:Hk;
      [|now apply Hskip].
    fold (reached now sub).
    destruct (reached now sub) eqn:Hdue; [|now apply Hskip].
    clear Hskip.
    set (svc1 := chargeSubscription zone svc (envs k) key sub).
    pose proof (SweepFacts.chargeSubscription_wf zone svc (envs k) key sub Hwf Hk)
      as Hwf1.
    destruct (SweepFacts.chargeSubscription_effect zone svc (envs k) key sub)
      as (tx & Htx & Hdonor & Hok & Hfail).
    pose proof (fun d Hne =>
                  SweepFacts.chargeSubscription_other zone svc (envs k) key d
                    sub Hne) as Hother.
    fold svc1 in Hwf1, Htx, Hok, Hfail, Hother.
    destruct (IH svc1 (S k) Hwf1 Hrest)
      as (new & Hnew & Hkeys & Hwf' & Hatt & Hsubs).
    assert (Hsub1 : exists sub1,
              map_get key (subscriptions svc1) = Some sub1 /\
              same_terms sub sub1).
    { destruct (is_success tx) eqn:Es.
      - rewrite (Hok eq_refl), map_get_set_eq.
        eexists. split; [reflexivity | apply same_terms_charged].
      - rewrite (Hfail eq_refl). exists sub.
        split; [exact Hk | apply same_terms_refl]. }
    assert (Hkeys1 : List.map fst (subscriptions svc1)
                     = List.map fst (subscriptions svc)).
    { destruct (is_success tx) eqn:Es.
      - rewrite (Hok eq_refl). eapply map_set_keys_present. exact Hk.
      - now rewrite (Hfail eq_refl). }
    exists (tx :: new).
    split; [rewrite Hnew, Htx, <- app_assoc; reflexivity|].
    split; [congruence|]. split; [exact Hwf'|]. split.
    + intros d. rewrite attempts_cons, Hatt, Hdonor.
      rewrite (wf_donorId svc key sub Hwf Hk). simpl existsb.
      destruct (String.eqb_spec d key) as [->|Hne].
      * rewrite String.eqb_refl, Hkey', Hk, Hdue. reflexivity.
      * rewrite (proj2 (String.eqb_neq key d)) by congruence.
        rewrite (Hother d Hne). reflexivity.
    + intros d sub0 Hd. simpl existsb.
      destruct (String.eqb_spec d key) as [->|Hne].
      * rewrite Hk in Hd. injection Hd as <-.
        destruct Hsub1 as (sub1 & Hg1 & Hst1).
        destruct (Hsubs key sub1 Hg1) as (sub' & Hg' & Hst' & _).
        exists sub'. split; [exact Hg'|].
        split; [eapply same_terms_trans; eassumption|].
        rewrite Hdue. discriminate.
      * assert (Hd1 : map_get d (subscriptions svc1) = Some sub0)
          by (rewrite (Hother d Hne); exact Hd).
        destruct (Hsubs d sub0 Hd1) as (sub' & Hg' & Hst' & Hsame).
        exists sub'. split; [exact Hg'|]. split; [exact Hst' | exact Hsame].
Qed.

Lemma NoDup_In_map_get (m : list (string * Subscription.t)) (k : string)
    (v : Subscription.t) :
  NoDup (List.map fst m) -> In (k, v) m -> map_get k m = Some v.
Proof.
  induction m as [|[k' v'] m IH]; simpl; [easy|].
  intros Hnd [E | Hin].
  - injection E as -> ->. now rewrite String.eqb_refl.
  - apply NoDup_cons in Hnd as [Hk' Hm].
    destruct (String.eqb_spec k' k) as [->|_]; [|now apply IH].
    exfalso. apply Hk'. apply list_elem_of_In.
    apply List.in_map_iff. now exists (k, v).
Qed.

(** The keys that a sweep visits are those of the active subscriptions. *)
Lemma snapshot_member (svc : t) (d : string) :
  wf svc ->
  existsb (String.eqb d) (List.map fst (activeEntries svc))
    = match map_get d (subscriptions svc) with
      | Some sub => Subscription.isActive sub
      | None => false
      end.
Proof.
  intros [Hnd _].
  assert (Hiff : In d (List.map fst (activeEntries svc)) <->
                 exists sub, map_get d (subscriptions svc) = Some sub /\
                             Subscription.isActive sub = true).
  { unfold activeEntries. rewrite List.in_map_iff. split.
    - intros ([k sub] & <- & Hin).
      apply (Permutation_in _ (sort_perm _ _)) in Hin.
      apply List.filter_In in Hin as [Hin Hact]. exists sub.
      split; [now apply NoDup_In_map_get | exact Hact].
    - intros (sub & Hget & Hact). exists (d, sub). split; [reflexivity|].
      apply (Permutation_in _ (Permutation_sym (sort_perm _ _))).
      apply List.filter_In. split; [now apply map_get_In | exact Hact]. }
  destruct (existsb (String.eqb d) (List.map fst (activeEntries svc))) eqn:E.
  - apply existsb_eqb_In, Hiff in E as (sub & -> & Hact). now rewrite Hact.
  - destruct (map_get d (subscriptions svc)) as [sub|] eqn:Hget;
      [|reflexivity].
    destruct (Subscription.isActive sub) eqn:Hact; [|reflexivity].
    assert (In d (List.map fst (activeEntries svc)))
      by (apply Hiff; now exists sub).
    apply existsb_eqb_In in H. congruence.
Qed.

(** One sweep, in full. *)
Lemma processRecurringCharges_exact (svc : t) (now : Z)
    (envs : nat -> ChargeEnv) :
  wf svc ->
  let svc' := processRecurringCharges zone svc now envs in
  exists new,
    transactions svc' = (transactions svc ++ new)%list /\
    List.map fst (subscriptions svc') = List.map fst (subscriptions svc) /\
    wf svc' /\
    (forall d, attempts d new = if due now svc d then 1%nat else 0%nat) /\
    (forall d sub,
        map_get d (subscriptions svc) = Some sub ->
        exists sub',
          map_get d (subscriptions svc') = Some sub' /\
          same_terms sub sub' /\
          (due now svc d = false -> sub' = sub)).
Proof.
  intros Hwf svc'. subst svc'. unfold processRecurringCharges.
  destruct (chargeDue_exact now envs (List.map fst (activeEntries svc))
              svc 0 Hwf (SweepFacts.snapshot_NoDup svc Hwf))
    as (new & Hnew & Hkeys & Hwf' & Hatt & Hsubs).
  exists new. split; [exact Hnew|]. split; [exact Hkeys|].
  split; [exact Hwf'|]. split.
  - intros d. rewrite Hatt, (snapshot_member svc d Hwf). unfold due.
    now destruct (map_get d (subscriptions svc)).
  - intros d sub Hd. destruct (Hsubs d sub Hd) as (sub' & Hg & Hst & Hsame).
    exists sub'. split; [exact Hg|]. split; [exact Hst|].
    intros Hnot. apply Hsame.
    rewrite (snapshot_member svc d Hwf), Hd. unfold due in Hnot.
    now rewrite Hd in Hnot.
Qed.

(** X20.  One sweep of a well-formed registry attempts exactly the
    subscriptions that are active and whose charge date is reached, each
    once, and appends nothing else to the ledger.  It keeps the donors and
    their order, changes nothing but the two charge dates of an object,
    and leaves every object that was not due exactly as it was. *)
Theorem sweep_charges_exactly_the_due (svc : t) (now : Z)
    (envs : nat -> ChargeEnv) :
  wf svc ->
  let svc' := processRecurringCharges zone svc now envs in
  exists new,
    transactions svc' = (transactions svc ++ new)%list /\
    List.map fst (subscriptions svc') = List.map fst (subscriptions svc) /\
    (forall d, attempts d new = if due now svc d then 1%nat else 0%nat) /\
    (forall d sub,
        map_get d (subscriptions svc) = Some sub ->
        exists sub',
          map_get d (subscriptions svc') = Some sub' /\
          same_terms sub sub' /\
          (due now svc d = false -> sub' = sub)).
Proof.
  intros Hwf svc'.
  destruct (processRecurringCharges_exact svc now envs Hwf)
    as (new & Hnew & Hkeys & _ & Hatt & Hsubs).
  exists new. repeat split; assumption.
Qed.

Lemma set_isActive_same (sub : Subscription.t) :
  set_isActive sub (Subscription.isActive sub) = sub.
Proof. now destruct sub. Qed.

(** What a cancellation or a sweep leaves of a cancelled subscription. *)
Lemma step_cancelled (svc : t) (d : string) (sub : Subscription.t)
    (op : Roster.Op) :
  wf svc ->
  map_get d (subscriptions svc) = Some sub ->
  Subscription.isActive sub = false ->
  wf (Roster.step zone svc op) /\
  map_get d (subscriptions (Roster.step zone svc op)) = Some sub /\
  exists new,
    transactions (Roster.step zone svc op) = (transactions svc ++ new)%list /\
    attempts d new = 0%nat.
Proof.
  intros Hwf Hd Hoff. destruct op as [d'|now envs]; simpl.
  - split; [now apply SweepFacts.cancelSubscription_wf|].
    unfold cancelSubscription.
    destruct (map_get d' (subscriptions svc)) as [sub'|] eqn:Hd'; simpl.
    + split; [|exists []; now rewrite app_nil_r].
      destruct (String.eqb_spec d' d) as [->|Hne].
      * rewrite map_get_set_eq. rewrite Hd in Hd'. injection Hd' as <-.
        f_equal. rewrite <- Hoff. apply set_isActive_same.
      * now rewrite map_get_set_ne.
    + split; [exact Hd|]. exists []. now rewrite app_nil_r.
  - destruct (processRecurringCharges_exact svc now envs Hwf)
      as (new & Hnew & _ & Hwf' & Hatt & Hsubs).
    assert (Hnot : due now svc d = false)
      by (unfold due; now rewrite Hd, Hoff).
    split; [exact Hwf'|]. split.
    + destruct (Hsubs d sub Hd) as (sub' & Hg & _ & Hsame).
      now rewrite Hg, (Hsame Hnot).
    + exists new. split; [exact Hnew|]. now rewrite Hatt, Hnot.
Qed.

(** X21.  A cancelled subscription is out of reach of sweeps: through any
    sequence of sweeps and cancellations on a well-formed registry the
    object stays exactly as it was and no charge attempt is recorded for
    its donor. *)
Theorem cancelled_subscription_never_charged (svc : t) (d : string)
    (sub : Subscription.t) (ops : list Roster.Op) :
  wf svc ->
  map_get d (subscriptions svc) = Some sub ->
  Subscription.isActive sub = false ->
  map_get d (subscriptions (Roster.run zone svc ops)) = Some sub /\
  exists new,
    transactions (Roster.run zone svc ops) = (transactions svc ++ new)%list /\
    attempts d new = 0%nat.
Proof.
  revert svc. induction ops as [|op ops IH]; intros svc Hwf Hd Hoff.
  - split; [exact Hd|]. exists []. now rewrite app_nil_r.
  - destruct (step_cancelled svc d sub op Hwf Hd Hoff)
      as (Hwf1 & Hd1 & new1 & Hnew1 & Hatt1).
    destruct (IH (Roster.step zone svc op) Hwf1 Hd1 Hoff)
      as (Hd2 & new2 & Hnew2 & Hatt2).
    split; [exact Hd2|]. exists (new1 ++ new2)%list. split.
    + change (Roster.run zone svc (op :: ops))
        with (Roster.run zone (Roster.step zone svc op) ops).
      rewrite Hnew2, Hnew1. now rewrite app_assoc.
    + unfold attempts in *. rewrite List.filter_app, List.length_app. lia.
Qed.

End WithTimeZone.

End SweepExact.

Lemma sweep_charges_exactly_the_due_witness :
  let now := 604800000%Z in
  exists new,
    SubscriptionService.transactions
      (SubscriptionService.processRecurringCharges 0%Z Scenario.oneDonor now
         (Scenario.frozen now 0.5))
      = (SubscriptionService.transactions Scenario.oneDonor ++ new)%list /\
    Registry.attempts "donor_1" new = 1%nat /\
    Registry.attempts "donor_2" new = 0%nat.
Proof.
  intros now.
  destruct (SweepExact.sweep_charges_exactly_the_due 0%Z Scenario.oneDonor now
              (Scenario.frozen now 0.5) SweepFacts.wf_oneDonor)
    as (new & Hnew & _ & Hattempts & _).
  exists new. split; [exact Hnew|].
  split; rewrite Hattempts; reflexivity.
Defined.

Lemma cancelled_subscription_never_charged_witness :
  let now := 604800000%Z in
  let cancelled :=
    snd (SubscriptionService.cancelSubscription Scenario.oneDonor "donor_1") in
  let later :=
    Roster.run 0%Z cancelled
      [Roster.Sweep now (Scenario.frozen now 0.5);
       Roster.Cancel "donor_1";
       Roster.Sweep (now + 1) (Scenario.frozen (now + 1) 0.5)] in
  SubscriptionService.map_get "donor_1"
    (SubscriptionService.subscriptions later)
    = SubscriptionService.map_get "donor_1"
        (SubscriptionService.subscriptions cancelled).
Proof.
  intros now cancelled later.
  destruct (SubscriptionService.map_get "donor_1"
              (SubscriptionService.subscriptions cancelled))
    as [sub|] eqn:Hsub; [|vm_compute in Hsub; discriminate].
  assert (Hoff : Subscription.isActive sub = false).
  { vm_compute in Hsub. injection Hsub as <-. reflexivity. }
  assert (Hwf : Registry.wf cancelled)
    by (apply SweepFacts.cancelSubscription_wf, SweepFacts.wf_oneDonor).
  exact (proj1 (SweepExact.cancelled_subscription_never_charged 0%Z cancelled
                  "donor_1" sub
                  [Roster.Sweep now (Scenario.frozen now 0.5);
                   Roster.Cancel "donor_1";
                   Roster.Sweep (now + 1) (Scenario.frozen (now + 1) 0.5)]
                  Hwf Hsub Hoff)).
Defined.

(** ** Listings and statistics of the registry *)

Module RegistryQueries.
Import SubscriptionService Registry RegistryFacts Roster.

Lemma StronglySorted_map {A B : Type} (f : A -> B) (R : B -> B -> Prop)
    (l : list A) :
  StronglySorted (fun a b => R (f a) (f b)) l ->
  StronglySorted R (List.map f l).
Proof.
  induction 1 as [|x l Hl IH Hx]; simpl; constructor; [exact IH|].
  apply List.Forall_map. exact Hx.
Qed.

Lemma filter_map_snd {A B : Type} (p : B -> bool) (l : list (A * B)) :
  List.filter p (List.map snd l)
    = List.map snd (List.filter (fun kv => p (snd kv)) l).
Proof.
  induction l as [|kv l IH]; simpl; [reflexivity|].
  destruct (p (snd kv)); simpl; now rewrite IH.
Qed.

Lemma length_filter_negb {A : Type} (p : A -> bool) (l : list A) :
  (length (List.filter p l) + length (List.filter (fun x => negb (p x)) l)
   = length l)%nat.
Proof.
  induction l as [|x l IH]; simpl; [reflexivity|].
  destruct (p x); simpl; lia.
Qed.

(** The active subscriptions, as the statistics and the listing see
    them. *)
Lemma active_as_listed (svc : t) :
  Permutation (getActiveSubscriptions svc)
    (List.filter (fun s => Subscription.isActive s)
                 (List.map snd (subscriptions svc))).
Proof.
  unfold getActiveSubscriptions, activeEntries.
  rewrite filter_map_snd. apply Permutation_map, sort_perm.
Qed.

(** X22.  The listings of the registry.  [getActiveSubscriptions] returns
    the stored subscriptions that are active, none before one created
    later.  [getTransactionsByDonor] returns the recorded attempts of the
    donor, as many as were made and none before a later one, and
    [getTransactions] returns all recorded attempts. *)
Theorem registry_listings (svc : t) :
  (forall sub,
      In sub (getActiveSubscriptions svc) <->
      exists key, In (key, sub) (subscriptions svc) /\
                  Subscription.isActive sub = true) /\
  StronglySorted
    (fun a b => (Subscription.createdAt b <= Subscription.createdAt a)%Z)
    (getActiveSubscriptions svc) /\
  (forall d tx,
      In tx (getTransactionsByDonor svc d) <->
      In tx (transactions svc) /\ SubscriptionTransaction.donorId tx = d) /\
  (forall d,
      StronglySorted
        (fun a b => (SubscriptionTransaction.timestamp b
                     <= SubscriptionTransaction.timestamp a)%Z)
        (getTransactionsByDonor svc d) /\
      length (getTransactionsByDonor svc d) = attempts d (transactions svc)) /\
  Permutation (getTransactions svc) (transactions svc).
Proof.
  split; [|split; [|split; [|split]]].
  - intros sub. split.
    + intros Hin.
      apply (Permutation_in _ (active_as_listed svc)) in Hin.
      apply List.filter_In in Hin as [Hin Hact].
      apply List.in_map_iff in Hin as ([key sub'] & <- & Hkv).
      now exists key.
    + intros (key & Hkv & Hact).
      apply (Permutation_in _ (Permutation_sym (active_as_listed svc))).
      apply List.filter_In. split; [|exact Hact].
      apply List.in_map_iff. now exists (key, sub).
  - unfold getActiveSubscriptions, activeEntries.
    apply StronglySorted_map.
    apply (sort_desc_sorted (fun kv : string * Subscription.t =>
                               Subscription.createdAt (snd kv))).
  - intros d tx. unfold getTransactionsByDonor. split.
    + intros Hin. apply (Permutation_in _ (sort_perm _ _)) in Hin.
      apply List.filter_In in Hin as [Hin E].
      apply String.eqb_eq in E. now split.
    + intros [Hin E].
      apply (Permutation_in _ (Permutation_sym (sort_perm _ _))).
      apply List.filter_In. split; [exact Hin|]. now apply String.eqb_eq.
  - intros d. unfold getTransactionsByDonor. split.
    + apply (sort_desc_sorted SubscriptionTransaction.timestamp).
    + unfold attempts. apply Permutation_length, sort_perm.
  - apply sort_perm.
Qed.

Lemma Permutation_filter {A : Type} (p : A -> bool) (l1 l2 : list A) :
  Permutation l1 l2 -> Permutation (List.filter p l1) (List.filter p l2).
Proof.
  induction 1 as [|x l1 l2 _ IH|x y l|l1 l2 l3 _ IH1 _ IH2]; simpl.
  - constructor.
  - destruct (p x); [now constructor | exact IH].
  - destruct (p x), (p y); try reflexivity. apply perm_swap.
  - now transitivity (List.filter p l2).
Qed.

Lemma fold_left_flat_map {A B C : Type} (f : C -> B -> C) (g : A -> list B)
    (l : list A) (acc : C) :
  fold_left (fun c a => fold_left f (g a) c) l acc
    = fold_left f (List.flat_map g l) acc.
Proof.
  revert acc. induction l as [|a l IH]; intros acc; simpl; [reflexivity|].
  now rewrite IH, fold_left_app.
Qed.

Lemma fold_left_total {A : Type} (f : A -> Q) (l : list A) (acc : Q) :
  fold_left (fun sum a => sum + f a) l acc == acc + total f l.
Proof.
  revert acc. induction l as [|a l IH]; intros acc; simpl.
  - lra.
  - rewrite IH. lra.
Qed.

Lemma total_app {A : Type} (f : A -> Q) (l1 l2 : list A) :
  total f (l1 ++ l2) == total f l1 + total f l2.
Proof. induction l1 as [|a l1 IH]; simpl; [lra | rewrite IH; lra]. Qed.

Lemma total_nonneg {A : Type} (f : A -> Q) (l : list A) :
  Forall (fun a => 0 <= f a) l -> 0 <= total f l.
Proof.
  induction 1 as [|a l Ha _ IH]; simpl; [lra | lra].
Qed.

Lemma monthly_nonneg (sub : Subscription.t) :
  0 <= Subscription.amount sub -> 0 <= monthly sub.
Proof.
  intros H. unfold monthly, convertToMonthlyAmount.
  destruct (Subscription.interval sub); try lra.
  unfold Qdiv. change (/ 12) with (1 # 12). lra.
Qed.

(** X23.  The statistics of the registry add up: every stored
    subscription is counted as active or as cancelled, the active count is
    the length of the listing of [getActiveSubscriptions], the two
    breakdowns hold for each interval, and for each tag that is not a name
    inherited from [Object.prototype], its number among the active
    subscriptions (and no entry when there is none), and the monthly
    revenue is not negative when no stored amount is. *)
Theorem getSubscriptionStats_counts (svc : t) :
  let stats := getSubscriptionStats svc in
  (SubscriptionStats.totalActive stats + SubscriptionStats.totalCancelled stats
   = length (subscriptions svc))%nat /\
  SubscriptionStats.totalActive stats = length (getActiveSubscriptions svc) /\
  (forall i,
      SubscriptionStats.intervalBreakdown stats !! Interval.to_string i
        = if (active_at i svc =? 0)%nat then None
          else Some (active_at i svc)) /\
  (forall tag,
      JS.inherited tag = false ->
      SubscriptionStats.campaignsByTag stats !! tag
        = if (tagged tag svc =? 0)%nat then None else Some (tagged tag svc)) /\
  (Forall (fun kv => 0 <= Subscription.amount (snd kv)) (subscriptions svc) ->
   0 <= SubscriptionStats.monthlyRecurringRevenue stats).
Proof.
  intros stats. subst stats. unfold getSubscriptionStats. cbv zeta.
  cbn [SubscriptionStats.totalActive SubscriptionStats.totalCancelled
       SubscriptionStats.intervalBreakdown SubscriptionStats.campaignsByTag
       SubscriptionStats.monthlyRecurringRevenue].
  pose proof (active_as_listed svc) as Hperm.
  set (active := List.filter (fun s => Subscription.isActive s)
                   (List.map snd (subscriptions svc))) in *.
  split; [|split; [|split; [|split]]].
  - unfold active. rewrite length_filter_negb. apply List.length_map.
  - symmetry. apply Permutation_length, Hperm.
  - intros i.
    etransitivity;
      [exact (CountFacts.fold_increment_empty
                (fun sub => Interval.to_string (Subscription.interval sub))
                active (Interval.to_string i))|].
    cbv zeta. unfold active_at.
    now rewrite (Permutation_length (Permutation_filter _ _ _ Hperm)).
  - intros tag _. rewrite fold_left_flat_map.
    etransitivity;
      [exact (CountFacts.fold_increment_empty (fun t : string => t)
                (List.flat_map Subscription.tags active) tag)|].
    cbv zeta. unfold tagged.
    assert (Hlen :
      length (List.filter (fun t => String.eqb t tag)
                (List.flat_map Subscription.tags active))
      = length (List.filter (fun t => String.eqb t tag)
                  (List.flat_map Subscription.tags
                     (getActiveSubscriptions svc)))).
    { apply Permutation_length, Permutation_filter.
      symmetry. apply Permutation_flat_map, Hperm. }
    now rewrite Hlen.
  - intros Hamounts.
    rewrite (fold_left_total monthly active 0).
    assert (0 <= total monthly active); [|lra].
    apply total_nonneg. unfold active.
    apply List.Forall_forall. intros sub Hin.
    apply List.filter_In in Hin as [Hin _].
    apply List.in_map_iff in Hin as (kv & <- & Hkv).
    rewrite List.Forall_forall in Hamounts.
    apply monthly_nonneg. now apply Hamounts.
Qed.

(** Cancelling an active subscription takes it out of the active ones
    and puts it among the cancelled ones, the others staying in place. *)
Lemma cancel_active_split (m : list (string * Subscription.t)) (d : string)
    (sub : Subscription.t) :
  map_get d m = Some sub -> Subscription.isActive sub = true ->
  let m' := map_set d (set_isActive sub false) m in
  exists l1 l2 c1 c2,
    List.filter (fun s => Subscription.isActive s) (List.map snd m)
      = (l1 ++ sub :: l2)%list /\
    List.filter (fun s => Subscription.isActive s) (List.map snd m')
      = (l1 ++ l2)%list /\
    List.filter (fun s => negb (Subscription.isActive s)) (List.map snd m)
      = (c1 ++ c2)%list /\
    List.filter (fun s => negb (Subscription.isActive s)) (List.map snd m')
      = (c1 ++ set_isActive sub false :: c2)%list.
Proof.
  intros Hget Hact. cbv zeta.
  induction m as [|[k v] m IH]; simpl in *; [discriminate|].
  destruct (String.eqb k d).
  - injection Hget as ->. simpl. rewrite Hact. simpl.
    now exists [], (List.filter (fun s => Subscription.isActive s)
                      (List.map snd m)),
               [], (List.filter (fun s => negb (Subscription.isActive s))
                      (List.map snd m)).
  - destruct (IH Hget) as (l1 & l2 & c1 & c2 & H1 & H2 & H3 & H4).
    simpl. rewrite H1, H2, H3, H4.
    destruct (Subscription.isActive v); simpl.
    + now exists (v :: l1), l2, c1, c2.
    + now exists l1, l2, (v :: c1), c2.
Qed.

(** X24.  Cancelling an active subscription moves it, in the statistics,
    from the active to the cancelled ones.  When no stored amount is
    negative the monthly revenue does not rise and stays non-negative, and
    it is 0 when the cancelled subscription was the only active one. *)
Theorem cancelSubscription_moves_statistics (svc : t) (d : string)
    (sub : Subscription.t) :
  map_get d (subscriptions svc) = Some sub ->
  Subscription.isActive sub = true ->
  let before := getSubscriptionStats svc in
  let after := getSubscriptionStats (snd (cancelSubscription svc d)) in
  (SubscriptionStats.totalActive after + 1
   = SubscriptionStats.totalActive before)%nat /\
  SubscriptionStats.totalCancelled after
    = (SubscriptionStats.totalCancelled before + 1)%nat /\
  (Forall (fun kv => 0 <= Subscription.amount (snd kv)) (subscriptions svc) ->
   0 <= SubscriptionStats.monthlyRecurringRevenue after
     <= SubscriptionStats.monthlyRecurringRevenue before) /\
  (SubscriptionStats.totalActive before = 1%nat ->
   SubscriptionStats.monthlyRecurringRevenue after = 0).
Proof.
  intros Hget Hact before after. subst before after.
  unfold cancelSubscription. rewrite Hget.
  unfold getSubscriptionStats. cbv zeta.
  cbn [snd subscriptions with_subscriptions
       SubscriptionStats.totalActive SubscriptionStats.totalCancelled
       SubscriptionStats.monthlyRecurringRevenue].
  destruct (cancel_active_split (subscriptions svc) d sub Hget Hact)
    as (l1 & l2 & c1 & c2 & H1 & H2 & H3 & H4).
  rewrite H1, H2, H3, H4. rewrite !List.length_app. simpl length.
  split; [lia|]. split; [lia|]. split.
  - intros Hamounts.
    assert (Hall : Forall (fun s => 0 <= Subscription.amount s)
                     (l1 ++ sub :: l2)).
    { rewrite <- H1. apply List.Forall_forall. intros s Hin.
      apply List.filter_In in Hin as [Hin _].
      apply List.in_map_iff in Hin as (kv & <- & Hkv).
      rewrite List.Forall_forall in Hamounts. now apply Hamounts. }
    apply List.Forall_app in Hall as [Hl1 Hl2].
    apply List.Forall_cons_iff in Hl2 as [Hsub Hl2].
    pose proof (monthly_nonneg sub Hsub) as Hm.
    assert (H0l1 : 0 <= total monthly l1).
    { apply total_nonneg. revert Hl1. apply List.Forall_impl.
      intros s. apply monthly_nonneg. }
    assert (H0l2 : 0 <= total monthly l2).
    { apply total_nonneg. revert Hl2. apply List.Forall_impl.
      intros s. apply monthly_nonneg. }
    rewrite (fold_left_total monthly (l1 ++ l2) 0).
    rewrite (fold_left_total monthly (l1 ++ sub :: l2) 0).
    rewrite !total_app. simpl total. lra.
  - intros Hone. assert (Hnil : (l1 ++ l2 = [])%list).
    { apply List.length_zero_iff_nil. rewrite List.length_app. lia. }
    rewrite Hnil. reflexivity.
Qed.

End RegistryQueries.

Lemma getSubscriptionStats_counts_witness :
  SubscriptionStats.campaignsByTag
    (SubscriptionService.getSubscriptionStats Scenario.twoDonors)
    !! "education" = Some 1%nat.
Proof.
  destruct (RegistryQueries.getSubscriptionStats_counts Scenario.twoDonors)
    as (_ & _ & _ & Htags & _).
  rewrite (Htags "education" eq_refl). reflexivity.
Defined.

Lemma cancelSubscription_moves_statistics_witness :
  let before := SubscriptionService.getSubscriptionStats Scenario.twoDonors in
  let after :=
    SubscriptionService.getSubscriptionStats
      (snd (SubscriptionService.cancelSubscription Scenario.twoDonors
              "donor_1")) in
  SubscriptionStats.totalActive before = 2%nat /\
  SubscriptionStats.totalCancelled after
    = (SubscriptionStats.totalCancelled before + 1)%nat /\
  0 <= SubscriptionStats.monthlyRecurringRevenue after
    <= SubscriptionStats.monthlyRecurringRevenue before.
Proof.
  intros before after.
  destruct (SubscriptionService.map_get "donor_1"
              (SubscriptionService.subscriptions Scenario.twoDonors))
    as [sub|] eqn:Hsub; [|vm_compute in Hsub; discriminate].
  assert (Hact : Subscription.isActive sub = true).
  { vm_compute in Hsub. injection Hsub as <-. reflexivity. }
  destruct (RegistryQueries.cancelSubscription_moves_statistics
              Scenario.twoDonors "donor_1" sub Hsub Hact)
    as (_ & Hcancelled & Hrevenue & _).
  split; [reflexivity|]. split; [exact Hcancelled|]. apply Hrevenue.
  vm_compute. repeat constructor; discriminate.
Defined.

(** ** Requests *)

Module ApiFacts.
Import Express Api App.

Section WithWorld.
Variable stringify : Q -> string -> list string -> string.
Variable zone : Date.Zone.

(** A route of another method, or of another path, is passed over. *)
Lemma dispatch_skip {St Inp Res : Type} (route : Route St Inp Res)
    (routes : list (Route St Inp Res)) m path input s :
  (Method_eqb (method route) m
   && is_some (match_path (pattern route) path))%bool = false ->
  dispatch (route :: routes) m path input s
    = dispatch routes m path input s.
Proof.
  simpl. destruct (Method_eqb (method route) m); [|reflexivity].
  now destruct (match_path (pattern route) path).
Qed.

(** The look-up route: the check of the identifier, then the look-up. *)
Lemma get_transaction_route (svc : PaymentService.t) (input : Inputs)
    (id : string) :
  JS.truthy id = true ->
  mounted ["api"; "v1"] (paymentRoutes stringify) GET
    ["api"; "v1"; "transactions"; id] input svc
  = if Schemas.transactionIdSchema id then
      match PaymentService.getTransactionById svc id with
      | None => Answer (respond 404 (Error "Transaction not found")) svc
      | Some transaction =>
          Answer (respond 200 (OneTransaction transaction)) svc
      end
    else Answer (respond 400 (Error "Validation failed")) svc.
Proof.
  intros Htruthy. unfold mounted.
  change (strip_prefix ["api"; "v1"] ["api"; "v1"; "transactions"; id])
    with (Some ["transactions"; id]).
  cbv iota beta. unfold paymentRoutes.
  rewrite dispatch_skip by reflexivity.
  rewrite dispatch_skip by reflexivity.
  cbn [dispatch method pattern handlers].
  change (Method_eqb GET GET) with true. cbv iota.
  change (match_path [Fixed "transactions"; Param "id"] ["transactions"; id])
    with (if JS.truthy id then Some [("id", id)] else @None Params).
  rewrite Htruthy. cbn [run_handlers]. unfold validate at 1.
  change (param "id" [("id", id)]) with id.
  destruct (Schemas.transactionIdSchema id); [|reflexivity].
  rewrite Htruthy. cbn [negb].
  now destruct (PaymentService.getTransactionById svc id).
Qed.

(** The route of a subscription by donor, for a name that passes its
    check. *)
Lemma get_subscription_route (svc : SubscriptionService.t) (input : Inputs)
    (d : string) :
  JS.truthy d = true ->
  Schemas.donorIdSchema d = true ->
  mounted ["api"; "v1"; "subscriptions"] (subscriptionRoutes zone) GET
    ["api"; "v1"; "subscriptions"; d] input svc
  = match SubscriptionService.getSubscriptionByDonorId svc d with
    | None => Answer (respond 404 (Error "Subscription not found")) svc
    | Some subscription =>
        Answer (respond 200 (OneSubscription subscription)) svc
    end.
Proof.
  intros Htruthy Hvalid. unfold mounted.
  change (strip_prefix ["api"; "v1"; "subscriptions"]
            ["api"; "v1"; "subscriptions"; d])
    with (Some [d]).
  cbv iota beta. unfold subscriptionRoutes.
  rewrite dispatch_skip by reflexivity.
  rewrite dispatch_skip by reflexivity.
  cbn [dispatch method pattern handlers].
  change (Method_eqb GET GET) with true. cbv iota.
  change (match_path [Param "donorId"] [d])
    with (if JS.truthy d then Some [("donorId", d)] else @None Params).
  rewrite Htruthy. cbn [run_handlers]. unfold validate at 1.
  change (param "donorId" [("donorId", d)]) with d.
  rewrite Hvalid, Htruthy. cbn [negb].
  now destruct (SubscriptionService.getSubscriptionByDonorId svc d).
Qed.

(** X25.  A GET below the transactions of the payment ledger is taken by
    the route of a transaction by identifier, and one below the
    subscriptions by the route of a subscription by donor, whatever its
    last segment: the first answers 400 when the segment fails the check
    of identifiers, the second answers with the subscription of the donor
    of that name, or 404.  The two statistics addresses, registered after
    these routes, are therefore out of reach: the segment stats fails the
    first check and passes the second.  None of these requests changes the
    application. *)
Theorem statistics_routes_shadowed (app : t) (input : Inputs) :
  (forall segment,
      JS.truthy segment = true ->
      Schemas.transactionIdSchema segment = false ->
      handle stringify zone app GET ["api"; "v1"; "transactions"; segment]
        input
        = (respond 400 (Error "Validation failed"), app)) /\
  Schemas.transactionIdSchema "stats" = false /\
  (forall segment,
      JS.truthy segment = true ->
      Schemas.donorIdSchema segment = true ->
      handle stringify zone app GET ["api"; "v1"; "subscriptions"; segment]
        input
        = (match SubscriptionService.getSubscriptionByDonorId
                   (subscriptionService app) segment with
           | None => respond 404 (Error "Subscription not found")
           | Some subscription => respond 200 (OneSubscription subscription)
           end, app)) /\
  Schemas.donorIdSchema "stats" = true.
Proof.
  split; [|split; [reflexivity|split; [|reflexivity]]].
  - intros segment Htruthy Hinvalid. unfold handle.
    change (Method_eqb GET GET
            && is_some (match_path [Fixed "health"]
                          ["api"; "v1"; "transactions"; segment]))%bool
      with false.
    cbv iota.
    rewrite (get_transaction_route (paymentService app) input segment
               Htruthy), Hinvalid.
    now destruct app.
  - intros segment Htruthy Hvalid. unfold handle.
    change (Method_eqb GET GET
            && is_some (match_path [Fixed "health"]
                          ["api"; "v1"; "subscriptions"; segment]))%bool
      with false.
    cbv iota.
    assert (Hpayments :
      mounted ["api"; "v1"] (paymentRoutes stringify) GET
        ["api"; "v1"; "subscriptions"; segment] input (paymentService app)
      = Next).
    { unfold mounted.
      change (strip_prefix ["api"; "v1"]
                ["api"; "v1"; "subscriptions"; segment])
        with (Some ["subscriptions"; segment]).
      cbv iota beta. unfold paymentRoutes.
      repeat rewrite dispatch_skip by reflexivity. reflexivity. }
    rewrite Hpayments.
    rewrite (get_subscription_route (subscriptionService app) input segment
               Htruthy Hvalid).
    destruct app as [pay subs txs]. cbn [subscriptionService].
    destruct (SubscriptionService.getSubscriptionByDonorId subs segment);
      reflexivity.
Qed.

(** What holds of every handler of a router holds of the router. *)
Lemma dispatch_Answer {St Inp Res : Type} (P : St -> St -> Prop)
    (routes : list (Route St Inp Res)) :
  Forall (fun route =>
            Forall (fun h : Handler St Inp Res =>
                      forall params input s response s',
                        h params input s = Answer response s' -> P s s')
                   (handlers route)) routes ->
  forall m path input s response s',
    dispatch routes m path input s = Answer response s' -> P s s'.
Proof.
  intros Hroutes m path input s response s'.
  induction Hroutes as [|route routes Hroute _ IH]; simpl; [discriminate|].
  destruct (Method_eqb (method route) m); [|exact IH].
  destruct (match_path (pattern route) path) as [params|]; [|exact IH].
  assert (Hrun : forall hs,
    Forall (fun h : Handler St Inp Res =>
              forall params input s response s',
                h params input s = Answer response s' -> P s s') hs ->
    match run_handlers hs params input s with
    | Answer _ s1 => P s s1
    | Next => True
    end).
  { induction 1 as [|h hs Hh _ IHhs]; simpl; [trivial|].
    destruct (h params input s) as [r1 s1|] eqn:E; [|exact IHhs].
    exact (Hh _ _ _ _ _ E). }
  specialize (Hrun (handlers route) Hroute).
  destruct (run_handlers (handlers route) params input s) as [r1 s1|];
    [|exact IH].
  intros [= _ <-]. exact Hrun.
Qed.

(** A router mounted somewhere answers as its routes do. *)
Lemma mounted_Answer {S : Type} (P : S -> S -> Prop) (mount : list string)
    (routes : list (Route S Inputs Response)) :
  (forall m path input s response s',
      dispatch routes m path input s = Answer response s' -> P s s') ->
  forall m path input s response s',
    mounted mount routes m path input s = Answer response s' -> P s s'.
Proof.
  intros H m path input s response s'. unfold mounted.
  destruct (strip_prefix mount path); [apply H | discriminate].
Qed.

Lemma validate_Answer {S : Type} (P : S -> S -> Prop)
    (accepted : Params -> Inputs -> bool) :
  (forall s, P s s) ->
  forall params input s response s',
    @validate S accepted params input s = Answer response s' -> P s s'.
Proof.
  intros Hrefl params input s response s'. unfold validate.
  destruct (accepted params input); [discriminate|].
  intros [= _ <-]. apply Hrefl.
Qed.

(** The routes of [routes/transactions.ts] only read. *)
Lemma transactionRoutes_read_only m path input s response s' :
  dispatch transactionRoutes m path input s = Answer response s' -> s' = s.
Proof.
  apply (dispatch_Answer (fun s s' => s' = s)).
  unfold transactionRoutes.
  repeat (constructor; simpl);
    try (apply (validate_Answer (fun s s' => s' = s)); reflexivity);
    intros params input0 s0 response0 s0';
    repeat match goal with
           | |- context [if ?c then _ else _] => destruct c
           end;
    now intros [= _ <-].
Qed.

(** No request changes the service of [routes/transactions.ts]. *)
Lemma handle_transactionsService (app : t) (m : Method) (path : list string)
    (input : Inputs) :
  transactionsService (snd (handle stringify zone app m path input))
    = transactionsService app.
Proof.
  unfold handle.
  destruct (Method_eqb GET m && is_some (match_path [Fixed "health"] path))%bool;
    [reflexivity|].
  destruct (mounted ["api"; "v1"] _ _ _ _ _); [reflexivity|].
  destruct (mounted ["api"; "v1"; "subscriptions"] _ _ _ _ _); [reflexivity|].
  destruct (mounted ["api"; "v1"; "subscription-transactions"] _ _ _ _ _)
    as [response svc|] eqn:E.
  - simpl. revert E. apply (mounted_Answer (fun s s' => s' = s)).
    apply transactionRoutes_read_only.
  - now destruct (Method_eqb GET m && is_some (match_path [] path))%bool.
Qed.

Lemma run_transactionsService (events : list Event) (app : t) :
  transactionsService app = SubscriptionService.create ->
  transactionsService (run stringify zone app events)
    = SubscriptionService.create.
Proof.
  revert app. induction events as [|event events IH]; intros app H;
    [exact H|].
  apply IH. destruct event as [m path input|now envs|now envs]; simpl.
  - now rewrite handle_transactionsService.
  - exact H.
  - rewrite H. reflexivity.
Qed.

(** X26.  The service behind the addresses under
    [subscription-transactions] is not the one behind the addresses under
    [subscriptions]: no request and no timer ever gives it a subscription
    or a charge attempt, so the listing of all attempts answers with the
    empty list and the count 0, whatever happened before. *)
Theorem subscription_transactions_always_empty (llm0 : LLMService.t)
    (events : list Event) (input : Inputs) :
  let app := run stringify zone (create llm0) events in
  transactionsService app = SubscriptionService.create /\
  handle stringify zone app GET ["api"; "v1"; "subscription-transactions"]
    input
    = (respond 200 (Attempts [] 0), app).
Proof.
  intros app.
  assert (Hempty : transactionsService app = SubscriptionService.create)
    by (apply run_transactionsService; reflexivity).
  split; [exact Hempty|].
  clearbody app. destruct app as [pay subs txs]. simpl in Hempty.
  subst txs. reflexivity.
Qed.

Lemma same_contract_refl (sub : Subscription.t) : Roster.same_contract sub sub.
Proof. repeat split. Qed.

Lemma same_terms_contract (a b : Subscription.t) :
  Roster.same_terms a b -> Roster.same_contract a b.
Proof. unfold Roster.same_terms, Roster.same_contract. tauto. Qed.

Lemma keeps_active_refl (svc : SubscriptionService.t) :
  Roster.keeps_active svc svc.
Proof. intros d sub Hd _. exists sub. split; [exact Hd|]. repeat split. Qed.

Lemma kept_refl (svc : SubscriptionService.t) : Roster.kept svc svc.
Proof. intros Hwf. split; [exact Hwf | apply keeps_active_refl]. Qed.

Lemma kept_createSubscription (svc : SubscriptionService.t)
    (env : SubscriptionService.CreateEnv) (body : SubscriptionRequest.t) :
  (forall existing,
      SubscriptionService.map_get (SubscriptionRequest.donorId body)
        (SubscriptionService.subscriptions svc) = Some existing ->
      Subscription.isActive existing = false) ->
  Roster.kept svc (snd (SubscriptionService.createSubscription zone svc env body)).
Proof.
  intros Hfree Hwf. split; [now apply SweepFacts.createSubscription_wf|].
  intros d sub Hd Hact.
  destruct (String.eqb_spec (SubscriptionRequest.donorId body) d) as [E|Hne].
  - subst d. rewrite (Hfree sub Hd) in Hact. discriminate.
  - exists sub. split; [|apply same_contract_refl].
    simpl. now rewrite RegistryFacts.map_get_set_ne.
Qed.

Lemma kept_cancelSubscription (svc : SubscriptionService.t) (d0 : string) :
  Roster.kept svc (snd (SubscriptionService.cancelSubscription svc d0)).
Proof.
  intros Hwf. split; [now apply SweepFacts.cancelSubscription_wf|].
  intros d sub Hd Hact. unfold SubscriptionService.cancelSubscription.
  destruct (SubscriptionService.map_get d0
              (SubscriptionService.subscriptions svc)) as [sub0|] eqn:Hd0;
    simpl.
  - destruct (String.eqb_spec d0 d) as [E|Hne].
    + subst d0. rewrite Hd in Hd0. injection Hd0 as <-.
      rewrite RegistryFacts.map_get_set_eq. eexists. split; [reflexivity|].
      repeat split.
    + rewrite RegistryFacts.map_get_set_ne by exact Hne.
      exists sub. split; [exact Hd | apply same_contract_refl].
  - exists sub. split; [exact Hd | apply same_contract_refl].
Qed.

Lemma kept_processRecurringCharges (svc : SubscriptionService.t) (now : Z)
    (envs : nat -> SubscriptionService.ChargeEnv) :
  Roster.kept svc (SubscriptionService.processRecurringCharges zone svc now envs).
Proof.
  intros Hwf.
  destruct (SweepExact.processRecurringCharges_exact zone svc now envs Hwf)
    as (new & _ & _ & Hwf' & _ & Hsubs).
  split; [exact Hwf'|]. intros d sub Hd _.
  destruct (Hsubs d sub Hd) as (sub' & Hg & Hst & _).
  exists sub'. split; [exact Hg | now apply same_terms_contract].
Qed.

(** Every answer of [routes/subscriptions.ts] keeps the subscriptions in
    force. *)
Lemma subscriptionRoutes_kept m path input s response s' :
  dispatch (subscriptionRoutes zone) m path input s = Answer response s' ->
  Roster.kept s s'.
Proof.
  apply (dispatch_Answer Roster.kept). unfold subscriptionRoutes.
  repeat (first [apply List.Forall_nil | apply List.Forall_cons];
          cbn [handlers]);
    try (apply (validate_Answer Roster.kept); exact kept_refl);
    intros params input0 s0 response0 s0'.
  - (* POST / *)
    destruct (subscriptionBody input0) as [body|];
      [|intros [= _ <-]; apply kept_refl].
    unfold SubscriptionService.getSubscriptionByDonorId.
    destruct (SubscriptionService.map_get (SubscriptionRequest.donorId body)
                (SubscriptionService.subscriptions s0))
      as [existing|] eqn:Hex;
      [destruct (Subscription.isActive existing) eqn:Hact;
       [intros [= _ <-]; apply kept_refl|]|];
      (destruct (createEnv input0) as [env|];
       [|intros [= _ <-]; apply kept_refl]);
      intros [= _ <-]; apply kept_createSubscription;
      intros existing' He; rewrite Hex in He;
      first [discriminate He | injection He as <-; exact Hact].
  - (* GET / *)
    intros [= _ <-]. apply kept_refl.
  - (* GET /:donorId *)
    repeat match goal with
           | |- context [if ?c then _ else _] => destruct c
           | |- context [match ?o with Some _ => _ | None => _ end] =>
               destruct o
           end; intros [= _ <-]; apply kept_refl.
  - (* DELETE /:donorId *)
    destruct (negb (JS.truthy (param "donorId" params)));
      [intros [= _ <-]; apply kept_refl|].
    pose proof (kept_cancelSubscription s0 (param "donorId" params)) as Hk.
    destruct (SubscriptionService.cancelSubscription s0
                (param "donorId" params)) as [cancelled svc'].
    destruct (negb cancelled); intros [= _ <-]; exact Hk.
  - (* GET /stats *)
    intros [= _ <-]. apply kept_refl.
  - (* POST /process-charges *)
    destruct (production input0); intros [= _ <-];
      [apply kept_refl | apply kept_processRecurringCharges].
Qed.

(** One event of the application keeps the registry well-formed and the
    subscriptions in force. *)
Lemma step_kept (app : t) (event : Event) :
  Roster.kept (subscriptionService app)
       (subscriptionService (step stringify zone app event)).
Proof.
  destruct event as [m path input|now envs|now envs]; simpl.
  - unfold handle.
    destruct (Method_eqb GET m
              && is_some (match_path [Fixed "health"] path))%bool;
      [apply kept_refl|].
    destruct (mounted ["api"; "v1"] _ _ _ _ _); [apply kept_refl|].
    destruct (mounted ["api"; "v1"; "subscriptions"] _ _ _ _ _)
      as [response svc|] eqn:E.
    + simpl. revert E. apply (mounted_Answer Roster.kept).
      apply subscriptionRoutes_kept.
    + destruct (mounted ["api"; "v1"; "subscription-transactions"] _ _ _ _ _);
        [apply kept_refl|].
      destruct (Method_eqb GET m && is_some (match_path [] path))%bool;
        apply kept_refl.
  - apply kept_processRecurringCharges.
  - apply kept_refl.
Qed.

Lemma run_wf (llm0 : LLMService.t) (events : list Event) :
  Registry.wf (subscriptionService (run stringify zone (create llm0) events)).
Proof.
  assert (H : forall app,
            Registry.wf (subscriptionService app) ->
            Registry.wf (subscriptionService (run stringify zone app events))).
  { induction events as [|event events IH]; intros app Hwf; [exact Hwf|].
    apply IH. now apply (step_kept app event). }
  apply H. apply RegistryFacts.wf_create.
Qed.

(** X27.  Through the application, its events handled one after the
    other, a subscription in force is never replaced: whatever requests
    and timer ticks came before, after one
    more of them every subscription that was active is still registered
    for its donor with the same identifier, amount, currency, interval,
    campaign, tags, summary and creation date.  A request to subscribe a
    donor whose subscription is active is answered 409 with that
    subscription and changes nothing. *)
Theorem active_subscription_never_replaced (llm0 : LLMService.t)
    (events : list Event) :
  let app := run stringify zone (create llm0) events in
  (forall event,
      Roster.keeps_active (subscriptionService app)
        (subscriptionService (step stringify zone app event))) /\
  (forall input body existing,
      subscriptionBody input = Some body ->
      SubscriptionService.getSubscriptionByDonorId (subscriptionService app)
        (SubscriptionRequest.donorId body) = Some existing ->
      Subscription.isActive existing = true ->
      handle stringify zone app POST ["api"; "v1"; "subscriptions"] input
        = (respond 409 (Conflict existing), app)).
Proof.
  intros app. split.
  - intros event. apply (step_kept app event). apply run_wf.
  - intros input body existing Hbody Hex Hact. clearbody app.
    unfold handle.
    change (mounted ["api"; "v1"] (paymentRoutes stringify) POST
              ["api"; "v1"; "subscriptions"] input (paymentService app))
      with (@Next PaymentService.t Response).
    cbv iota.
    assert (Hroute :
      mounted ["api"; "v1"; "subscriptions"] (subscriptionRoutes zone)
        POST ["api"; "v1"; "subscriptions"] input (subscriptionService app)
      = Answer (respond 409 (Conflict existing)) (subscriptionService app)).
    { unfold mounted. simpl strip_prefix. unfold subscriptionRoutes.
      simpl. unfold validate. rewrite Hbody. simpl. rewrite Hex, Hact.
      reflexivity. }
    rewrite Hroute. now destruct app.
Qed.

Lemma substring_0_length (s : string) :
  substring 0 (String.length s) s = s.
Proof. induction s as [|c s IH]; simpl; [reflexivity | now rewrite IH]. Qed.

(** An identifier made from a draw that starts with letters and digits
    passes the check of the route that looks transactions up. *)
Lemma generateTransactionId_valid (uuid : string) :
  uuid <> "" ->
  Schemas.all_chars Schemas.is_alnum (substring 0 8 uuid) = true ->
  Schemas.transactionIdSchema (PaymentService.generateTransactionId uuid)
    = true.
Proof.
  intros Hne Halnum. destruct uuid as [|c r]; [congruence|].
  unfold PaymentService.generateTransactionId.
  set (s8 := substring 0 8 (String c r)) in *.
  assert (Htruthy : JS.truthy s8 = true) by reflexivity.
  clearbody s8.
  change ("txn_" ++ s8)
    with (String "t" (String "x" (String "n" (String "_" s8)))).
  unfold Schemas.transactionIdSchema.
  change (String.length (String "t" (String "x" (String "n" (String "_" s8))))
          - 4)%nat with (String.length s8 - 0)%nat.
  rewrite Nat.sub_0_r.
  change (substring 4 (String.length s8)
            (String "t" (String "x" (String "n" (String "_" s8)))))
    with (substring 0 (String.length s8) s8).
  rewrite substring_0_length, Htruthy, Halnum.
  destruct s8; reflexivity.
Qed.

(** After a charge the identifier of the answer leads to a record. *)
Lemma processCharge_lookup (svc : PaymentService.t) (env : PaymentService.Env)
    (request : ChargeRequest.t) :
  let id := PaymentService.generateTransactionId (PaymentService.uuid env) in
  ChargeResponse.transactionId
    (fst (PaymentService.processCharge stringify svc env request)) = id /\
  exists tx,
    PaymentService.getTransactionById
      (snd (PaymentService.processCharge stringify svc env request)) id
      = Some tx /\
    Transaction.id tx = id.
Proof.
  intros id. unfold PaymentService.processCharge.
  destruct (LLMService.generatePaymentExplanation _ _ _ _ _ _ _ _ _)
    as [[explanation llm'] calls].
  cbn [fst snd ChargeResponse.transactionId].
  split; [reflexivity|].
  unfold PaymentService.getTransactionById.
  cbn [PaymentService.transactions]. rewrite LedgerQueries.find_push.
  fold id. cbn [Transaction.id]. rewrite String.eqb_refl.
  destruct (List.find _ (PaymentService.transactions svc)) as [old|] eqn:E.
  - exists old. split; [reflexivity|].
    apply List.find_some in E as [_ E]. now apply String.eqb_eq.
  - eexists. split; reflexivity.
Qed.

(** The charge route, for a body that passes validation. *)
Lemma post_charge_route (svc : PaymentService.t) (input : Inputs)
    (body : ChargeRequest.t) :
  chargeBody input = Some body ->
  mounted ["api"; "v1"] (paymentRoutes stringify) POST
    ["api"; "v1"; "charge"] input svc
  = Answer
      (respond 200
         (Charge (fst (PaymentService.processCharge stringify svc
                         (chargeEnv input) body))))
      (snd (PaymentService.processCharge stringify svc
              (chargeEnv input) body)).
Proof.
  intros Hbody. unfold mounted.
  change (strip_prefix ["api"; "v1"] ["api"; "v1"; "charge"])
    with (Some ["charge"]).
  cbv iota beta. unfold paymentRoutes.
  cbn [dispatch method pattern handlers].
  change (Method_eqb POST POST) with true. cbv iota.
  change (match_path [Fixed "charge"] ["charge"]) with (Some (@nil (string * string))).
  cbn [run_handlers]. unfold validate at 1. rewrite Hbody. cbn [is_some].
  now destruct (PaymentService.processCharge stringify svc
                  (chargeEnv input) body).
Qed.

(** X28.  A transaction can be fetched under the identifier that the
    charge answered with: when the draw behind the identifier starts with
    letters and digits, as a UUID does, a POST of a valid charge is
    answered 200 with a result whose identifier passes the check of the
    look-up route, and a GET of that identifier is then answered 200 with
    a record that carries it, the application staying as the charge left
    it. *)
Theorem issued_transaction_can_be_fetched (app : t) (input input' : Inputs)
    (body : ChargeRequest.t) :
  chargeBody input = Some body ->
  PaymentService.uuid (chargeEnv input) <> "" ->
  Schemas.all_chars Schemas.is_alnum
    (substring 0 8 (PaymentService.uuid (chargeEnv input))) = true ->
  let charged := handle stringify zone app POST ["api"; "v1"; "charge"] input in
  exists result tx,
    fst charged = respond 200 (Charge result) /\
    Schemas.transactionIdSchema (ChargeResponse.transactionId result) = true /\
    handle stringify zone (snd charged) GET
      ["api"; "v1"; "transactions"; ChargeResponse.transactionId result]
      input'
      = (respond 200 (OneTransaction tx), snd charged) /\
    Transaction.id tx = ChargeResponse.transactionId result.
Proof.
  intros Hbody Hne Halnum charged.
  pose proof (generateTransactionId_valid _ Hne Halnum) as Hvalid.
  destruct (processCharge_lookup (paymentService app) (chargeEnv input) body)
    as (Hid & tx & Hfound & Htx).
  set (id := PaymentService.generateTransactionId
               (PaymentService.uuid (chargeEnv input))) in *.
  assert (Hhead : JS.truthy id = true).
  { unfold id, PaymentService.generateTransactionId.
    now destruct (substring 0 8 _). }
  clearbody id.
  assert (Hcharged :
    charged
    = (respond 200
         (Charge (fst (PaymentService.processCharge stringify
                         (paymentService app) (chargeEnv input) body))),
       {| paymentService :=
            snd (PaymentService.processCharge stringify
                   (paymentService app) (chargeEnv input) body);
          subscriptionService := subscriptionService app;
          transactionsService := transactionsService app |})).
  { subst charged. unfold handle.
    now rewrite (post_charge_route (paymentService app) input body Hbody). }
  rewrite Hcharged. cbn [fst snd].
  eexists. exists tx. split; [reflexivity|].
  rewrite Hid. split; [exact Hvalid|]. split; [|exact Htx].
  unfold handle. cbn [paymentService].
  change (Method_eqb GET GET
          && is_some (match_path [Fixed "health"]
                        ["api"; "v1"; "transactions"; id]))%bool with false.
  cbv iota.
  rewrite (get_transaction_route _ input' id Hhead), Hvalid, Hfound.
  reflexivity.
Qed.

End WithWorld.

End ApiFacts.

Lemma issued_transaction_can_be_fetched_witness :
  let app := App.create Scenario.offline in
  let charged :=
    App.handle Scenario.sampleKey 0%Z app Express.POST ["api"; "v1"; "charge"]
      (ApiScenario.charging (Some Scenario.smallCharge)) in
  exists result tx,
    fst charged = Api.respond 200 (Api.Charge result) /\
    App.handle Scenario.sampleKey 0%Z (snd charged) Express.GET
      ["api"; "v1"; "transactions"; ChargeResponse.transactionId result]
      (ApiScenario.charging None)
      = (Api.respond 200 (Api.OneTransaction tx), snd charged).
Proof.
  intros app charged.
  assert (Hne : PaymentService.uuid
                  (Api.chargeEnv
                     (ApiScenario.charging (Some Scenario.smallCharge)))
                <> "") by discriminate.
  destruct (ApiFacts.issued_transaction_can_be_fetched Scenario.sampleKey 0%Z
              app (ApiScenario.charging (Some Scenario.smallCharge))
              (ApiScenario.charging None) Scenario.smallCharge
              eq_refl Hne eq_refl)
    as (result & tx & Hcharged & _ & Hfetched & _).
  exists result, tx. split; [exact Hcharged | exact Hfetched].
Defined.

(** ** What a creation replaces *)

Module CreationFacts.
Import SubscriptionService RegistryFacts.

Section WithTimeZone.
Variable zone : Date.Zone.

(** X29.  [createSubscription] itself does not look at what the donor
    has: the new subscription takes the place of an existing one, active
    or not, at its position in the registry, or goes to the end when the
    donor is new.  It starts without a last charge date, the
    subscriptions of the other donors stay as they are, and so does the
    ledger of charge attempts, those of a replaced subscription
    included. *)
Theorem createSubscription_replaces (svc : t) (env : CreateEnv)
    (request : SubscriptionRequest.t) :
  let created := fst (createSubscription zone svc env request) in
  let svc' := snd (createSubscription zone svc env request) in
  let donor := SubscriptionRequest.donorId request in
  map_get donor (subscriptions svc') = Some created /\
  Subscription.lastChargedAt created = None /\
  transactions svc' = transactions svc /\
  (forall d, d <> donor ->
             map_get d (subscriptions svc') = map_get d (subscriptions svc)) /\
  (forall old, map_get donor (subscriptions svc) = Some old ->
               List.map fst (subscriptions svc')
                 = List.map fst (subscriptions svc)) /\
  (map_get donor (subscriptions svc) = None ->
   List.map fst (subscriptions svc')
     = (List.map fst (subscriptions svc) ++ [donor])%list).
Proof.
  intros created svc' donor. subst created svc' donor. simpl.
  split; [apply map_get_set_eq|]. split; [reflexivity|].
  split; [reflexivity|]. split; [|split].
  - intros d Hne. apply map_get_set_ne. congruence.
  - intros old Hold. now apply (map_set_keys_present _ _ old).
  - intros Hnew. now apply map_set_keys_absent.
Qed.

End WithTimeZone.

End CreationFacts.

Lemma createSubscription_replaces_witness :
  let again :=
    SubscriptionService.createSubscription 0%Z Scenario.oneDonor
      (Scenario.createAt 5 5) Scenario.sampleRequest in
  List.map fst (SubscriptionService.subscriptions (snd again)) = ["donor_1"] /\
  SubscriptionService.map_get "donor_1"
    (SubscriptionService.subscriptions (snd again)) = Some (fst again).
Proof.
  intros again.
  destruct (CreationFacts.createSubscription_replaces 0%Z Scenario.oneDonor
              (Scenario.createAt 5 5) Scenario.sampleRequest)
    as (Hstored & _ & _ & _ & Hplace & _).
  split; [|exact Hstored].
  destruct (SubscriptionService.map_get "donor_1"
              (SubscriptionService.subscriptions Scenario.oneDonor))
    as [old|] eqn:Hold; [|vm_compute in Hold; discriminate].
  exact (Hplace old Hold).
Defined.

(** ** Worked cases of the listings, statistics and checks *)

Module WorkedCases.

(** The statistics of an empty ledger, as the test suite expects them. *)
Example getTransactionStats_empty :
  let stats :=
    PaymentService.getTransactionStats
      (PaymentService.create Scenario.offline) in
  TransactionStats.total stats = 0%nat /\
  TransactionStats.successful stats = 0%nat /\
  TransactionStats.blocked stats = 0%nat /\
  TransactionStats.totalAmount stats == 0 /\
  TransactionStats.averageRiskScore stats == 0 /\
  TransactionStats.providerBreakdown stats = ∅.
Proof. repeat split. Qed.

(** The statistics of the ledger of two charges: one went to stripe, one
    was blocked. *)
Example getTransactionStats_twoCharges :
  let stats := PaymentService.getTransactionStats LedgerScenario.twoCharges in
  TransactionStats.total stats = 2%nat /\
  TransactionStats.successful stats = 1%nat /\
  TransactionStats.blocked stats = 1%nat /\
  TransactionStats.totalAmount stats == 60500 /\
  TransactionStats.providerBreakdown stats !! "stripe" = Some 1%nat /\
  TransactionStats.providerBreakdown stats !! "blocked" = Some 1%nat /\
  TransactionStats.providerBreakdown stats !! "paypal" = None.
Proof. vm_compute. repeat split. Qed.

Example generateFallbackCampaignAnalysis_cases :
  LLMServiceCampaign.generateFallbackCampaignAnalysis
    "Emergency food and clean water for children in Nepal"
    = {| CampaignAnalysis.tags :=
           ["disaster relief"; "clean water"; "food aid"; "children"; "nepal"];
         CampaignAnalysis.summary :=
           "Emergency food and clean water for children in Nepal" |} /\
  CampaignAnalysis.tags
    (LLMServiceCampaign.generateFallbackCampaignAnalysis "Support our work")
    = ["charitable cause"].
Proof. split; reflexivity. Qed.

Example schema_cases :
  Schemas.donorIdSchema "donor_1" = true /\
  Schemas.donorIdSchema "stats" = true /\
  Schemas.donorIdSchema "" = false /\
  Schemas.donorIdSchema "donor 1" = false /\
  Schemas.transactionIdSchema "txn_3f2b8c1e" = true /\
  Schemas.transactionIdSchema "txn_" = false /\
  Schemas.transactionIdSchema "stats" = false /\
  Schemas.supportedCurrencySchema "EUR" = true /\
  Schemas.supportedCurrencySchema "RUB" = false.
Proof. repeat split. Qed.

Example convertToMonthlyAmount_cases :
  SubscriptionService.convertToMonthlyAmount 1000 Interval.daily == 30000 /\
  SubscriptionService.convertToMonthlyAmount 1000 Interval.weekly == 4330 /\
  SubscriptionService.convertToMonthlyAmount 1000 Interval.monthly == 1000 /\
  SubscriptionService.convertToMonthlyAmount 1200 Interval.yearly == 100.
Proof. repeat split. Qed.

End WorkedCases.
